(** * Horizon: the interaction and state engine of [app.js]

    A shallow embedding of the handlers of [src/app.js] that decide the
    viewport transform, the selection and focus state, the node-delete
    ledgers, the clipboard and the load/import paths, with the properties
    the specification states about them, followed by the code around
    them (the selection-box outline, render order, save payload, toolbar
    and drawing layer) and further properties of the handlers.

    Conventions of the embedding.
    - A JavaScript number is modelled as an exact rational ([Qc], canonical
      rationals with Leibniz equality).  Every finite double is such a
      rational and comparisons are exact; the results of [+ - * /] are the
      exact ones, rounding is not modelled.  A quotient is read only where
      its divisor is not zero: [Qc] gives [x / 0 = 0] where JavaScript
      gives an infinity or [NaN], so a property that depends on a quotient
      by [zoom] assumes [zoom ≠ 0].  The module [Binary64] evaluates the
      wheel step and [screenToWorld] on doubles, to show where rounding
      shows.
    - JavaScript objects that are shared and mutated in place (the node
      objects of [state.nodes] and their nested [data] objects) live in an
      explicit store, and arrays hold references into it.
    - A [Set] is a list without duplicates kept in insertion order.
    - An array used as a stack ([nodeUndo], [nodeRedo]) is kept top first.
    - What a handler reads from the browser (the answer to [confirm], the
      rectangles of the rendered elements, the file content, the values of
      [crypto.randomUUID]) is an input of the handler. *)

From Stdlib Require Import QArith Qcanon Ascii Lqa Floats.
From stdpp Require Import base numbers gmap strings list pretty.

Local Open Scope Qc_scope.
Set Warnings "-clear-no-such-hyp".

(** ** Numbers *)

Definition num (a : Z) (b : positive) : Qc := Q2Qc (a # b).

Definition Qc_ltb (a b : Qc) : bool := bool_decide (a < b)%Qc.
Definition Qc_leb (a b : Qc) : bool := bool_decide (a ≤ b)%Qc.
Definition Qc_gtb (a b : Qc) : bool := Qc_ltb b a.
Definition Qc_geb (a b : Qc) : bool := Qc_leb b a.

(** [Math.min] and [Math.max] on numbers. *)
Definition Math_min (a b : Qc) : Qc := if Qc_leb a b then a else b.
Definition Math_max (a b : Qc) : Qc := if Qc_leb a b then b else a.

(** ** Rectangles and the two predicates of the selection geometry *)

Record Rect := mkRect { r_left : Qc; r_top : Qc; r_right : Qc; r_bottom : Qc }.

Definition rectIntersects (a b : Rect) : bool :=
  negb (Qc_ltb (r_right a) (r_left b) || Qc_gtb (r_left a) (r_right b)
        || Qc_ltb (r_bottom a) (r_top b) || Qc_gtb (r_top a) (r_bottom b)).

Definition rectContains (outer inner : Rect) : bool :=
  Qc_geb (r_left inner) (r_left outer) &&
  Qc_leb (r_right inner) (r_right outer) &&
  Qc_geb (r_top inner) (r_top outer) &&
  Qc_leb (r_bottom inner) (r_bottom outer).

(** ** Insertion-ordered sets of ids ([selectedIds]) *)

Definition set_has (s : list string) (i : string) : bool := bool_decide (i ∈ s).
Definition set_add (s : list string) (i : string) : list string :=
  if set_has s i then s else s ++ [i].
Definition set_delete (s : list string) (i : string) : list string :=
  filter (λ j, j ≠ i) s.

(** ** Group selection on drag release

    The [up] listener of the selection box reads, for every rendered
    [.node] element, its [dataset.id], its bounding rectangle and whether it
    carries the class [zone]. *)

Record DomNode := mkDomNode { dn_id : string; dn_rect : Rect; dn_isZone : bool }.

(** JavaScript truthiness of a string. *)
Definition truthy_str (s : string) : bool := negb (bool_decide (s = "")).

Definition zoneActive (sel : Rect) (z : DomNode) : bool :=
  let intersects := rectIntersects (dn_rect z) sel in
  let selectionInsideZone := rectContains (dn_rect z) sel in
  let zoneInsideSelection := rectContains sel (dn_rect z) in
  let partialEscape := intersects && negb selectionInsideZone && negb zoneInsideSelection in
  partialEscape || zoneInsideSelection.

(** The selection rectangle spanned by the press point and the release point. *)
Definition selRect (x1 y1 x2 y2 : Qc) : Rect :=
  mkRect (Math_min x1 x2) (Math_min y1 y2) (Math_max x1 x2) (Math_max y1 y2).

Definition domNodes (dom : list DomNode) : list DomNode :=
  filter (λ n, truthy_str (dn_id n) = true) dom.
Definition domZones (dom : list DomNode) : list DomNode :=
  filter (λ n, dn_isZone n = true) (domNodes dom).
Definition domOthers (dom : list DomNode) : list DomNode :=
  filter (λ n, dn_isZone n = false) (domNodes dom).

(** [activeZones.forEach(z => { add z.id; others.forEach(n => if contains add n.id) })] *)
Definition addZoneAndContents (others : list DomNode) (acc : list string) (z : DomNode)
  : list string :=
  foldl (λ acc n, if rectContains (dn_rect z) (dn_rect n) then set_add acc (dn_id n) else acc)
        (set_add acc (dn_id z)) others.

(** The set [selectedIds] that the [up] listener rebuilds from scratch. *)
Definition boxSelection (sel : Rect) (dom : list DomNode) : list string :=
  let zones := domZones dom in
  let others := domOthers dom in
  let activeZones := filter (λ z, zoneActive sel z = true) zones in
  let s1 := foldl (addZoneAndContents others) [] activeZones in
  foldl (λ acc n, if rectIntersects (dn_rect n) sel then set_add acc (dn_id n) else acc)
        s1 others.

(** The words of the specification: a zone rectangle is active when it
    partially escapes the selection or is fully enclosed by it. *)
Definition specActive (sel z : Rect) : Prop :=
  (rectIntersects z sel = true ∧ rectContains z sel = false ∧ rectContains sel z = false)
  ∨ rectContains sel z = true.

(** The three rectangles of the escape example of the specification. *)
Definition exZ : DomNode := mkDomNode "Z" (mkRect (num 0 1) (num 0 1) (num 100 1) (num 100 1)) true.
Definition exN : DomNode := mkDomNode "N" (mkRect (num 95 1) (num 95 1) (num 105 1) (num 105 1)) false.
Definition exS : Rect := mkRect (num 90 1) (num 90 1) (num 150 1) (num 150 1).

(** ** The primitive catalog

    [primitives[type].fields]: the field keys of every primitive type, in
    the order of the source. *)

Inductive PrimType :=
  | Tzone | Thost | Tvuln | Tcredential | Thash | Tflag | Tsecret
  | Twebapp | Tdatabase | Tdomain_controller | Tservice | Tnote | Tartifact.

Global Instance PrimType_eq_dec : EqDecision PrimType.
Proof. solve_decision. Defined.

Definition primitiveFields (t : PrimType) : list string :=
  match t with
  | Tzone => ["title"; "subnet"; "notes"]
  | Thost => ["hostname"; "os"; "network"; "protections"; "shares"; "ports"; "tech"; "notes"]
  | Tvuln => ["type"; "severity"; "cwe"; "cve"; "cvss"; "evidence"; "affected";
              "description"; "impact"; "exploit"; "remediation"]
  | Tcredential => ["privilege"; "username"; "password"; "target"; "source"; "notes"]
  | Thash => ["type"; "algorithm"; "value"; "password"; "target"; "source"; "notes"]
  | Tflag => ["value"; "source"; "time"]
  | Tsecret => ["type"; "target"; "source"; "value"]
  | Twebapp => ["url"; "hostname"; "type"; "ip"; "port"; "tech"; "auth"; "notes"]
  | Tdatabase => ["type"; "hostname"; "ip"; "port"; "creds"; "notes"]
  | Tdomain_controller => ["hostname"; "os"; "forest"; "domain"; "ip"; "services";
                           "nearby_infra"; "notes"]
  | Tservice => ["type"; "host"; "account"; "notes"]
  | Tnote => ["text"]
  | Tartifact => ["type"; "location"; "purpose"; "cleanup"; "notes"; "evidence"; "created_by"]
  end.

(** ** The store of node objects

    A node object [{id, type, x, y, w, h, data}] holds a reference to its
    [data] object, a mapping from field key to string. *)

Abbreviation loc := positive.

Record NodeObj := mkNode {
  n_id : string; n_type : PrimType;
  n_x : Qc; n_y : Qc; n_w : Qc; n_h : Qc;
  n_data : loc }.

Global Instance NodeObj_inhabited : Inhabited NodeObj :=
  populate (mkNode "" Tnote 0 0 0 0 1%positive).

Record Store := mkStore {
  nodeHeap : gmap loc NodeObj;
  dataHeap : gmap loc (gmap string string) }.

(** Reading through a reference.  A reference that the store does not hold
    reads as a default object; the states the handlers produce hold no such
    reference ([reachable_wf] below). *)
Definition getNode (σ : Store) (l : loc) : NodeObj := nodeHeap σ !!! l.
Definition getData (σ : Store) (l : loc) : gmap string string := dataHeap σ !!! l.
Definition idOf (σ : Store) (l : loc) : string := n_id (getNode σ l).

Definition putNode (l : loc) (n : NodeObj) (σ : Store) : Store :=
  mkStore (<[l := n]> (nodeHeap σ)) (dataHeap σ).
Definition putData (l : loc) (d : gmap string string) (σ : Store) : Store :=
  mkStore (nodeHeap σ) (<[l := d]> (dataHeap σ)).

(** A new object gets a location that the store does not hold yet. *)
Definition allocData (d : gmap string string) (σ : Store) : Store * loc :=
  let l := fresh (dom (dataHeap σ)) in (putData l d σ, l).
Definition allocNode (n : NodeObj) (σ : Store) : Store * loc :=
  let l := fresh (dom (nodeHeap σ)) in (putNode l n σ, l).

(** [JSON.parse(JSON.stringify(n))] of a node object: a new node object
    with a new [data] object, both with the contents of the original. *)
Definition deepCopy (σ : Store) (l : loc) : Store * loc :=
  let n := getNode σ l in
  let '(σ1, dl) := allocData (getData σ (n_data n)) σ in
  allocNode (mkNode (n_id n) (n_type n) (n_x n) (n_y n) (n_w n) (n_h n) dl) σ1.

(** The same on an array of node objects, element by element. *)
Fixpoint deepCopyList (σ : Store) (ls : list loc) : Store * list loc :=
  match ls with
  | [] => (σ, [])
  | l :: rest =>
      let '(σ1, c) := deepCopy σ l in
      let '(σ2, cs) := deepCopyList σ1 rest in
      (σ2, c :: cs)
  end.

(** What a node object holds, read through the store: its fields and the
    contents of its [data] object. *)
Record NodeVal := mkNodeVal {
  v_id : string; v_type : PrimType;
  v_x : Qc; v_y : Qc; v_w : Qc; v_h : Qc;
  v_data : gmap string string }.

Definition viewNode (σ : Store) (l : loc) : NodeVal :=
  let n := getNode σ l in
  mkNodeVal (n_id n) (n_type n) (n_x n) (n_y n) (n_w n) (n_h n) (getData σ (n_data n)).

(** A parsed node becomes a new node object with a new [data] object. *)
Definition allocNodeVal (v : NodeVal) (σ : Store) : Store * loc :=
  let '(σ1, dl) := allocData (v_data v) σ in
  allocNode (mkNode (v_id v) (v_type v) (v_x v) (v_y v) (v_w v) (v_h v) dl) σ1.

Fixpoint allocNodeVals (σ : Store) (vs : list NodeVal) : Store * list loc :=
  match vs with
  | [] => (σ, [])
  | v :: rest =>
      let '(σ1, c) := allocNodeVal v σ in
      let '(σ2, cs) := allocNodeVals σ1 rest in
      (σ2, c :: cs)
  end.

(** ** The application state

    The module-level variables of [app.js].  Strokes, text notes and edges
    are carried through by value: the handlers embedded here never mutate
    one in place. *)

Inductive Mode := ModeNormal | ModeDraw | ModeText.

Global Instance Mode_eq_dec : EqDecision Mode.
Proof. solve_decision. Defined.

(** An edge is opaque to the handlers; it is kept as its JSON text. *)
Definition Edge : Type := string.

Record Stroke := mkStroke {
  s_id : string; s_color : string; s_size : Qc; s_points : list (Qc * Qc) }.

Record TextDrawing := mkText {
  t_id : string; t_x : Qc; t_y : Qc; t_text : string; t_size : Qc; t_color : string }.

(** [clipboard]: [{type: "single", node}] or [{type: "multi", nodes}]. *)
Inductive Clipboard :=
  | ClipSingle (node : loc)
  | ClipMulti (nodes : list loc).

(** The closures registered on [window] for the time of a gesture.  A node
    drag keeps the press point and the start positions by id; a resize keeps
    the node object, the corner and the start geometry. *)
Record DragCtx := mkDrag { d_sx : Qc; d_sy : Qc; d_starts : gmap string (Qc * Qc) }.

Inductive Corner := TL | TR | BL | BR.

Record ResizeCtx := mkResize {
  rz_node : loc; rz_pos : Corner;
  rz_sx : Qc; rz_sy : Qc; rz_sw : Qc; rz_sh : Qc; rz_ox : Qc; rz_oy : Qc }.

Inductive Listener :=
  | LSelect
  | LDrag (c : DragCtx)
  | LResize (c : ResizeCtx).

Global Instance Corner_eq_dec : EqDecision Corner.
Proof. solve_decision. Defined.
Global Instance DragCtx_eq_dec : EqDecision DragCtx.
Proof. solve_decision. Defined.
Global Instance ResizeCtx_eq_dec : EqDecision ResizeCtx.
Proof. solve_decision. Defined.
Global Instance Listener_eq_dec : EqDecision Listener.
Proof. solve_decision. Defined.

Record AppState := mkState {
  zoom : Qc;
  panX : Qc;
  panY : Qc;
  shiftDown : bool;
  ctrlDown : bool;
  interactionMode : Mode;
  selectedIds : list string;
  focusedId : option string;
  nodes : list loc;
  edges : list Edge;
  drawings : list Stroke;
  textDrawings : list TextDrawing;
  clipboard : option Clipboard;
  drawRedo : list Stroke;
  nodeUndo : list (list loc);
  nodeRedo : list (list loc);
  selecting : bool;
  selectStart : option (Qc * Qc);
  panning : bool;
  panStart : Qc * Qc;
  isDirty : bool;
  saveTimer : bool;
  listeners : list Listener;
  store : Store;
  uuidCalls : nat;
  alerts : list string;
  warnings : list string }.

(** Assignments to the variables of the state. *)
Definition set_zoom (v : Qc) (st : AppState) : AppState :=
  mkState v (panX st) (panY st) (shiftDown st) (ctrlDown st) (interactionMode st)
    (selectedIds st) (focusedId st) (nodes st) (edges st) (drawings st) (textDrawings st)
    (clipboard st) (drawRedo st) (nodeUndo st) (nodeRedo st) (selecting st) (selectStart st)
    (panning st) (panStart st) (isDirty st) (saveTimer st) (listeners st) (store st)
    (uuidCalls st) (alerts st) (warnings st).
Definition set_panX (v : Qc) (st : AppState) : AppState :=
  mkState (zoom st) v (panY st) (shiftDown st) (ctrlDown st) (interactionMode st)
    (selectedIds st) (focusedId st) (nodes st) (edges st) (drawings st) (textDrawings st)
    (clipboard st) (drawRedo st) (nodeUndo st) (nodeRedo st) (selecting st) (selectStart st)
    (panning st) (panStart st) (isDirty st) (saveTimer st) (listeners st) (store st)
    (uuidCalls st) (alerts st) (warnings st).
Definition set_panY (v : Qc) (st : AppState) : AppState :=
  mkState (zoom st) (panX st) v (shiftDown st) (ctrlDown st) (interactionMode st)
    (selectedIds st) (focusedId st) (nodes st) (edges st) (drawings st) (textDrawings st)
    (clipboard st) (drawRedo st) (nodeUndo st) (nodeRedo st) (selecting st) (selectStart st)
    (panning st) (panStart st) (isDirty st) (saveTimer st) (listeners st) (store st)
    (uuidCalls st) (alerts st) (warnings st).
Definition set_shiftDown (v : bool) (st : AppState) : AppState :=
  mkState (zoom st) (panX st) (panY st) v (ctrlDown st) (interactionMode st) (selectedIds st)
    (focusedId st) (nodes st) (edges st) (drawings st) (textDrawings st) (clipboard st)
    (drawRedo st) (nodeUndo st) (nodeRedo st) (selecting st) (selectStart st) (panning st)
    (panStart st) (isDirty st) (saveTimer st) (listeners st) (store st) (uuidCalls st)
    (alerts st) (warnings st).
Definition set_ctrlDown (v : bool) (st : AppState) : AppState :=
  mkState (zoom st) (panX st) (panY st) (shiftDown st) v (interactionMode st) (selectedIds st)
    (focusedId st) (nodes st) (edges st) (drawings st) (textDrawings st) (clipboard st)
    (drawRedo st) (nodeUndo st) (nodeRedo st) (selecting st) (selectStart st) (panning st)
    (panStart st) (isDirty st) (saveTimer st) (listeners st) (store st) (uuidCalls st)
    (alerts st) (warnings st).
Definition set_interactionMode (v : Mode) (st : AppState) : AppState :=
  mkState (zoom st) (panX st) (panY st) (shiftDown st) (ctrlDown st) v (selectedIds st)
    (focusedId st) (nodes st) (edges st) (drawings st) (textDrawings st) (clipboard st)
    (drawRedo st) (nodeUndo st) (nodeRedo st) (selecting st) (selectStart st) (panning st)
    (panStart st) (isDirty st) (saveTimer st) (listeners st) (store st) (uuidCalls st)
    (alerts st) (warnings st).
Definition set_selectedIds (v : list string) (st : AppState) : AppState :=
  mkState (zoom st) (panX st) (panY st) (shiftDown st) (ctrlDown st) (interactionMode st) v
    (focusedId st) (nodes st) (edges st) (drawings st) (textDrawings st) (clipboard st)
    (drawRedo st) (nodeUndo st) (nodeRedo st) (selecting st) (selectStart st) (panning st)
    (panStart st) (isDirty st) (saveTimer st) (listeners st) (store st) (uuidCalls st)
    (alerts st) (warnings st).
Definition set_focusedId (v : option string) (st : AppState) : AppState :=
  mkState (zoom st) (panX st) (panY st) (shiftDown st) (ctrlDown st) (interactionMode st)
    (selectedIds st) v (nodes st) (edges st) (drawings st) (textDrawings st) (clipboard st)
    (drawRedo st) (nodeUndo st) (nodeRedo st) (selecting st) (selectStart st) (panning st)
    (panStart st) (isDirty st) (saveTimer st) (listeners st) (store st) (uuidCalls st)
    (alerts st) (warnings st).
Definition set_nodes (v : list loc) (st : AppState) : AppState :=
  mkState (zoom st) (panX st) (panY st) (shiftDown st) (ctrlDown st) (interactionMode st)
    (selectedIds st) (focusedId st) v (edges st) (drawings st) (textDrawings st) (clipboard st)
    (drawRedo st) (nodeUndo st) (nodeRedo st) (selecting st) (selectStart st) (panning st)
    (panStart st) (isDirty st) (saveTimer st) (listeners st) (store st) (uuidCalls st)
    (alerts st) (warnings st).
Definition set_edges (v : list Edge) (st : AppState) : AppState :=
  mkState (zoom st) (panX st) (panY st) (shiftDown st) (ctrlDown st) (interactionMode st)
    (selectedIds st) (focusedId st) (nodes st) v (drawings st) (textDrawings st) (clipboard st)
    (drawRedo st) (nodeUndo st) (nodeRedo st) (selecting st) (selectStart st) (panning st)
    (panStart st) (isDirty st) (saveTimer st) (listeners st) (store st) (uuidCalls st)
    (alerts st) (warnings st).
Definition set_drawings (v : list Stroke) (st : AppState) : AppState :=
  mkState (zoom st) (panX st) (panY st) (shiftDown st) (ctrlDown st) (interactionMode st)
    (selectedIds st) (focusedId st) (nodes st) (edges st) v (textDrawings st) (clipboard st)
    (drawRedo st) (nodeUndo st) (nodeRedo st) (selecting st) (selectStart st) (panning st)
    (panStart st) (isDirty st) (saveTimer st) (listeners st) (store st) (uuidCalls st)
    (alerts st) (warnings st).
Definition set_textDrawings (v : list TextDrawing) (st : AppState) : AppState :=
  mkState (zoom st) (panX st) (panY st) (shiftDown st) (ctrlDown st) (interactionMode st)
    (selectedIds st) (focusedId st) (nodes st) (edges st) (drawings st) v (clipboard st)
    (drawRedo st) (nodeUndo st) (nodeRedo st) (selecting st) (selectStart st) (panning st)
    (panStart st) (isDirty st) (saveTimer st) (listeners st) (store st) (uuidCalls st)
    (alerts st) (warnings st).
Definition set_clipboard (v : option Clipboard) (st : AppState) : AppState :=
  mkState (zoom st) (panX st) (panY st) (shiftDown st) (ctrlDown st) (interactionMode st)
    (selectedIds st) (focusedId st) (nodes st) (edges st) (drawings st) (textDrawings st) v
    (drawRedo st) (nodeUndo st) (nodeRedo st) (selecting st) (selectStart st) (panning st)
    (panStart st) (isDirty st) (saveTimer st) (listeners st) (store st) (uuidCalls st)
    (alerts st) (warnings st).
Definition set_drawRedo (v : list Stroke) (st : AppState) : AppState :=
  mkState (zoom st) (panX st) (panY st) (shiftDown st) (ctrlDown st) (interactionMode st)
    (selectedIds st) (focusedId st) (nodes st) (edges st) (drawings st) (textDrawings st)
    (clipboard st) v (nodeUndo st) (nodeRedo st) (selecting st) (selectStart st) (panning st)
    (panStart st) (isDirty st) (saveTimer st) (listeners st) (store st) (uuidCalls st)
    (alerts st) (warnings st).
Definition set_nodeUndo (v : list (list loc)) (st : AppState) : AppState :=
  mkState (zoom st) (panX st) (panY st) (shiftDown st) (ctrlDown st) (interactionMode st)
    (selectedIds st) (focusedId st) (nodes st) (edges st) (drawings st) (textDrawings st)
    (clipboard st) (drawRedo st) v (nodeRedo st) (selecting st) (selectStart st) (panning st)
    (panStart st) (isDirty st) (saveTimer st) (listeners st) (store st) (uuidCalls st)
    (alerts st) (warnings st).
Definition set_nodeRedo (v : list (list loc)) (st : AppState) : AppState :=
  mkState (zoom st) (panX st) (panY st) (shiftDown st) (ctrlDown st) (interactionMode st)
    (selectedIds st) (focusedId st) (nodes st) (edges st) (drawings st) (textDrawings st)
    (clipboard st) (drawRedo st) (nodeUndo st) v (selecting st) (selectStart st) (panning st)
    (panStart st) (isDirty st) (saveTimer st) (listeners st) (store st) (uuidCalls st)
    (alerts st) (warnings st).
Definition set_selecting (v : bool) (st : AppState) : AppState :=
  mkState (zoom st) (panX st) (panY st) (shiftDown st) (ctrlDown st) (interactionMode st)
    (selectedIds st) (focusedId st) (nodes st) (edges st) (drawings st) (textDrawings st)
    (clipboard st) (drawRedo st) (nodeUndo st) (nodeRedo st) v (selectStart st) (panning st)
    (panStart st) (isDirty st) (saveTimer st) (listeners st) (store st) (uuidCalls st)
    (alerts st) (warnings st).
Definition set_selectStart (v : option (Qc * Qc)) (st : AppState) : AppState :=
  mkState (zoom st) (panX st) (panY st) (shiftDown st) (ctrlDown st) (interactionMode st)
    (selectedIds st) (focusedId st) (nodes st) (edges st) (drawings st) (textDrawings st)
    (clipboard st) (drawRedo st) (nodeUndo st) (nodeRedo st) (selecting st) v (panning st)
    (panStart st) (isDirty st) (saveTimer st) (listeners st) (store st) (uuidCalls st)
    (alerts st) (warnings st).
Definition set_panning (v : bool) (st : AppState) : AppState :=
  mkState (zoom st) (panX st) (panY st) (shiftDown st) (ctrlDown st) (interactionMode st)
    (selectedIds st) (focusedId st) (nodes st) (edges st) (drawings st) (textDrawings st)
    (clipboard st) (drawRedo st) (nodeUndo st) (nodeRedo st) (selecting st) (selectStart st) v
    (panStart st) (isDirty st) (saveTimer st) (listeners st) (store st) (uuidCalls st)
    (alerts st) (warnings st).
Definition set_panStart (v : Qc * Qc) (st : AppState) : AppState :=
  mkState (zoom st) (panX st) (panY st) (shiftDown st) (ctrlDown st) (interactionMode st)
    (selectedIds st) (focusedId st) (nodes st) (edges st) (drawings st) (textDrawings st)
    (clipboard st) (drawRedo st) (nodeUndo st) (nodeRedo st) (selecting st) (selectStart st)
    (panning st) v (isDirty st) (saveTimer st) (listeners st) (store st) (uuidCalls st)
    (alerts st) (warnings st).
Definition set_isDirty (v : bool) (st : AppState) : AppState :=
  mkState (zoom st) (panX st) (panY st) (shiftDown st) (ctrlDown st) (interactionMode st)
    (selectedIds st) (focusedId st) (nodes st) (edges st) (drawings st) (textDrawings st)
    (clipboard st) (drawRedo st) (nodeUndo st) (nodeRedo st) (selecting st) (selectStart st)
    (panning st) (panStart st) v (saveTimer st) (listeners st) (store st) (uuidCalls st)
    (alerts st) (warnings st).
Definition set_saveTimer (v : bool) (st : AppState) : AppState :=
  mkState (zoom st) (panX st) (panY st) (shiftDown st) (ctrlDown st) (interactionMode st)
    (selectedIds st) (focusedId st) (nodes st) (edges st) (drawings st) (textDrawings st)
    (clipboard st) (drawRedo st) (nodeUndo st) (nodeRedo st) (selecting st) (selectStart st)
    (panning st) (panStart st) (isDirty st) v (listeners st) (store st) (uuidCalls st)
    (alerts st) (warnings st).
Definition set_listeners (v : list Listener) (st : AppState) : AppState :=
  mkState (zoom st) (panX st) (panY st) (shiftDown st) (ctrlDown st) (interactionMode st)
    (selectedIds st) (focusedId st) (nodes st) (edges st) (drawings st) (textDrawings st)
    (clipboard st) (drawRedo st) (nodeUndo st) (nodeRedo st) (selecting st) (selectStart st)
    (panning st) (panStart st) (isDirty st) (saveTimer st) v (store st) (uuidCalls st)
    (alerts st) (warnings st).
Definition set_store (v : Store) (st : AppState) : AppState :=
  mkState (zoom st) (panX st) (panY st) (shiftDown st) (ctrlDown st) (interactionMode st)
    (selectedIds st) (focusedId st) (nodes st) (edges st) (drawings st) (textDrawings st)
    (clipboard st) (drawRedo st) (nodeUndo st) (nodeRedo st) (selecting st) (selectStart st)
    (panning st) (panStart st) (isDirty st) (saveTimer st) (listeners st) v (uuidCalls st)
    (alerts st) (warnings st).
Definition set_uuidCalls (v : nat) (st : AppState) : AppState :=
  mkState (zoom st) (panX st) (panY st) (shiftDown st) (ctrlDown st) (interactionMode st)
    (selectedIds st) (focusedId st) (nodes st) (edges st) (drawings st) (textDrawings st)
    (clipboard st) (drawRedo st) (nodeUndo st) (nodeRedo st) (selecting st) (selectStart st)
    (panning st) (panStart st) (isDirty st) (saveTimer st) (listeners st) (store st) v
    (alerts st) (warnings st).
Definition set_alerts (v : list string) (st : AppState) : AppState :=
  mkState (zoom st) (panX st) (panY st) (shiftDown st) (ctrlDown st) (interactionMode st)
    (selectedIds st) (focusedId st) (nodes st) (edges st) (drawings st) (textDrawings st)
    (clipboard st) (drawRedo st) (nodeUndo st) (nodeRedo st) (selecting st) (selectStart st)
    (panning st) (panStart st) (isDirty st) (saveTimer st) (listeners st) (store st)
    (uuidCalls st) v (warnings st).
Definition set_warnings (v : list string) (st : AppState) : AppState :=
  mkState (zoom st) (panX st) (panY st) (shiftDown st) (ctrlDown st) (interactionMode st)
    (selectedIds st) (focusedId st) (nodes st) (edges st) (drawings st) (textDrawings st)
    (clipboard st) (drawRedo st) (nodeUndo st) (nodeRedo st) (selecting st) (selectStart st)
    (panning st) (panStart st) (isDirty st) (saveTimer st) (listeners st) (store st)
    (uuidCalls st) (alerts st) v.

(** The state of a freshly loaded page. *)
Definition initialState : AppState :=
  mkState 1 0 0 false false ModeNormal [] None [] [] [] [] None [] [] []
          false None false (0%Qc, 0%Qc) false false [] (mkStore ∅ ∅) 0 [] [].

(** [scheduleSave]: marks the state dirty and (re)starts the timer. *)
Definition scheduleSave (st : AppState) : AppState :=
  set_saveTimer true (set_isDirty true st).

(** The timer callback: writes the payload to the storage slot. *)
Definition saveTimerFires (st : AppState) : AppState :=
  set_saveTimer false (set_isDirty false st).

(** Truthiness of [focusedId], which is [null] or a string. *)
Definition truthy_id (f : option string) : bool :=
  match f with Some s => truthy_str s | None => false end.

(** [state.nodes.find(n => n.id === id)] *)
Definition findNode (σ : Store) (ns : list loc) (i : string) : option loc :=
  list_find (λ l, idOf σ l = i) ns ≫= (λ p, Some p.2).

(** The value that [JSON.parse] returns, as the handlers read it: the four
    collections ([None] when missing or falsy) and [meta], whose fields are
    [Some] when they are numbers. *)
Record Meta := mkMeta {
  meta_zoom : option Qc; meta_panX : option Qc; meta_panY : option Qc }.

Record Doc := mkDoc {
  doc_nodes : option (list NodeVal);
  doc_edges : option (list Edge);
  doc_drawings : option (list Stroke);
  doc_textDrawings : option (list TextDrawing);
  doc_meta : option Meta }.

Inductive Parsed :=
  | PNull
  | PValue (d : Doc).

(** What the browser supplies: the values of successive calls of
    [crypto.randomUUID] and the outcome of [JSON.parse] ([None] when it
    throws). *)
Record Env := mkEnv {
  randomUUID : nat → string;
  JSON_parse : string → option Parsed }.

(** ** The keyboard handler *)

Definition lower_ascii (c : ascii) : ascii :=
  let n := nat_of_ascii c in
  if bool_decide (65 ≤ n)%nat && bool_decide (n ≤ 90)%nat then ascii_of_nat (n + 32) else c.

(** [String.prototype.toLowerCase] on the ASCII letters. *)
Fixpoint toLowerCase (s : string) : string :=
  match s with
  | EmptyString => EmptyString
  | String c r => String (lower_ascii c) (toLowerCase r)
  end.

Definition inMode (m : Mode) (st : AppState) : bool := bool_decide (interactionMode st = m).

(** A block of the handler either returns or falls through to the next one. *)
Inductive Flow :=
  | Return (st : AppState)
  | Next (st : AppState).

(** The ids the Delete key acts on: the selection if it is not empty,
    else the focused node, else nothing. *)
Definition idsToDelete (st : AppState) : option (list string) :=
  if bool_decide (0 < length (selectedIds st))%nat then Some (selectedIds st)
  else match focusedId st with
       | Some f => if truthy_str f then Some [f] else None
       | None => None
       end.

Definition keyDelete (answer : bool) (st : AppState) : Flow :=
  match idsToDelete st with
  | None => Return st
  | Some ids =>
      if answer then
        let deletedNodes := filter (λ l, idOf (store st) l ∈ ids) (nodes st) in
        let st := set_nodeUndo (deletedNodes :: nodeUndo st) st in
        let st := set_nodeRedo [] st in
        let st := set_nodes (filter (λ l, idOf (store st) l ∉ ids) (nodes st)) st in
        let st := set_selectedIds [] st in
        let st := set_focusedId None st in
        Next (scheduleSave st)
      else Return st
  end.

Definition keyNodeUndo (st : AppState) : AppState :=
  match nodeUndo st with
  | [] => st
  | last :: rest =>
      let st := set_nodeUndo rest st in
      let st := set_nodes (nodes st ++ last) st in
      let st := set_nodeRedo (last :: nodeRedo st) st in
      scheduleSave st
  end.

Definition keyNodeRedo (st : AppState) : AppState :=
  match nodeRedo st with
  | [] => st
  | last :: rest =>
      let st := set_nodeRedo rest st in
      let ids := map (idOf (store st)) last in
      let st := set_nodes (filter (λ l, idOf (store st) l ∉ ids) (nodes st)) st in
      let st := set_nodeUndo (last :: nodeUndo st) st in
      scheduleSave st
  end.

Definition keyEscape (st : AppState) : AppState :=
  let st := set_focusedId None st in
  set_selectedIds [] st.

Definition keyDrawUndo (st : AppState) : AppState :=
  match last (drawings st) with
  | Some d =>
      let st := set_drawRedo (d :: drawRedo st) (set_drawings (removelast (drawings st)) st) in
      scheduleSave st
  | None => scheduleSave st
  end.

Definition keyDrawRedo (st : AppState) : AppState :=
  match drawRedo st with
  | d :: rest =>
      let st := set_drawings (drawings st ++ [d]) (set_drawRedo rest st) in
      scheduleSave st
  | [] => scheduleSave st
  end.

(** Ctrl+Alt+C: a deep copy of the selected nodes, else of the focused one. *)
Definition keyCopy (st : AppState) : AppState :=
  if bool_decide (1 ≤ length (selectedIds st))%nat then
    let nodesToCopy := filter (λ l, set_has (selectedIds st) (idOf (store st) l) = true) (nodes st) in
    let '(σ, copies) := deepCopyList (store st) nodesToCopy in
    set_clipboard (Some (ClipMulti copies)) (set_store σ st)
  else if truthy_id (focusedId st) then
    match findNode (store st) (nodes st) (default "" (focusedId st)) with
    | Some n =>
        let '(σ, copy) := deepCopy (store st) n in
        set_clipboard (Some (ClipSingle copy)) (set_store σ st)
    | None => st
    end
  else st.

(** One pasted node: a deep copy of the clipboard entry with a new id and
    its position moved by 40 on both axes. *)
Definition cloneNode (E : Env) (st : AppState) (src : loc) : AppState * loc :=
  let '(σ, c) := deepCopy (store st) src in
  let clone := getNode σ c in
  let clone := mkNode (randomUUID E (uuidCalls st)) (n_type clone)
                      (n_x clone + num 40 1) (n_y clone + num 40 1)
                      (n_w clone) (n_h clone) (n_data clone) in
  (set_uuidCalls (S (uuidCalls st)) (set_store (putNode c clone σ) st), c).

(** [clipboard.nodes.map(n => ...)], the clones in the order of the sources. *)
Fixpoint cloneNodes (E : Env) (st : AppState) (srcs : list loc) : AppState * list loc :=
  match srcs with
  | [] => (st, [])
  | src :: rest =>
      let '(st1, c) := cloneNode E st src in
      let '(st2, cs) := cloneNodes E st1 rest in
      (st2, c :: cs)
  end.

(** What a pasted node holds, given what its source holds. *)
Definition pastedVal (id : string) (v : NodeVal) : NodeVal :=
  mkNodeVal id (v_type v) (v_x v + num 40 1) (v_y v + num 40 1) (v_w v) (v_h v) (v_data v).

(** Ctrl+Alt+V with a clipboard. *)
Definition keyPaste (E : Env) (clip : Clipboard) (st : AppState) : AppState :=
  let st := set_selectedIds [] st in
  let st :=
    match clip with
    | ClipSingle src =>
        let '(st, clone) := cloneNode E st src in
        let st := set_nodes (nodes st ++ [clone]) st in
        let st := set_focusedId (Some (idOf (store st) clone)) st in
        set_selectedIds (set_add (selectedIds st) (idOf (store st) clone)) st
    | ClipMulti srcs =>
        let '(st, clones) := cloneNodes E st srcs in
        let st := set_nodes (nodes st ++ clones) st in
        match clones with
        | c0 :: _ =>
            let st := set_focusedId (Some (idOf (store st) c0)) st in
            set_selectedIds (foldl set_add (selectedIds st) (map (idOf (store st)) clones)) st
        | [] => st
        end
    end in
  scheduleSave st.

(** The copy and paste block, entered in normal mode only. *)
Definition keyCopyPaste (E : Env) (k : string) (altKey : bool) (st : AppState) : AppState :=
  let st := if ctrlDown st && altKey && bool_decide (k = "c") then keyCopy st else st in
  if ctrlDown st && altKey && bool_decide (k = "v") then
    match clipboard st with
    | Some clip => keyPaste E clip st
    | None => st
    end
  else st.

(** The [keydown] listener of [window]; [answer] is what the user answers
    if the handler asks for a confirmation. *)
Definition keydown (E : Env) (key : string) (altKey answer : bool) (st : AppState) : AppState :=
  let st := if bool_decide (key = "Shift") then set_shiftDown true st else st in
  let st := if bool_decide (key = "Control") then set_ctrlDown true st else st in
  match (if bool_decide (key = "Delete") then keyDelete answer st else Next st) with
  | Return st => st
  | Next st =>
      let k := toLowerCase key in
      if inMode ModeNormal st && ctrlDown st && bool_decide (k = "z") then keyNodeUndo st
      else if inMode ModeNormal st && ctrlDown st && bool_decide (k = "y") then keyNodeRedo st
      else if bool_decide (key = "Escape") then keyEscape st
      else if inMode ModeDraw st && ctrlDown st && bool_decide (k = "z") then keyDrawUndo st
      else if inMode ModeDraw st && ctrlDown st && bool_decide (k = "y") then keyDrawRedo st
      else if inMode ModeNormal st then keyCopyPaste E k altKey st
      else st
  end.

Definition keyup (key : string) (st : AppState) : AppState :=
  let st := if bool_decide (key = "Shift") then set_shiftDown false st else st in
  if bool_decide (key = "Control") then set_ctrlDown false st else st.

(** ** Zoom and pan *)

(** A pointer event and the bounding rectangle of the viewport element. *)
Record Mouse := mkMouse { clientX : Qc; clientY : Qc }.
Record ViewRect := mkViewRect { vr_left : Qc; vr_top : Qc; vr_width : Qc; vr_height : Qc }.

(** [screenToWorld], in exact arithmetic; the quotient is the source's
    only where [zoom] is not zero. *)
Definition screenToWorld (st : AppState) (r : ViewRect) (e : Mouse) : Qc * Qc :=
  ((clientX e - vr_left r - panX st) / zoom st,
   (clientY e - vr_top r - panY st) / zoom st).

(** The [wheel] listener of the viewport. *)
Definition wheel (shiftKey : bool) (deltaY : Qc) (rect : ViewRect) (e : Mouse)
    (st : AppState) : AppState :=
  if negb shiftKey then st else
  let delta := if Qc_gtb deltaY 0 then - num 1 10 else num 1 10 in
  let newZoom := Math_min (num 2 1) (Math_max (num 1 10) (zoom st + delta)) in
  let mx := clientX e - vr_left rect in
  let my := clientY e - vr_top rect in
  let wx := (mx - panX st) / zoom st in
  let wy := (my - panY st) / zoom st in
  let st := set_zoom newZoom st in
  let st := set_panX (mx - wx * zoom st) st in
  let st := set_panY (my - wy * zoom st) st in
  scheduleSave st.

(** The [mousedown] listener of the viewport: Shift starts a pan, Control
    starts a selection box. *)
Definition viewportMouseDown (button : nat) (e : Mouse) (st : AppState) : AppState :=
  if negb (bool_decide (button = 0%nat)) then st
  else if negb (inMode ModeNormal st) then st
  else if shiftDown st then
    let st := set_panning true st in
    set_panStart (clientX e - panX st, clientY e - panY st) st
  else if ctrlDown st then
    let st := set_selecting true st in
    let st := set_selectStart (Some (clientX e, clientY e)) st in
    set_listeners (listeners st ++ [LSelect]) st
  else st.

(** The [up] listener of a selection box; [dom] is what
    [querySelectorAll(".node")] and [getBoundingClientRect] return. *)
Definition selectUp (e : Mouse) (dom : list DomNode) (st : AppState) : AppState :=
  if negb (selecting st) then st else
  let st := set_selecting false st in
  match selectStart st with
  | None => st
  | Some (x1, y1) =>
      let sel := selRect x1 y1 (clientX e) (clientY e) in
      let st := set_selectedIds (boxSelection sel dom) st in
      set_focusedId None st
  end.

(** ** Moving and resizing nodes *)

Definition setPos (n : NodeObj) (x y : Qc) : NodeObj :=
  mkNode (n_id n) (n_type n) x y (n_w n) (n_h n) (n_data n).
Definition setW (n : NodeObj) (w : Qc) : NodeObj :=
  mkNode (n_id n) (n_type n) (n_x n) (n_y n) w (n_h n) (n_data n).
Definition setH (n : NodeObj) (h : Qc) : NodeObj :=
  mkNode (n_id n) (n_type n) (n_x n) (n_y n) (n_w n) h (n_data n).

(** [selectedIds.forEach] of the [move] listener of a node drag.  An id
    without a node is skipped; an id with a node but without a start
    position makes [s.x] throw, which ends the listener. *)
Fixpoint dragMoveIds (starts : gmap string (Qc * Qc)) (dx dy : Qc) (ns : list loc)
    (ids : list string) (σ : Store) : Store :=
  match ids with
  | [] => σ
  | i :: rest =>
      match findNode σ ns i with
      | None => dragMoveIds starts dx dy ns rest σ
      | Some n =>
          match starts !! i with
          | None => σ
          | Some s =>
              dragMoveIds starts dx dy ns rest
                (putNode n (setPos (getNode σ n) (s.1 + dx) (s.2 + dy)) σ)
          end
      end
  end.

Definition dragMove (c : DragCtx) (e : Mouse) (st : AppState) : AppState :=
  let dx := (clientX e - d_sx c) / zoom st in
  let dy := (clientY e - d_sy c) / zoom st in
  set_store (dragMoveIds (d_starts c) dx dy (nodes st) (selectedIds st) (store st)) st.

Definition cornerHas (pos : Corner) (side : string) : bool :=
  match pos with
  | TL => bool_decide (side = "t") || bool_decide (side = "l")
  | TR => bool_decide (side = "t") || bool_decide (side = "r")
  | BL => bool_decide (side = "b") || bool_decide (side = "l")
  | BR => bool_decide (side = "b") || bool_decide (side = "r")
  end.

(** The [move] listener of a resize.  At zoom 0 the source computes
    [dx] and [dy] as an infinity or [NaN] and [Math.max(160, NaN)] is
    [NaN]; the quotients below are the source's only where [zoom] is not
    zero. *)
Definition resizeMove (c : ResizeCtx) (e : Mouse) (st : AppState) : AppState :=
  let dx := (clientX e - rz_sx c) / zoom st in
  let dy := (clientY e - rz_sy c) / zoom st in
  let node := getNode (store st) (rz_node c) in
  let node := if cornerHas (rz_pos c) "r"
              then setW node (Math_max (num 160 1) (rz_sw c + dx)) else node in
  let node := if cornerHas (rz_pos c) "b"
              then setH node (Math_max (num 120 1) (rz_sh c + dy)) else node in
  let node := if cornerHas (rz_pos c) "l"
              then setPos (setW node (Math_max (num 160 1) (rz_sw c - dx)))
                          (rz_ox c + dx) (n_y node)
              else node in
  let node := if cornerHas (rz_pos c) "t"
              then setPos (setH node (Math_max (num 120 1) (rz_sh c - dy)))
                          (n_x node) (rz_oy c + dy)
              else node in
  set_store (putNode (rz_node c) node (store st)) st.

(** The [mousemove] listeners of [window]: the pan listener, then the
    listeners of the gestures in progress, in the order they were added. *)
Definition listenerMove (e : Mouse) (st : AppState) (l : Listener) : AppState :=
  match l with
  | LSelect => st
  | LDrag c => dragMove c e st
  | LResize c => resizeMove c e st
  end.

Definition windowMouseMove (e : Mouse) (st : AppState) : AppState :=
  let st :=
    if panning st then
      let st := set_panX (clientX e - (panStart st).1) st in
      let st := set_panY (clientY e - (panStart st).2) st in
      scheduleSave st
    else st in
  foldl (listenerMove e) st (listeners st).

(** The [mouseup] listeners of [window]; every gesture listener removes
    itself. *)
Definition listenerUp (e : Mouse) (dom : list DomNode) (st : AppState) (l : Listener)
  : AppState :=
  match l with
  | LSelect => selectUp e dom st
  | LDrag _ => scheduleSave st
  | LResize _ => scheduleSave st
  end.

Definition windowMouseUp (e : Mouse) (dom : list DomNode) (st : AppState) : AppState :=
  let st := scheduleSave (set_panning false st) in
  let ls := listeners st in
  foldl (listenerUp e dom) (set_listeners [] st) ls.

(** The [dblclick] listener of the element of node [l]. *)
Definition nodeDblClick (l : loc) (onInput : bool) (st : AppState) : AppState :=
  let node_id := idOf (store st) l in
  if shiftDown st then st
  else if onInput then st
  else if truthy_id (focusedId st) && negb (bool_decide (focusedId st = Some node_id)) then st
  else
    let st := set_focusedId (Some node_id) st in
    let st := set_selectedIds [] st in
    set_selectedIds (set_add (selectedIds st) node_id) st.

(** The start positions a drag records for the selected ids that have a node. *)
Definition dragStarts (st : AppState) : gmap string (Qc * Qc) :=
  foldl (λ starts i,
           match findNode (store st) (nodes st) i with
           | Some n => <[i := (n_x (getNode (store st) n), n_y (getNode (store st) n))]> starts
           | None => starts
           end) ∅ (selectedIds st).

(** The [mousedown] listener of the element of node [l]. *)
Definition nodeMouseDown (l : loc) (button : nat) (onInput : bool) (e : Mouse)
    (st : AppState) : AppState :=
  let node_id := idOf (store st) l in
  let st := if bool_decide (1 < length (selectedIds st))%nat && set_has (selectedIds st) node_id
            then set_focusedId None st else st in
  if negb (inMode ModeNormal st) || negb (bool_decide (button = 0%nat)) then st
  else if shiftDown st then st
  else if onInput then st
  else if truthy_id (focusedId st) && negb (bool_decide (focusedId st = Some node_id))
          && negb (ctrlDown st) then st
  else if ctrlDown st then
    if set_has (selectedIds st) node_id
    then set_selectedIds (set_delete (selectedIds st) node_id) st
    else set_selectedIds (set_add (selectedIds st) node_id) st
  else
    let st :=
      if negb (set_has (selectedIds st) node_id) then
        let st := set_selectedIds [] st in
        let st := set_selectedIds (set_add (selectedIds st) node_id) st in
        if negb (truthy_id (focusedId st)) then set_focusedId (Some node_id) st else st
      else st in
    set_listeners (listeners st ++ [LDrag (mkDrag (clientX e) (clientY e) (dragStarts st))]) st.

(** The [mousedown] listener of a resize handle of node [l]. *)
Definition resizeMouseDown (l : loc) (pos : Corner) (e : Mouse) (st : AppState) : AppState :=
  let node := getNode (store st) l in
  set_listeners
    (listeners st ++ [LResize (mkResize l pos (clientX e) (clientY e)
                                        (n_w node) (n_h node) (n_x node) (n_y node))]) st.

(** The [input] listeners of the fields of node [l]: [node.data[k] = value]. *)
Definition fieldInput (l : loc) (k value : string) (st : AppState) : AppState :=
  let node := getNode (store st) l in
  let d := getData (store st) (n_data node) in
  scheduleSave (set_store (putData (n_data node) (<[k := value]> d) (store st)) st).

(** ** Spawning a node *)

Definition spawnSize (t : PrimType) : Qc * Qc :=
  match t with
  | Thost => (num 420 1, num 680 1)
  | Tzone => (num 700 1, num 450 1)
  | Tdomain_controller => (num 420 1, num 530 1)
  | Twebapp => (num 350 1, num 580 1)
  | Tdatabase => (num 350 1, num 440 1)
  | Tservice => (num 250 1, num 290 1)
  | Tvuln => (num 400 1, num 830 1)
  | Tnote => (num 200 1, num 140 1)
  | Tartifact => (num 420 1, num 530 1)
  | Tcredential => (num 300 1, num 410 1)
  | Thash => (num 300 1, num 470 1)
  | Tsecret => (num 300 1, num 310 1)
  | Tflag => (num 210 1, num 210 1)
  end.

Definition spawnData (t : PrimType) : gmap string string :=
  let data := foldl (λ d k, <[k := ""]> d) ∅ (primitiveFields t) in
  if bool_decide (t = Tzone) then <["color" := "#2196f3"]> (<["title" := "ZONE"]> data)
  else data.

Definition spawn (E : Env) (t : PrimType) (r : ViewRect) (st : AppState) : AppState :=
  let cx := (vr_width r / num 2 1 - panX st) / zoom st in
  let cy := (vr_height r / num 2 1 - panY st) / zoom st in
  let id := randomUUID E (uuidCalls st) in
  let st := set_uuidCalls (S (uuidCalls st)) st in
  let '(w, h) := spawnSize t in
  let '(σ, dl) := allocData (spawnData t) (store st) in
  let '(σ, nl) := allocNode (mkNode id t (cx - w / num 2 1) (cy - h / num 2 1) w h dl) σ in
  let st := set_nodes (nodes st ++ [nl]) (set_store σ st) in
  let st := set_focusedId (Some id) st in
  let st := set_selectedIds [] st in
  let st := set_selectedIds (set_add (selectedIds st) id) st in
  scheduleSave st.

(** ** The mode toggles *)

Definition drawToggle (st : AppState) : AppState :=
  set_interactionMode (if inMode ModeDraw st then ModeNormal else ModeDraw) st.
Definition textToggle (st : AppState) : AppState :=
  set_interactionMode (if inMode ModeText st then ModeNormal else ModeText) st.

(** ** Load, import and clear

    [JSON.parse] throws on malformed text ([None]); it may return [null],
    on which the first property access throws ([PNull]); of any other
    value the handlers read the four collections and [meta].  A collection
    that is missing or falsy is [None]: [parsed.nodes || []]. *)

Definition assignDoc (d : Doc) (st : AppState) : AppState :=
  let '(σ, ns) := allocNodeVals (store st) (default [] (doc_nodes d)) in
  let st := set_nodes ns (set_store σ st) in
  let st := set_edges (default [] (doc_edges d)) st in
  let st := set_drawings (default [] (doc_drawings d)) st in
  set_textDrawings (default [] (doc_textDrawings d)) st.

Definition assignMeta (m : Meta) (st : AppState) : AppState :=
  let st := match meta_zoom m with Some z => set_zoom z st | None => st end in
  let st := match meta_panX m with Some p => set_panX p st | None => st end in
  match meta_panY m with Some p => set_panY p st | None => st end.

Definition warn (msg : string) (st : AppState) : AppState :=
  set_warnings (warnings st ++ [msg]) st.
Definition alert (msg : string) (st : AppState) : AppState :=
  set_alerts (alerts st ++ [msg]) st.

(** [raw] is what [localStorage.getItem(STORAGE_KEY)] returns. *)
Definition loadFromStorage (E : Env) (raw : option string) (st : AppState) : AppState :=
  match raw with
  | None => st
  | Some raw =>
      if negb (truthy_str raw) then st else
      match JSON_parse E raw with
      | None => warn "Failed to load autosave" st
      | Some PNull => warn "Failed to load autosave" st
      | Some (PValue parsed) =>
          let st := assignDoc parsed st in
          match doc_meta parsed with
          | Some m => assignMeta m st
          | None => st
          end
      end
  end.

(** [content] is the text of the chosen file.  The source renders inside
    the [try], after the assignments and before [scheduleSave]: a document
    on which [render] throws raises the alert with the state, the focus
    and the selection already overwritten and no save scheduled.  A [Doc]
    is typed (every node has a type of the catalogue and a data object),
    and on such a document [render] does not throw. *)
Definition importState (E : Env) (content : string) (st : AppState) : AppState :=
  match JSON_parse E content with
  | None => alert "Invalid state file" st
  | Some PNull => alert "Invalid state file" st
  | Some (PValue parsed) =>
      let st := assignDoc parsed st in
      let st := set_focusedId None st in
      let st := set_selectedIds [] st in
      scheduleSave st
  end.

Definition clearAll (answer : bool) (st : AppState) : AppState :=
  if negb answer then st else
  let st := set_nodes [] st in
  let st := set_edges [] st in
  let st := set_drawings [] st in
  let st := set_textDrawings [] st in
  let st := set_selectedIds [] st in
  set_focusedId None st.

(** ** Events

    One constructor per listener.  A press on the element of a node may
    bubble to the viewport; the two listeners are two events, and a run may
    hold one after the other.  The listeners of the drawing layer (stroke
    capture, text placement) are not among these events: they read the
    viewport transform and write [state.drawings] and [state.textDrawings]
    only; they are embedded on their own, on references, in the section on
    the drawing layer. *)

Inductive Event :=
  | KeyDown (key : string) (altKey answer : bool)
  | KeyUp (key : string)
  | Wheel (shiftKey : bool) (deltaY : Qc) (rect : ViewRect) (e : Mouse)
  | ViewportMouseDown (button : nat) (e : Mouse)
  | WindowMouseMove (e : Mouse)
  | WindowMouseUp (e : Mouse) (dom : list DomNode)
  | NodeDblClick (l : loc) (onInput : bool)
  | NodeMouseDown (l : loc) (button : nat) (onInput : bool) (e : Mouse)
  | ResizeMouseDown (l : loc) (pos : Corner) (e : Mouse)
  | FieldInput (l : loc) (k value : string)
  | Spawn (t : PrimType) (rect : ViewRect)
  | DrawToggle
  | TextToggle
  | Import (content : string)
  | ClearAll (answer : bool)
  | Load (raw : option string)
  | SaveTimer.

Definition handle (E : Env) (ev : Event) (st : AppState) : AppState :=
  match ev with
  | KeyDown key altKey answer => keydown E key altKey answer st
  | KeyUp key => keyup key st
  | Wheel shiftKey deltaY rect e => wheel shiftKey deltaY rect e st
  | ViewportMouseDown button e => viewportMouseDown button e st
  | WindowMouseMove e => windowMouseMove e st
  | WindowMouseUp e dom => windowMouseUp e dom st
  | NodeDblClick l onInput => nodeDblClick l onInput st
  | NodeMouseDown l button onInput e => nodeMouseDown l button onInput e st
  | ResizeMouseDown l pos e => resizeMouseDown l pos e st
  | FieldInput l k value => fieldInput l k value st
  | Spawn t rect => spawn E t rect st
  | DrawToggle => drawToggle st
  | TextToggle => textToggle st
  | Import content => importState E content st
  | ClearAll answer => clearAll answer st
  | Load raw => loadFromStorage E raw st
  | SaveTimer => saveTimerFires st
  end.

(** A run of events, first event first. *)
Definition run (E : Env) (evs : list Event) (st : AppState) : AppState :=
  foldl (λ s ev, handle E ev s) st evs.

(** The element of a node exists for the nodes of [state.nodes]; resize
    handles exist on the focused node only. *)
Definition enabled (ev : Event) (st : AppState) : Prop :=
  match ev with
  | NodeDblClick l _ | NodeMouseDown l _ _ _ | FieldInput l _ _ => l ∈ nodes st
  | ResizeMouseDown l _ _ =>
      l ∈ nodes st ∧ focusedId st = Some (idOf (store st) l)
  | _ => True
  end.

(** The sub-selection example of the specification: a box inside the zone. *)
Definition exSin : Rect := mkRect (num 10 1) (num 10 1) (num 50 1) (num 50 1).
Definition exNin : DomNode :=
  mkDomNode "N" (mkRect (num 20 1) (num 20 1) (num 30 1) (num 30 1)) false.

Global Instance Rect_eq_dec : EqDecision Rect.
Proof. solve_decision. Defined.
Global Instance DomNode_eq_dec : EqDecision DomNode.
Proof. solve_decision. Defined.

(** ** Example inputs *)

(** The double quote character, to write JSON texts. *)
Definition dq : string := String (ascii_of_nat 34) EmptyString.

(** The blob [{"meta":{"zoom":5}}]. *)
Definition exBlobZoom5 : string :=
  "{" +:+ dq +:+ "meta" +:+ dq +:+ ":{" +:+ dq +:+ "zoom" +:+ dq +:+ ":5}}".

(** A text that is not JSON. *)
Definition exMalformed : string := "{nodes:".

Definition emptyDoc : Doc := mkDoc None None None None None.

(** [JSON.parse] on the texts of the examples. *)
Definition exParse (s : string) : option Parsed :=
  if bool_decide (s = exBlobZoom5) then
    Some (PValue (mkDoc None None None None (Some (mkMeta (Some (num 5 1)) None None))))
  else if bool_decide (s = "null") then Some PNull
  else if bool_decide (s = "{}") then Some (PValue emptyDoc)
  else None.

(** Successive values of [crypto.randomUUID] in the examples. *)
Definition exUUID (n : nat) : string := "uuid-" +:+ pretty n.

Definition exEnv : Env := mkEnv exUUID exParse.

Definition exRect : ViewRect := mkViewRect (num 10 1) (num 20 1) (num 800 1) (num 600 1).
Definition exMouse : Mouse := mkMouse (num 410 1) (num 320 1).

(** A viewport zoomed to 0.7 and panned by (30, -15). *)
Definition exZoomed : AppState :=
  set_panY (num (-15) 1) (set_panX (num 30 1) (set_zoom (num 7 10) initialState)).

(** ** Well-formed references

    A reference is allocated when the store holds its node object and the
    [data] object of that node; a store extends another when it holds all
    its objects unchanged. *)

Definition allocated (σ : Store) (l : loc) : Prop :=
  ∃ n, nodeHeap σ !! l = Some n ∧ is_Some (dataHeap σ !! n_data n).

Definition extends (σ σ' : Store) : Prop :=
  nodeHeap σ ⊆ nodeHeap σ' ∧ dataHeap σ ⊆ dataHeap σ'.

(** The node objects a clipboard holds. *)
Definition clipLocs (c : Clipboard) : list loc :=
  match c with
  | ClipSingle node => [node]
  | ClipMulti nodes => nodes
  end.

Definition allocatedb (σ : Store) (l : loc) : bool :=
  match nodeHeap σ !! l with
  | Some n => bool_decide (is_Some (dataHeap σ !! n_data n))
  | None => false
  end.

(** A host spawned on the fresh page, then Control held and Ctrl+Alt+C. *)
Definition exSpawned : AppState := run exEnv [Spawn Thost exRect] initialState.
Definition exCopied : AppState :=
  run exEnv [KeyDown "Control" false false; KeyDown "c" true false] exSpawned.

(** The screen rectangles of a host, a note and a flag spawned at the
    centre of the viewport [exRect] with zoom 1 and no pan. *)
Definition exDomHost : DomNode :=
  mkDomNode "uuid-0" (mkRect (num 200 1) (num (-20) 1) (num 620 1) (num 660 1)) false.

(** A selection box dragged from (50, 100) to (700, 500) with Control held. *)
Definition exBoxPress : Event := ViewportMouseDown 0 (mkMouse (num 50 1) (num 100 1)).
Definition exBoxRelease (dom : list DomNode) : Event :=
  WindowMouseUp (mkMouse (num 700 1) (num 500 1)) dom.


(** Two nodes spawned on the fresh page: the second has the focus and is
    the selection. *)
Definition exTwo : AppState := run exEnv [Spawn Thost exRect; Spawn Tnote exRect] initialState.

(** The operations that can take the focus away from a node: Escape, a
    confirmed Delete, a paste with a clipboard, the release that completes
    a selection box, a press on a node of a multi-node selection, a spawn,
    an import and a confirmed clear-all. *)
Definition unfocusing (ev : Event) (st : AppState) : Prop :=
  match ev with
  | KeyDown key altKey answer =>
      key = "Escape" ∨ (key = "Delete" ∧ answer = true)
      ∨ (toLowerCase key = "v" ∧ altKey = true ∧ is_Some (clipboard st))
  | WindowMouseUp _ _ => LSelect ∈ listeners st ∧ selecting st = true
  | NodeMouseDown l _ _ _ =>
      (1 < length (selectedIds st))%nat ∧ idOf (store st) l ∈ selectedIds st
  | Spawn _ _ => True
  | Import _ => True
  | ClearAll answer => answer = true
  | _ => False
  end.

(** A spawned host has the focus; Control is held and the mouse is pressed
    on the empty viewport: a selection box is open. *)
Definition exBoxOpen : AppState :=
  run exEnv [KeyDown "Control" false false; exBoxPress] exSpawned.

(** A host is spawned, deleted and brought back by undo; with Control
    released it is clicked, which selects and focuses it; then the deletion
    is redone. *)
Definition exRedoTrace : list Event :=
  [Spawn Thost exRect;
   KeyDown "Delete" false true;
   KeyDown "Control" false false;
   KeyDown "z" false false;
   KeyUp "Control";
   NodeMouseDown 1%positive 0 false exMouse;
   ViewportMouseDown 0 exMouse;
   WindowMouseUp exMouse [exDomHost];
   KeyDown "Control" false false;
   KeyDown "y" false false].
(** What the [mousemove] listeners leave alone, seen from a node [b]. *)
Definition moveFrame (b : loc) (st st' : AppState) : Prop :=
  selectedIds st' = selectedIds st ∧ listeners st' = listeners st
  ∧ getNode (store st') b = getNode (store st) b.

(** ** Well-formed and reachable states

    A state is well formed when every node reference it keeps (in the node
    list, in the ledgers, in the clipboard, in a resize in progress) is
    allocated. *)

Definition clipRefs (c : option Clipboard) : list loc :=
  match c with Some clip => clipLocs clip | None => [] end.

Definition resizeRefs (ls : list Listener) : list loc :=
  omap (λ l, match l with LResize c => Some (rz_node c) | _ => None end) ls.

Definition wfRefs (σ : Store) (ns : list loc) (undo redo : list (list loc))
    (clip : option Clipboard) (ls : list Listener) : Prop :=
  Forall (allocated σ) ns
  ∧ Forall (Forall (allocated σ)) undo
  ∧ Forall (Forall (allocated σ)) redo
  ∧ Forall (allocated σ) (clipRefs clip)
  ∧ Forall (allocated σ) (resizeRefs ls).

Definition wf (st : AppState) : Prop :=
  wfRefs (store st) (nodes st) (nodeUndo st) (nodeRedo st) (clipboard st) (listeners st).

(** A store grows into another when what was allocated stays allocated. *)
Definition grows (σ σ' : Store) : Prop := ∀ l, allocated σ l → allocated σ' l.

Inductive reachable (E : Env) : AppState → Prop :=
  | reach_init : reachable E initialState
  | reach_step (st : AppState) (ev : Event) :
      reachable E st → enabled ev st → reachable E (handle E ev st).


(** The focus, if set, names a node of the node list. *)
Definition focusValid (st : AppState) : Prop :=
  ∀ a, focusedId st = Some a → ∃ l, l ∈ nodes st ∧ idOf (store st) l = a.

(** The redo key of the node ledger, and the load of the stored blob. *)
Definition redoOrLoad (ev : Event) : Prop :=
  match ev with
  | KeyDown key _ _ => toLowerCase key = "y"
  | Load _ => True
  | _ => False
  end.


(** The paste example of the specification: a host whose position is
    (100, 100) is copied and pasted. *)
Definition exAt100 : AppState :=
  run exEnv [Spawn Thost (mkViewRect 0 0 (num 620 1) (num 880 1));
             KeyDown "Control" false false; KeyDown "c" true false] initialState.


(** * Further definitions: the code around the claims *)


(** A rectangle as [getBoundingClientRect] returns it: its left edge is not
    right of its right edge, its top edge not below its bottom edge. *)
Definition rectOrdered (r : Rect) : Prop :=
  r_left r ≤ r_right r ∧ r_top r ≤ r_bottom r.

(** [Math.abs] *)
Definition Math_abs (a : Qc) : Qc := if Qc_ltb a 0 then - a else a.

(** The [move] listener of a selection box: the [left], [top], [width] and
    [height] it writes to the style of the box element, in pixels. *)
Record BoxStyle := mkBoxStyle { bs_left : Qc; bs_top : Qc; bs_width : Qc; bs_height : Qc }.

Definition selectMove (e : Mouse) (st : AppState) : option BoxStyle :=
  if negb (selecting st) then None else
  match selectStart st with
  | None => None
  | Some (x1, y1) =>
      let x2 := clientX e in
      let y2 := clientY e in
      Some (mkBoxStyle (Math_min x1 x2) (Math_min y1 y2)
                       (Math_abs (x2 - x1)) (Math_abs (y2 - y1)))
  end.


(** Two stores hold the same nodes up to their positions. *)
Definition samePlaces_upto (σ σ' : Store) : Prop :=
  ∀ l x y, setPos (getNode σ' l) x y = setPos (getNode σ l) x y.

(** The least width and height that a resize leaves ([Math.max(160, ...)],
    [Math.max(120, ...)]). *)
Definition minSize (n : NodeObj) : Prop := num 160 1 ≤ n_w n ∧ num 120 1 ≤ n_h n.

(** Every node object of the store has at least that size. *)
Definition sizeOK (σ : Store) : Prop := map_Forall (λ _ n, minSize n) (nodeHeap σ).

(** An import and a load bring node objects of any size. *)
Definition importOrLoad (ev : Event) : Prop :=
  match ev with
  | Import _ | Load _ => True
  | _ => False
  end.

(** The [beforeunload] listener: whether it asks to confirm leaving. *)
Definition beforeUnload (st : AppState) : bool := isDirty st.

(** ** Saving and exporting

    What the node list holds, read through the store: the values that
    [JSON.stringify] writes for [state.nodes]. *)
Definition nodeVals (st : AppState) : list NodeVal := map (viewNode (store st)) (nodes st).

(** The payload that the callback of the save timer writes to the storage
    slot, as [JSON.parse] reads it back: the four collections and
    [meta: { zoom, panX, panY }]. *)
Definition savePayload (st : AppState) : Doc :=
  mkDoc (Some (nodeVals st)) (Some (edges st)) (Some (drawings st))
        (Some (textDrawings st))
        (Some (mkMeta (Some (zoom st)) (Some (panX st)) (Some (panY st)))).

(** [exportState] writes the [state] object: the four collections, no [meta]. *)
Definition exportDoc (st : AppState) : Doc :=
  mkDoc (Some (nodeVals st)) (Some (edges st)) (Some (drawings st))
        (Some (textDrawings st)) None.

(** ** Rendering the nodes

    [render] creates the elements of the zones first, then those of the
    other nodes, each group in the order of [state.nodes]. *)
Definition renderOrder (st : AppState) : list loc :=
  filter (λ l, n_type (getNode (store st) l) = Tzone) (nodes st)
  ++ filter (λ l, n_type (getNode (store st) l) ≠ Tzone) (nodes st).

(** What [render] writes on the element of a node: [dataset.id], the class
    [zone], the style rectangle, the classes [selected] and [focused], and
    whether the element gets the four resize handles. *)
Record NodeEl := mkEl {
  el_id : string; el_zone : bool;
  el_left : Qc; el_top : Qc; el_width : Qc; el_height : Qc;
  el_selected : bool; el_focused : bool; el_handles : bool }.

Definition renderNode (st : AppState) (l : loc) : NodeEl :=
  let node := getNode (store st) l in
  mkEl (n_id node) (bool_decide (n_type node = Tzone))
       (n_x node) (n_y node) (n_w node) (n_h node)
       (set_has (selectedIds st) (n_id node))
       (bool_decide (focusedId st = Some (n_id node)))
       (bool_decide (focusedId st = Some (n_id node))).

Definition render (st : AppState) : list NodeEl := map (renderNode st) (renderOrder st).

(** The payload of the spawned host is what the parser returns for the
    text [saved]. *)
Definition exSavedEnv : Env :=
  mkEnv exUUID (λ s, if bool_decide (s = "saved") then Some (PValue (savePayload exSpawned))
                     else None).


(** ** The toolbar

    The dropdowns of the toolbar groups, numbered in document order: the
    inline [display] of each dropdown element and the variable
    [openDropdown]. *)
Record Menus := mkMenus { dd_display : gmap nat string; openDropdown : option nat }.

Definition displayOf (m : Menus) (dd : nat) : string := default "" (dd_display m !! dd).
Definition setDisplay (dd : nat) (v : string) (m : Menus) : Menus :=
  mkMenus (<[dd := v]> (dd_display m)) (openDropdown m).

(** The [click] listener of the button of group [dd]. *)
Definition groupClick (dd : nat) (m : Menus) : Menus :=
  let m := match openDropdown m with
           | Some o => if bool_decide (o ≠ dd) then setDisplay o "none" m else m
           | None => m
           end in
  let isOpen := bool_decide (displayOf m dd = "flex") in
  let m := setDisplay dd (if isOpen then "none" else "flex") m in
  mkMenus (dd_display m) (if bool_decide (displayOf m dd = "flex") then Some dd else None).

(** The [click] listener of the document. *)
Definition documentClick (mode : Mode) (m : Menus) : Menus :=
  if bool_decide (mode = ModeDraw) then m
  else match openDropdown m with
       | Some o => mkMenus (dd_display (setDisplay o "none" m)) None
       | None => m
       end.

(** A dropdown is shown only if it is the one [openDropdown] names. *)
Definition oneOpen (m : Menus) : Prop :=
  ∀ dd, displayOf m dd = "flex" → openDropdown m = Some dd.

(** The two mode buttons (both present): whether each carries the class
    [active], and whether the drawing layer takes pointer events
    ([auto]) or not ([none]). *)
Record Toolbar := mkToolbar { drawBtnActive : bool; textBtnActive : bool; pointerAuto : bool }.

Definition layerTakesPointer (st : AppState) : bool :=
  inMode ModeDraw st || inMode ModeText st.

(** The [click] listeners of the two buttons. *)
Definition drawBtnClick (s : AppState * Toolbar) : AppState * Toolbar :=
  let st := drawToggle s.1 in
  (st, mkToolbar (inMode ModeDraw st) false (layerTakesPointer st)).
Definition textBtnClick (s : AppState * Toolbar) : AppState * Toolbar :=
  let st := textToggle s.1 in
  (st, mkToolbar false (inMode ModeText st) (layerTakesPointer st)).

(** The buttons and the layer show the mode. *)
Definition showsMode (s : AppState * Toolbar) : Prop :=
  drawBtnActive s.2 = inMode ModeDraw s.1
  ∧ textBtnActive s.2 = inMode ModeText s.1
  ∧ pointerAuto s.2 = negb (inMode ModeNormal s.1).

(** ** The drawing layer

    The listeners of the drawing layer mutate the stroke that is being
    drawn and the text note that is being placed in place, while the
    arrays of the state hold them: here strokes and text notes live in
    heaps and [state.drawings], [drawRedo], [drawUndo] and
    [state.textDrawings] hold references.  The variables shared with the
    other handlers (mode, zoom, pan, the modifier flags, the save timer)
    are those of [ink_app]; its stroke and text fields are not read here.
    A pending text placement is the pair of listeners that the press
    registered on [window], named by its text note. *)
Global Instance Stroke_inhabited : Inhabited Stroke := populate (mkStroke "" "" 0 []).
Global Instance TextDrawing_inhabited : Inhabited TextDrawing :=
  populate (mkText "" 0 0 "" 0 "").

Record Ink := mkInk {
  ink_app : AppState;
  strokeHeap : gmap loc Stroke;
  strokes : list loc;
  strokeRedo : list loc;
  drawUndo : list loc;
  activeDraw : option loc;
  drawColor : string;
  drawSize : Qc;
  textHeap : gmap loc TextDrawing;
  texts : list loc;
  textColor : string;
  textSize : Qc;
  placing : list loc }.
Definition set_ink_app (v : AppState) (k : Ink) : Ink :=
  mkInk v (strokeHeap k) (strokes k) (strokeRedo k) (drawUndo k) (activeDraw k) (drawColor k) (drawSize k) (textHeap k) (texts k) (textColor k) (textSize k) (placing k).
Definition set_strokeHeap (v : gmap loc Stroke) (k : Ink) : Ink :=
  mkInk (ink_app k) v (strokes k) (strokeRedo k) (drawUndo k) (activeDraw k) (drawColor k) (drawSize k) (textHeap k) (texts k) (textColor k) (textSize k) (placing k).
Definition set_strokes (v : list loc) (k : Ink) : Ink :=
  mkInk (ink_app k) (strokeHeap k) v (strokeRedo k) (drawUndo k) (activeDraw k) (drawColor k) (drawSize k) (textHeap k) (texts k) (textColor k) (textSize k) (placing k).
Definition set_strokeRedo (v : list loc) (k : Ink) : Ink :=
  mkInk (ink_app k) (strokeHeap k) (strokes k) v (drawUndo k) (activeDraw k) (drawColor k) (drawSize k) (textHeap k) (texts k) (textColor k) (textSize k) (placing k).
Definition set_drawUndo (v : list loc) (k : Ink) : Ink :=
  mkInk (ink_app k) (strokeHeap k) (strokes k) (strokeRedo k) v (activeDraw k) (drawColor k) (drawSize k) (textHeap k) (texts k) (textColor k) (textSize k) (placing k).
Definition set_activeDraw (v : option loc) (k : Ink) : Ink :=
  mkInk (ink_app k) (strokeHeap k) (strokes k) (strokeRedo k) (drawUndo k) v (drawColor k) (drawSize k) (textHeap k) (texts k) (textColor k) (textSize k) (placing k).
Definition set_drawColor (v : string) (k : Ink) : Ink :=
  mkInk (ink_app k) (strokeHeap k) (strokes k) (strokeRedo k) (drawUndo k) (activeDraw k) v (drawSize k) (textHeap k) (texts k) (textColor k) (textSize k) (placing k).
Definition set_drawSize (v : Qc) (k : Ink) : Ink :=
  mkInk (ink_app k) (strokeHeap k) (strokes k) (strokeRedo k) (drawUndo k) (activeDraw k) (drawColor k) v (textHeap k) (texts k) (textColor k) (textSize k) (placing k).
Definition set_textHeap (v : gmap loc TextDrawing) (k : Ink) : Ink :=
  mkInk (ink_app k) (strokeHeap k) (strokes k) (strokeRedo k) (drawUndo k) (activeDraw k) (drawColor k) (drawSize k) v (texts k) (textColor k) (textSize k) (placing k).
Definition set_texts (v : list loc) (k : Ink) : Ink :=
  mkInk (ink_app k) (strokeHeap k) (strokes k) (strokeRedo k) (drawUndo k) (activeDraw k) (drawColor k) (drawSize k) (textHeap k) v (textColor k) (textSize k) (placing k).
Definition set_textColor (v : string) (k : Ink) : Ink :=
  mkInk (ink_app k) (strokeHeap k) (strokes k) (strokeRedo k) (drawUndo k) (activeDraw k) (drawColor k) (drawSize k) (textHeap k) (texts k) v (textSize k) (placing k).
Definition set_textSize (v : Qc) (k : Ink) : Ink :=
  mkInk (ink_app k) (strokeHeap k) (strokes k) (strokeRedo k) (drawUndo k) (activeDraw k) (drawColor k) (drawSize k) (textHeap k) (texts k) (textColor k) v (placing k).
Definition set_placing (v : list loc) (k : Ink) : Ink :=
  mkInk (ink_app k) (strokeHeap k) (strokes k) (strokeRedo k) (drawUndo k) (activeDraw k) (drawColor k) (drawSize k) (textHeap k) (texts k) (textColor k) (textSize k) v.

Definition initialInk : Ink :=
  mkInk initialState ∅ [] [] [] None "#ff3b3b" (num 2 1) ∅ [] "#ffd54f" (num 16 1) [].

Definition getStroke (k : Ink) (l : loc) : Stroke := strokeHeap k !!! l.
Definition getText (k : Ink) (l : loc) : TextDrawing := textHeap k !!! l.

(** A handler of the other layers, run on the shared variables. *)
Definition onApp (f : AppState → AppState) (k : Ink) : Ink := set_ink_app (f (ink_app k)) k.

Definition addPoint (p : Qc * Qc) (s : Stroke) : Stroke :=
  mkStroke (s_id s) (s_color s) (s_size s) (s_points s ++ [p]).
Definition moveText (p : Qc * Qc) (t : TextDrawing) : TextDrawing :=
  mkText (t_id t) p.1 p.2 (t_text t) (t_size t) (t_color t).
Definition setText (v : string) (t : TextDrawing) : TextDrawing :=
  mkText (t_id t) (t_x t) (t_y t) v (t_size t) (t_color t).

(** The [mousedown] listener of the drawing layer: in draw mode it starts
    a stroke, in text mode it places a text note and registers the
    listeners of the placement. *)
Definition drawLayerMouseDown (E : Env) (button : nat) (r : ViewRect) (e : Mouse)
    (k : Ink) : Ink :=
  if negb (bool_decide (button = 0%nat)) then k
  else if inMode ModeDraw (ink_app k) then
    let p := screenToWorld (ink_app k) r e in
    let id := randomUUID E (uuidCalls (ink_app k)) in
    let l := fresh (dom (strokeHeap k)) in
    let k := onApp (set_uuidCalls (S (uuidCalls (ink_app k)))) k in
    let k := set_strokeHeap (<[l := mkStroke id (drawColor k) (drawSize k) [p]]> (strokeHeap k)) k in
    let k := set_activeDraw (Some l) k in
    let k := set_strokes (strokes k ++ [l]) k in
    let k := set_drawUndo (drawUndo k ++ [l]) k in
    set_strokeRedo [] k
  else if inMode ModeText (ink_app k) then
    let p := screenToWorld (ink_app k) r e in
    let id := randomUUID E (uuidCalls (ink_app k)) in
    let l := fresh (dom (textHeap k)) in
    let k := onApp (set_uuidCalls (S (uuidCalls (ink_app k)))) k in
    let k := set_textHeap (<[l := mkText id p.1 p.2 "" (textSize k) (textColor k)]> (textHeap k)) k in
    let k := set_texts (texts k ++ [l]) k in
    let k := onApp scheduleSave k in
    set_placing (placing k ++ [l]) k
  else k.

(** The [mousemove] listener of the drawing layer. *)
Definition drawLayerMouseMove (r : ViewRect) (e : Mouse) (k : Ink) : Ink :=
  match activeDraw k with
  | None => k
  | Some l =>
      if negb (inMode ModeDraw (ink_app k)) then k
      else set_strokeHeap
             (<[l := addPoint (screenToWorld (ink_app k) r e) (getStroke k l)]> (strokeHeap k)) k
  end.

(** The [mousemove] listeners of [window]: those of the other layers, then
    the [move] listener of every pending text placement. *)
Definition placementMove (r : ViewRect) (e : Mouse) (k : Ink) (t : loc) : Ink :=
  set_textHeap (<[t := moveText (screenToWorld (ink_app k) r e) (getText k t)]> (textHeap k)) k.

Definition inkWindowMouseMove (r : ViewRect) (e : Mouse) (k : Ink) : Ink :=
  let k := onApp (windowMouseMove e) k in
  foldl (placementMove r e) k (placing k).

(** The [mouseup] listeners of [window]. *)
Definition inkWindowMouseUp (e : Mouse) (dom : list DomNode) (k : Ink) : Ink :=
  set_activeDraw None (onApp (windowMouseUp e dom) k).

(** [Math.hypot(a, b) < d] for a positive [d], compared through the
    squares. *)
Definition hypot_lt (a b d : Qc) : bool := Qc_ltb (a * a + b * b) (d * d).

Definition strokeHit (p : Qc * Qc) (s : Stroke) : bool :=
  existsb (λ q, hypot_lt (q.1 - p.1) (q.2 - p.2) (num 8 1)) (s_points s).

(** The [contextmenu] listener of the drawing layer: in draw mode the
    first stroke with a point nearer than 8 to the pointer is removed, if
    the user confirms. *)
Definition drawLayerContextMenu (answer : bool) (r : ViewRect) (e : Mouse) (k : Ink) : Ink :=
  if negb (inMode ModeDraw (ink_app k)) then k
  else
    let p := screenToWorld (ink_app k) r e in
    match list_find (λ d, strokeHit p (getStroke k d) = true) (strokes k) with
    | Some (_, hit) =>
        if answer then onApp scheduleSave (set_strokes (filter (λ d, d ≠ hit) (strokes k)) k)
        else k
    | None => k
    end.

(** The undo and redo blocks that the key handler runs in draw mode with
    Control held, on the references. *)
Definition inkDrawUndo (k : Ink) : Ink :=
  match last (strokes k) with
  | Some d => onApp scheduleSave (set_strokeRedo (d :: strokeRedo k)
                                    (set_strokes (removelast (strokes k)) k))
  | None => onApp scheduleSave k
  end.

Definition inkDrawRedo (k : Ink) : Ink :=
  match strokeRedo k with
  | d :: rest => onApp scheduleSave (set_strokes (strokes k ++ [d]) (set_strokeRedo rest k))
  | [] => onApp scheduleSave k
  end.

(** The listeners of a text placement.  [cleanup] removes them and
    schedules a save; the key listener of the placement of [t] reads the
    value of the input overlay, [trimmed] being that value after
    [trim()]. *)
Definition removeTextsById (id : string) (k : Ink) : Ink :=
  set_texts (filter (λ x, t_id (getText k x) ≠ id) (texts k)) k.

Definition placementCleanup (t : loc) (k : Ink) : Ink :=
  onApp scheduleSave (set_placing (filter (λ x, x ≠ t) (placing k)) k).

Definition placementKey (key trimmed : string) (t : loc) (k : Ink) : Ink :=
  let k :=
    if bool_decide (key = "Enter") then
      let k := set_textHeap (<[t := setText trimmed (getText k t)]> (textHeap k)) k in
      let k := if negb (truthy_str trimmed)
               then removeTextsById (t_id (getText k t)) k else k in
      placementCleanup t k
    else k in
  if bool_decide (key = "Escape")
  then placementCleanup t (removeTextsById (t_id (getText k t)) k)
  else k.

(** The [contextmenu] listener of the element of text note [t]. *)
Definition textContextMenu (answer : bool) (t : loc) (k : Ink) : Ink :=
  if negb (inMode ModeText (ink_app k)) then k
  else if negb answer then k
  else
    let id := t_id (getText k t) in
    let k := match list_find (λ x, t_id (getText k x) = id) (texts k) with
             | Some (idx, _) => set_texts (delete idx (texts k)) k
             | None => k
             end in
    onApp scheduleSave k.

(** The node objects that Ctrl+Alt+C copies: the nodes whose id is
    selected if the selection is not empty, else the focused node if there
    is one; [None] when the copy block assigns nothing. *)
Definition copySources (st : AppState) : option (list loc) :=
  if bool_decide (1 ≤ length (selectedIds st))%nat then
    Some (filter (λ l, set_has (selectedIds st) (idOf (store st) l) = true) (nodes st))
  else if truthy_id (focusedId st) then
    match findNode (store st) (nodes st) (default "" (focusedId st)) with
    | Some n => Some [n]
    | None => None
    end
  else None.

(** The strokes and the redo stack of strokes of the drawing layer, as
    values. *)
Definition inkView (k : Ink) : AppState :=
  set_drawRedo (map (getStroke k) (strokeRedo k))
    (set_drawings (map (getStroke k) (strokes k)) (ink_app k)).

(** ** Stroke sizes

    The sizes that the size slider of the draw dropdown selects
    ([DRAW_SIZES[idx]], undefined outside the table), and the stroke width
    that [renderDrawings] sets: [((d.size || 2) % 2 === 0) ? d.size + 1 :
    d.size]. *)
Definition DRAW_SIZES : list Qc :=
  [num 1 1; num 3 1; num 5 1; num 7 1; num 9 1; num 11 1; num 13 1].

(** The remainder operator [%] on numbers: the dividend minus the divisor
    times the quotient truncated toward zero. *)
Definition Qc_trunc (q : Qc) : Z := Z.quot (Qnum (this q)) (Zpos (Qden (this q))).
Definition js_rem (a b : Qc) : Qc := a - b * Q2Qc (inject_Z (Qc_trunc (a / b))).

Definition strokeWidth (size : Qc) : Qc :=
  let s := if bool_decide (size = 0) then num 2 1 else size in
  if bool_decide (js_rem s (num 2 1) = 0) then size + 1 else size.

(** ** The wheel step on doubles

    The arithmetic of the [wheel] listener and of [screenToWorld] on
    binary64 numbers, the numbers of JavaScript: [float] is the kernel's
    binary64 type, its operations round to nearest, ties to even.  A
    decimal literal denotes the nearest double, as in JavaScript.  Of the
    state only the viewport transform is kept; the rest is as in [wheel]. *)

Set Warnings "-inexact-float".

Module Binary64.

Record Mouse := mkMouse { clientX : float; clientY : float }.
Record ViewRect := mkViewRect { vr_left : float; vr_top : float }.
Record View := mkView { zoom : float; panX : float; panY : float }.

(** [Math.max] and [Math.min]: [NaN] if an argument is [NaN]; [+0] is
    greater than [-0]. *)
Definition Math_max (a b : float) : float :=
  if (PrimFloat.is_nan a || PrimFloat.is_nan b)%bool then PrimFloat.nan
  else if PrimFloat.ltb a b then b
  else if PrimFloat.ltb b a then a
  else if PrimFloat.get_sign a then b else a.

Definition Math_min (a b : float) : float :=
  if (PrimFloat.is_nan a || PrimFloat.is_nan b)%bool then PrimFloat.nan
  else if PrimFloat.ltb a b then a
  else if PrimFloat.ltb b a then b
  else if PrimFloat.get_sign a then a else b.

Definition screenToWorld (v : View) (r : ViewRect) (e : Mouse) : float * float :=
  ((clientX e - vr_left r - panX v) / zoom v,
   (clientY e - vr_top r - panY v) / zoom v)%float.

Definition wheel (shiftKey : bool) (deltaY : float) (rect : ViewRect) (e : Mouse)
    (v : View) : View :=
  if negb shiftKey then v else
  let delta := if PrimFloat.ltb 0 deltaY then (-0.1)%float else 0.1%float in
  let newZoom := Math_min 2 (Math_max 0.1 (zoom v + delta)) in
  let mx := (clientX e - vr_left rect)%float in
  let my := (clientY e - vr_top rect)%float in
  let wx := ((mx - panX v) / zoom v)%float in
  let wy := ((my - panY v) / zoom v)%float in
  let v := mkView newZoom (panX v) (panY v) in
  let v := mkView (zoom v) (mx - wx * zoom v) (panY v) in
  mkView (zoom v) (panX v) (my - wy * zoom v).

(** The viewport of the fresh page (zoom 1, no pan), a viewport element at
    the origin of the window and the pointer at (15, 15). *)
Definition exView : View := mkView 1 0 0.
Definition exRect : ViewRect := mkViewRect 0 0.
Definition exMouse : Mouse := mkMouse 15 15.

End Binary64.

(* ================================================================== *)
(** * Properties *)
(* ================================================================== *)

(** ** Insertion-ordered sets *)

Lemma set_has_true (s : list string) (i : string) : set_has s i = true ↔ i ∈ s.
Proof. unfold set_has. by rewrite bool_decide_eq_true. Qed.

Lemma elem_of_set_add (s : list string) (i j : string) :
  j ∈ set_add s i ↔ j ∈ s ∨ j = i.
Proof.
  unfold set_add. destruct (set_has s i) eqn:Hhas.
  - apply set_has_true in Hhas. split; [by left | intros [?| ->]; done].
  - rewrite elem_of_app, list_elem_of_singleton. done.
Qed.

Lemma set_add_NoDup (s : list string) (i : string) : NoDup s → NoDup (set_add s i).
Proof.
  intros Hnd. unfold set_add. destruct (set_has s i) eqn:Hhas; [done |].
  apply NoDup_app. split_and!; [done | | apply NoDup_singleton].
  intros j Hj ->%list_elem_of_singleton.
  apply set_has_true in Hj. congruence.
Qed.

(** Adding, in a loop, the ids of the elements that pass a test. *)
Lemma elem_of_foldl_add {A} (test : A → bool) (key : A → string) (l : list A)
    (s : list string) (j : string) :
  j ∈ foldl (λ acc n, if test n then set_add acc (key n) else acc) s l
  ↔ j ∈ s ∨ ∃ n, n ∈ l ∧ test n = true ∧ key n = j.
Proof.
  revert s. induction l as [| a l IH]; intros s; simpl.
  - split; [by left | intros [? | (n & Hn & _)]; [done | by apply elem_of_nil in Hn]].
  - rewrite IH. split.
    + intros [Hj | (n & Hn & Ht & Hk)].
      * destruct (test a) eqn:Ha.
        -- apply elem_of_set_add in Hj as [? | ->]; [by left |].
           right. exists a. split_and!; [left | done | done].
        -- by left.
      * right. exists n. split_and!; [by right | done | done].
    + intros [Hj | (n & Hn & Ht & Hk)].
      * left. destruct (test a); [apply elem_of_set_add; by left | done].
      * apply elem_of_cons in Hn as [-> | Hn].
        -- left. rewrite Ht. apply elem_of_set_add. by right.
        -- right. by exists n.
Qed.

Lemma foldl_add_NoDup {A} (test : A → bool) (key : A → string) (l : list A)
    (s : list string) :
  NoDup s → NoDup (foldl (λ acc n, if test n then set_add acc (key n) else acc) s l).
Proof.
  revert s. induction l as [| a l IH]; intros s Hs; simpl; [done |].
  apply IH. destruct (test a); [by apply set_add_NoDup | done].
Qed.

(** ** Selection geometry *)

Lemma zoneActive_spec (sel : Rect) (z : DomNode) :
  zoneActive sel z = true ↔ specActive sel (dn_rect z).
Proof.
  unfold zoneActive, specActive.
  destruct (rectIntersects (dn_rect z) sel), (rectContains (dn_rect z) sel),
    (rectContains sel (dn_rect z)); simpl; naive_solver.
Qed.

Lemma elem_of_addZoneAndContents (others : list DomNode) (acc : list string)
    (z : DomNode) (j : string) :
  j ∈ addZoneAndContents others acc z
  ↔ j ∈ acc ∨ j = dn_id z
    ∨ ∃ n, n ∈ others ∧ rectContains (dn_rect z) (dn_rect n) = true ∧ dn_id n = j.
Proof.
  unfold addZoneAndContents.
  rewrite (elem_of_foldl_add (λ n, rectContains (dn_rect z) (dn_rect n)) dn_id).
  rewrite elem_of_set_add. naive_solver.
Qed.

Lemma elem_of_foldl_zones (others zs : list DomNode) (acc : list string) (j : string) :
  j ∈ foldl (addZoneAndContents others) acc zs
  ↔ j ∈ acc
    ∨ ∃ z, z ∈ zs ∧
        (dn_id z = j
         ∨ ∃ n, n ∈ others ∧ rectContains (dn_rect z) (dn_rect n) = true ∧ dn_id n = j).
Proof.
  revert acc. induction zs as [| z zs IH]; intros acc; simpl.
  - split; [by left | intros [? | (z & Hz & _)]; [done | by apply elem_of_nil in Hz]].
  - rewrite IH, elem_of_addZoneAndContents. split.
    + intros [[Hj | [-> | Hn]] | (z' & Hz' & Hj)].
      * by left.
      * right. exists z. split; [left | by left].
      * right. exists z. split; [left | by right].
      * right. exists z'. split; [by right | done].
    + intros [Hj | (z' & Hz' & Hj)]; [by left; left |].
      apply elem_of_cons in Hz' as [-> | Hz'].
      * left. right. destruct Hj as [<- | Hn]; [by left | by right].
      * right. by exists z'.
Qed.

(** Membership in the rebuilt selection, in the terms of the source. *)
Lemma elem_of_boxSelection (sel : Rect) (dom : list DomNode) (j : string) :
  j ∈ boxSelection sel dom
  ↔ (∃ z, z ∈ domZones dom ∧ zoneActive sel z = true ∧
        (dn_id z = j
         ∨ ∃ n, n ∈ domOthers dom ∧ rectContains (dn_rect z) (dn_rect n) = true
                ∧ dn_id n = j))
    ∨ ∃ n, n ∈ domOthers dom ∧ rectIntersects (dn_rect n) sel = true ∧ dn_id n = j.
Proof.
  unfold boxSelection.
  rewrite (elem_of_foldl_add (λ n, rectIntersects (dn_rect n) sel) dn_id).
  rewrite elem_of_foldl_zones.
  split.
  - intros [[Hnil | (z & Hz & Hj)] | Hn].
    + by apply elem_of_nil in Hnil.
    + apply list_elem_of_filter in Hz as [Ha Hz]. left. by exists z.
    + by right.
  - intros [(z & Hz & Ha & Hj) | Hn]; [| by right].
    left. right. exists z. split; [by apply list_elem_of_filter | done].
Qed.

Lemma boxSelection_NoDup (sel : Rect) (dom : list DomNode) : NoDup (boxSelection sel dom).
Proof.
  unfold boxSelection. apply foldl_add_NoDup.
  generalize (filter (λ z, zoneActive sel z = true) (domZones dom)).
  assert (NoDup (@nil string)) as Hnil by constructor. revert Hnil.
  generalize (@nil string).
  intros acc Hacc zs. revert acc Hacc.
  induction zs as [| z zs IH]; intros acc Hacc; simpl; [done |].
  apply IH. unfold addZoneAndContents. apply foldl_add_NoDup. by apply set_add_NoDup.
Qed.

(** ** C1: group selection on drag release *)

(** C1 (as amended).  A zone is active iff it partially escapes the
    selection rectangle or is fully enclosed by it; the rebuilt selection
    holds exactly the ids of the active zones, of the non-zone nodes that
    lie inside an active zone and of the non-zone nodes that intersect the
    rectangle.  A zone that contains the rectangle and is not itself
    contained in it is not selected (no other element carrying its id);
    in the escape example of the specification the selection is {Z, N}. *)
Theorem C1_group_selection (sel : Rect) (dom : list DomNode) :
  (∀ z, zoneActive sel z = true ↔ specActive sel (dn_rect z))
  ∧ (∀ j, j ∈ boxSelection sel dom ↔
       (∃ z, z ∈ domZones dom ∧ dn_id z = j ∧ specActive sel (dn_rect z))
       ∨ (∃ n, n ∈ domOthers dom ∧ dn_id n = j ∧
            ((∃ z, z ∈ domZones dom ∧ specActive sel (dn_rect z)
                   ∧ rectContains (dn_rect z) (dn_rect n) = true)
             ∨ rectIntersects (dn_rect n) sel = true)))
  ∧ (∀ z, z ∈ domZones dom →
       rectContains (dn_rect z) sel = true →
       rectContains sel (dn_rect z) = false →
       (∀ m, m ∈ domNodes dom → dn_id m = dn_id z → m = z) →
       dn_id z ∉ boxSelection sel dom)
  ∧ boxSelection exS [exZ; exN] = ["Z"; "N"].
Proof.
  split_and!.
  - intros z. apply zoneActive_spec.
  - intros j. rewrite elem_of_boxSelection. split.
    + intros [(z & Hz & Ha & [Hj | (n & Hn & Hc & Hj)]) | (n & Hn & Hi & Hj)].
      * left. exists z. by rewrite <- zoneActive_spec.
      * right. exists n. split_and!; [done | done |].
        left. exists z. by rewrite <- zoneActive_spec.
      * right. exists n. split_and!; [done | done | by right].
    + intros [(z & Hz & Hj & Ha) | (n & Hn & Hj & [(z & Hz & Ha & Hc) | Hi])].
      * left. exists z. rewrite zoneActive_spec. split_and!; [done | done | by left].
      * left. exists z. rewrite zoneActive_spec. split_and!; [done | done |].
        right. by exists n.
      * right. by exists n.
  - intros z Hz Hin Hout Huniq Hsel.
    assert (zoneActive sel z = false) as Hna.
    { unfold zoneActive. rewrite Hin, Hout. by rewrite andb_false_r. }
    assert (∀ m, m ∈ domOthers dom → dn_id m ≠ dn_id z) as Hoth.
    { intros m Hm Hid. apply list_elem_of_filter in Hm as [Hmz Hm].
      apply list_elem_of_filter in Hz as [Hzz _].
      apply Huniq in Hid; [| done]. subst m. congruence. }
    apply elem_of_boxSelection in Hsel
      as [(z' & Hz' & Ha & [Hj | (n & Hn & _ & Hj)]) | (n & Hn & _ & Hj)].
    + apply list_elem_of_filter in Hz' as [Hzz' Hz'].
      apply Huniq in Hj; [| done]. subst z'. congruence.
    + by apply Hoth in Hj.
    + by apply Hoth in Hj.
  - by vm_compute.
Qed.

Lemma C1_group_selection_witness : dn_id exZ ∉ boxSelection exSin [exZ; exNin].
Proof.
  apply (proj1 (proj2 (proj2 (C1_group_selection exSin [exZ; exNin]))) exZ).
  - by apply (bool_decide_unpack _).
  - by vm_compute.
  - by vm_compute.
  - intros m Hm Hid.
    assert (domNodes [exZ; exNin] = [exZ; exNin]) as Hdom by (by vm_compute).
    rewrite Hdom in Hm.
    apply elem_of_cons in Hm as [-> | Hm]; [done |].
    apply list_elem_of_singleton in Hm as ->. by vm_compute in Hid.
Defined.

(** The sentence of C1 that fails: a zone whose rectangle equals the
    selection rectangle contains it, and is selected. *)
Lemma C1_counterexample :
  ¬ (∀ (sel : Rect) (dom : list DomNode) (z : DomNode),
       z ∈ domZones dom → rectContains (dn_rect z) sel = true →
       dn_id z ∉ boxSelection sel dom).
Proof.
  intros H. apply (H (dn_rect exZ) [exZ] exZ).
  - by apply (bool_decide_unpack _).
  - by vm_compute.
  - by apply (bool_decide_unpack _).
Qed.

(** ** The viewport transform *)

Lemma num_tenth_le_two : num 1 10 ≤ num 2 1.
Proof. by apply (bool_decide_unpack _). Qed.

Lemma tenth_le_nonzero (z : Qc) : num 1 10 ≤ z → z ≠ 0.
Proof. intros Hz ->. by apply (bool_decide_pack _) in Hz. Qed.

(** [Math.min(2, Math.max(0.1, x))] lies in [0.1, 2] whatever [x] is. *)
Lemma clamp_range (x : Qc) :
  num 1 10 ≤ Math_min (num 2 1) (Math_max (num 1 10) x)
  ∧ Math_min (num 2 1) (Math_max (num 1 10) x) ≤ num 2 1.
Proof.
  unfold Math_min, Math_max, Qc_leb.
  destruct (bool_decide_reflect (num 1 10 ≤ x)) as [Hx | Hx];
    (match goal with |- context [bool_decide (?a ≤ ?b)] =>
       destruct (bool_decide_reflect (a ≤ b)) as [Hm | Hm] end).
  - split; [apply num_tenth_le_two | apply Qcle_refl].
  - split; [done | by apply Qclt_le_weak, Qcnot_le_lt].
  - split; [apply num_tenth_le_two | apply Qcle_refl].
  - split; [apply Qcle_refl | apply num_tenth_le_two].
Qed.

(** A wheel step with the modifier leaves the zoom in [0.1, 2]. *)
Lemma wheel_zoom_range (deltaY : Qc) (rect : ViewRect) (e : Mouse) (st : AppState) :
  num 1 10 ≤ zoom (wheel true deltaY rect e st)
  ∧ zoom (wheel true deltaY rect e st) ≤ num 2 1.
Proof. unfold wheel. simpl. apply clamp_range. Qed.

(** Without the modifier the wheel listener returns at once. *)
Lemma wheel_plain_scroll (deltaY : Qc) (rect : ViewRect) (e : Mouse) (st : AppState) :
  wheel false deltaY rect e st = st.
Proof. reflexivity. Qed.

(** The pan after a wheel step puts the old world point under the cursor. *)
Lemma anchor_identity (m p z z' : Qc) :
  z ≠ 0 → z' ≠ 0 → (m - (m - (m - p) / z * z')) / z' = (m - p) / z.
Proof. intros Hz Hz'. field. done. Qed.

(** ** C3: cursor-anchored zoom *)

(** C3, as corrected.  In exact arithmetic, for every wheel event at a
    screen point and every viewport state whose zoom lies in [0.1, 2], the
    world point under the cursor after the zoom step is the world point
    under the cursor before it.  On doubles the two can differ by
    rounding, as the example of the fresh page below shows. *)
Theorem C3_zoom_cursor_anchored (shiftKey : bool) (deltaY : Qc) (rect : ViewRect)
    (e : Mouse) (st : AppState) :
  num 1 10 ≤ zoom st → zoom st ≤ num 2 1 →
  screenToWorld (wheel shiftKey deltaY rect e st) rect e = screenToWorld st rect e.
Proof.
  intros Hlo _. destruct shiftKey; [| reflexivity].
  pose proof (tenth_le_nonzero _ Hlo) as Hz.
  pose proof (tenth_le_nonzero _ (proj1 (wheel_zoom_range deltaY rect e st))) as Hz'.
  unfold screenToWorld. unfold wheel in *. simpl in *.
  set (z' := Math_min _ _) in *.
  f_equal; by apply anchor_identity.
Qed.

Lemma C3_zoom_cursor_anchored_witness :
  screenToWorld (wheel true (num (-100) 1) exRect exMouse exZoomed) exRect exMouse
  = screenToWorld exZoomed exRect exMouse.
Proof. apply C3_zoom_cursor_anchored; by apply (bool_decide_unpack _). Defined.

(** On doubles too the step recomputes the pan from the world point that
    [screenToWorld] gave under the cursor before the step. *)
Lemma binary64_wheel_pan (deltaY : float) (rect : Binary64.ViewRect)
    (e : Binary64.Mouse) (v : Binary64.View) :
  let v' := Binary64.wheel true deltaY rect e v in
  let w := Binary64.screenToWorld v rect e in
  Binary64.panX v'
    = (Binary64.clientX e - Binary64.vr_left rect - w.1 * Binary64.zoom v')%float
  ∧ Binary64.panY v'
    = (Binary64.clientY e - Binary64.vr_top rect - w.2 * Binary64.zoom v')%float.
Proof. done. Qed.

(** Zooming in at (15, 15) on the fresh page: the zoom becomes the double
    nearest to 1.1, the pan (-1.5, -1.5), and the world point under the
    cursor, (15, 15) before the step, is read back as
    14.999999999999998. *)
Lemma binary64_wheel_example :
  Binary64.wheel true (-100) Binary64.exRect Binary64.exMouse Binary64.exView
    = Binary64.mkView 0x1.199999999999ap+0 (-1.5) (-1.5)
  ∧ Binary64.screenToWorld Binary64.exView Binary64.exRect Binary64.exMouse = (15, 15)%float
  ∧ Binary64.screenToWorld
      (Binary64.wheel true (-100) Binary64.exRect Binary64.exMouse Binary64.exView)
      Binary64.exRect Binary64.exMouse
    = (0x1.dffffffffffffp+3, 0x1.dffffffffffffp+3)%float.
Proof. split_and!; by vm_compute. Qed.

(** The sentence of C3 that fails: on doubles the world point under the
    cursor after a zoom step is not always the one before it, also with
    the zoom in [0.1, 2]. *)
Lemma C3_counterexample :
  ¬ (∀ (deltaY : float) (rect : Binary64.ViewRect) (e : Binary64.Mouse)
       (v : Binary64.View),
       PrimFloat.leb 0.1 (Binary64.zoom v) = true →
       PrimFloat.leb (Binary64.zoom v) 2 = true →
       Binary64.screenToWorld (Binary64.wheel true deltaY rect e v) rect e
       = Binary64.screenToWorld v rect e).
Proof.
  intros H.
  specialize (H (-100)%float Binary64.exRect Binary64.exMouse Binary64.exView).
  apply (f_equal (λ p, PrimFloat.eqb p.1 15)) in H; [| by vm_compute ..].
  vm_compute in H. discriminate.
Qed.

(** ** C4: the zoom range *)

(** Loading a blob whose [meta.zoom] is a number assigns it as it is. *)
Lemma loadFromStorage_zoom (E : Env) (raw : string) (d : Doc) (m : Meta) (z : Qc)
    (st : AppState) :
  truthy_str raw = true → JSON_parse E raw = Some (PValue d) →
  doc_meta d = Some m → meta_zoom m = Some z →
  zoom (loadFromStorage E (Some raw) st) = z.
Proof.
  intros Hraw Hparse Hmeta Hzoom. unfold loadFromStorage.
  rewrite Hraw, Hparse, Hmeta. simpl. unfold assignMeta. rewrite Hzoom.
  by destruct (meta_panX m), (meta_panY m).
Qed.

(** C4 (the code departs from it).  The page starts with zoom 1; loading
    the stored blob [{"meta":{"zoom":5}}] leaves the zoom at 5, outside
    [0.1, 2]: [loadFromStorage] assigns [parsed.meta.zoom] without the clamp
    that the wheel listener applies. *)
Theorem C4_load_zoom_not_clamped :
  num 1 10 ≤ zoom initialState ∧ zoom initialState ≤ num 2 1
  ∧ zoom (loadFromStorage exEnv (Some exBlobZoom5) initialState) = num 5 1
  ∧ ¬ (zoom (loadFromStorage exEnv (Some exBlobZoom5) initialState) ≤ num 2 1).
Proof.
  assert (zoom (loadFromStorage exEnv (Some exBlobZoom5) initialState) = num 5 1) as Hz.
  { by eapply loadFromStorage_zoom. }
  rewrite Hz. split_and!; [by apply (bool_decide_unpack _) .. | done |].
  by apply (bool_decide_unpack _).
Qed.

(** ** C9: parse failures on load and on import *)

Lemma assignDoc_alerts (d : Doc) (st : AppState) :
  alerts (assignDoc d st) = alerts st ∧ warnings (assignDoc d st) = warnings st
  ∧ zoom (assignDoc d st) = zoom st ∧ panX (assignDoc d st) = panX st
  ∧ panY (assignDoc d st) = panY st.
Proof. unfold assignDoc. by destruct (allocNodeVals _ _). Qed.

Lemma assignDoc_collections (d : Doc) (st : AppState) :
  (doc_nodes d = None → nodes (assignDoc d st) = [])
  ∧ edges (assignDoc d st) = default [] (doc_edges d)
  ∧ drawings (assignDoc d st) = default [] (doc_drawings d)
  ∧ textDrawings (assignDoc d st) = default [] (doc_textDrawings d).
Proof.
  unfold assignDoc. split.
  - intros ->. reflexivity.
  - by destruct (allocNodeVals _ _).
Qed.

Lemma assignMeta_frame (m : Meta) (st : AppState) :
  nodes (assignMeta m st) = nodes st ∧ edges (assignMeta m st) = edges st
  ∧ drawings (assignMeta m st) = drawings st
  ∧ textDrawings (assignMeta m st) = textDrawings st
  ∧ alerts (assignMeta m st) = alerts st ∧ warnings (assignMeta m st) = warnings st.
Proof. unfold assignMeta. by destruct (meta_zoom m), (meta_panX m), (meta_panY m). Qed.

Lemma assignMeta_viewport (m : Meta) (st : AppState) :
  zoom (assignMeta m st) = default (zoom st) (meta_zoom m)
  ∧ panX (assignMeta m st) = default (panX st) (meta_panX m)
  ∧ panY (assignMeta m st) = default (panY st) (meta_panY m).
Proof. unfold assignMeta. by destruct (meta_zoom m), (meta_panX m), (meta_panY m). Qed.

(** C9.  Loading: a missing blob leaves the state as it is; a blob that
    does not parse (or parses to [null]) only logs a console warning, so
    a page that starts with the default state keeps it; of a parsed blob
    every missing collection becomes empty and every viewport value without
    a number in [meta] keeps its value; no alert is raised on any load.
    Importing a file that does not parse raises the alert
    "Invalid state file" and changes nothing else. *)
Theorem C9_parse_failure_handling (E : Env) (st : AppState) :
  loadFromStorage E None st = st
  ∧ (∀ raw, JSON_parse E raw = None ∨ JSON_parse E raw = Some PNull →
       loadFromStorage E (Some raw) st
       = if truthy_str raw then warn "Failed to load autosave" st else st)
  ∧ (∀ raw d, truthy_str raw = true → JSON_parse E raw = Some (PValue d) →
       let st' := loadFromStorage E (Some raw) st in
       (doc_nodes d = None → nodes st' = [])
       ∧ (doc_edges d = None → edges st' = [])
       ∧ (doc_drawings d = None → drawings st' = [])
       ∧ (doc_textDrawings d = None → textDrawings st' = [])
       ∧ zoom st' = default (zoom st) (doc_meta d ≫= meta_zoom)
       ∧ panX st' = default (panX st) (doc_meta d ≫= meta_panX)
       ∧ panY st' = default (panY st) (doc_meta d ≫= meta_panY))
  ∧ (∀ raw, alerts (loadFromStorage E raw st) = alerts st)
  ∧ (∀ content, JSON_parse E content = None →
       importState E content st = alert "Invalid state file" st
       ∧ alerts (importState E content st) = alerts st ++ ["Invalid state file"]
       ∧ set_alerts (alerts st) (importState E content st) = st).
Proof.
  split_and!.
  - reflexivity.
  - intros raw Hparse. unfold loadFromStorage.
    destruct (truthy_str raw); simpl; [| done].
    by destruct Hparse as [-> | ->].
  - intros raw d Hraw Hparse. unfold loadFromStorage. rewrite Hraw, Hparse. simpl.
    destruct (assignDoc_collections d st) as (Hn & He & Hd & Ht).
    destruct (assignDoc_alerts d st) as (_ & _ & Hz & Hx & Hy).
    destruct (doc_meta d) as [m |]; simpl.
    + destruct (assignMeta_frame m (assignDoc d st)) as (-> & -> & -> & -> & _).
      destruct (assignMeta_viewport m (assignDoc d st)) as (-> & -> & ->).
      rewrite Hz, Hx, Hy, He, Hd, Ht.
      split_and!; try done; by intros ->.
    + rewrite He, Hd, Ht. split_and!; try done; by intros ->.
  - intros [raw |]; [| done]. unfold loadFromStorage.
    destruct (truthy_str raw); simpl; [| done].
    destruct (JSON_parse E raw) as [[| d] |]; try done.
    destruct (assignDoc_alerts d st) as (Ha & _).
    destruct (doc_meta d) as [m |]; [| done].
    by destruct (assignMeta_frame m (assignDoc d st)) as (_ & _ & _ & _ & -> & _).
  - intros content Hparse. unfold importState. rewrite Hparse.
    split_and!; [done | done |]. by destruct st.
Qed.

Lemma C9_parse_failure_handling_witness :
  importState exEnv exMalformed exZoomed = alert "Invalid state file" exZoomed
  ∧ alerts (importState exEnv exMalformed exZoomed) = alerts exZoomed ++ ["Invalid state file"]
  ∧ set_alerts (alerts exZoomed) (importState exEnv exMalformed exZoomed) = exZoomed.
Proof.
  apply (proj2 (proj2 (proj2 (proj2 (C9_parse_failure_handling exEnv exZoomed))))).
  reflexivity.
Defined.

(** ** The store *)

Lemma getNode_lookup (σ : Store) (l : loc) (n : NodeObj) :
  nodeHeap σ !! l = Some n → getNode σ l = n.
Proof. intros H. unfold getNode. by apply lookup_total_correct. Qed.

Lemma getData_lookup (σ : Store) (l : loc) (d : gmap string string) :
  dataHeap σ !! l = Some d → getData σ l = d.
Proof. intros H. unfold getData. by apply lookup_total_correct. Qed.

Global Instance extends_preorder : PreOrder extends.
Proof.
  split.
  - intros σ. by split.
  - intros σ1 σ2 σ3 [Hn1 Hd1] [Hn2 Hd2]. split; by etrans.
Qed.

Lemma extends_allocated (σ σ' : Store) (l : loc) :
  extends σ σ' → allocated σ l → allocated σ' l.
Proof.
  intros [Hn Hd] (n & Hl & [d Hdl]). exists n. split.
  - by eapply lookup_weaken.
  - exists d. by eapply lookup_weaken.
Qed.

Lemma extends_getNode (σ σ' : Store) (l : loc) :
  extends σ σ' → is_Some (nodeHeap σ !! l) → getNode σ' l = getNode σ l.
Proof.
  intros [Hn _] [n Hl]. rewrite (getNode_lookup σ l n Hl).
  apply getNode_lookup. by eapply lookup_weaken.
Qed.

Lemma extends_viewNode (σ σ' : Store) (l : loc) :
  extends σ σ' → allocated σ l → viewNode σ' l = viewNode σ l.
Proof.
  intros Hext (n & Hl & [d Hdl]). unfold viewNode.
  rewrite (extends_getNode σ σ' l Hext) by eauto.
  rewrite (getNode_lookup σ l n Hl).
  rewrite (getData_lookup σ _ d Hdl).
  f_equal. apply getData_lookup. destruct Hext as [_ Hd]. by eapply lookup_weaken.
Qed.

Lemma extends_idOf (σ σ' : Store) (l : loc) :
  extends σ σ' → allocated σ l → idOf σ' l = idOf σ l.
Proof.
  intros Hext (n & Hl & _). unfold idOf. f_equal. apply extends_getNode; eauto.
Qed.

Lemma allocData_spec (d : gmap string string) (σ : Store) :
  let l := (allocData d σ).2 in
  let σ' := (allocData d σ).1 in
  dataHeap σ !! l = None ∧ nodeHeap σ' = nodeHeap σ ∧ dataHeap σ' = <[l := d]> (dataHeap σ).
Proof.
  simpl. split_and!; [| done | done]. apply not_elem_of_dom, is_fresh.
Qed.

Lemma allocNode_spec (n : NodeObj) (σ : Store) :
  let l := (allocNode n σ).2 in
  let σ' := (allocNode n σ).1 in
  nodeHeap σ !! l = None ∧ nodeHeap σ' = <[l := n]> (nodeHeap σ) ∧ dataHeap σ' = dataHeap σ.
Proof.
  simpl. split_and!; [| done | done]. apply not_elem_of_dom, is_fresh.
Qed.

(** What allocating a node object together with its [data] object gives. *)
Lemma alloc_pair_spec (mk : loc → NodeObj) (d : gmap string string) (σ : Store) :
  (∀ dl, n_data (mk dl) = dl) →
  let '(σ1, dl) := allocData d σ in
  let '(σ2, nl) := allocNode (mk dl) σ1 in
  nodeHeap σ !! nl = None ∧ dataHeap σ !! dl = None
  ∧ nodeHeap σ2 = <[nl := mk dl]> (nodeHeap σ)
  ∧ dataHeap σ2 = <[dl := d]> (dataHeap σ).
Proof.
  intros Hmk.
  destruct (allocData d σ) as [σ1 dl] eqn:H1.
  destruct (allocNode (mk dl) σ1) as [σ2 nl] eqn:H2.
  pose proof (allocData_spec d σ) as (Hd & Hn1 & Hd1). rewrite H1 in Hd, Hn1, Hd1.
  pose proof (allocNode_spec (mk dl) σ1) as (Hn & Hn2 & Hd2). rewrite H2 in Hn, Hn2, Hd2.
  simpl in *. rewrite Hn1 in Hn, Hn2. rewrite Hd1 in Hd2. done.
Qed.

(** A deep copy is a new, allocated node object with a new [data] object
    and the contents of the original; the objects the store held are
    unchanged. *)
Lemma deepCopy_spec (σ σ' : Store) (l c : loc) :
  deepCopy σ l = (σ', c) →
  nodeHeap σ !! c = None
  ∧ dataHeap σ !! n_data (getNode σ' c) = None
  ∧ extends σ σ' ∧ allocated σ' c ∧ viewNode σ' c = viewNode σ l.
Proof.
  unfold deepCopy.
  pose proof (alloc_pair_spec
    (λ dl, mkNode (n_id (getNode σ l)) (n_type (getNode σ l)) (n_x (getNode σ l))
                  (n_y (getNode σ l)) (n_w (getNode σ l)) (n_h (getNode σ l)) dl)
    (getData σ (n_data (getNode σ l))) σ) as Hspec.
  destruct (allocData _ σ) as [σ1 dl].
  destruct (allocNode _ σ1) as [σ2 nl].
  destruct Hspec as (Hn & Hd & Hn2 & Hd2); [done |].
  intros [= <- <-].
  assert (getNode σ2 nl = mkNode (n_id (getNode σ l)) (n_type (getNode σ l))
            (n_x (getNode σ l)) (n_y (getNode σ l)) (n_w (getNode σ l))
            (n_h (getNode σ l)) dl) as Hget.
  { apply getNode_lookup. rewrite Hn2. apply lookup_insert_eq. }
  assert (getData σ2 dl = getData σ (n_data (getNode σ l))) as Hgetd.
  { apply getData_lookup. rewrite Hd2. apply lookup_insert_eq. }
  split_and!.
  - done.
  - by rewrite Hget.
  - split; [rewrite Hn2 | rewrite Hd2]; by apply insert_subseteq.
  - eexists. split; [rewrite Hn2; apply lookup_insert_eq |].
    simpl. rewrite Hd2, lookup_insert_eq. eauto.
  - unfold viewNode. rewrite Hget. simpl. by rewrite Hgetd.
Qed.

(** ** Cloning the clipboard *)

Lemma cloneNode_spec (E : Env) (st st1 : AppState) (src c : loc) :
  cloneNode E st src = (st1, c) →
  nodeHeap (store st) !! c = None
  ∧ dataHeap (store st) !! n_data (getNode (store st1) c) = None
  ∧ extends (store st) (store st1)
  ∧ allocated (store st1) c
  ∧ viewNode (store st1) c = pastedVal (randomUUID E (uuidCalls st)) (viewNode (store st) src)
  ∧ st1 = set_uuidCalls (S (uuidCalls st)) (set_store (store st1) st).
Proof.
  unfold cloneNode.
  destruct (deepCopy (store st) src) as [σ c'] eqn:Hcopy.
  apply deepCopy_spec in Hcopy as (Hn & Hd & [Hen Hed] & (n & Hc & [d Hdc]) & Hview).
  intros [= <- <-].
  rewrite (getNode_lookup σ c' n Hc) in *.
  set (clone := mkNode _ _ _ _ _ _ _).
  assert (getNode (putNode c' clone σ) c' = clone) as Hget.
  { apply getNode_lookup. simpl. apply lookup_insert_eq. }
  split_and!.
  - done.
  - simpl. by rewrite Hget.
  - split; simpl; [by apply insert_subseteq_r | done].
  - exists clone. split; [simpl; apply lookup_insert_eq |]. simpl. eauto.
  - simpl. unfold viewNode in *. rewrite Hget. simpl.
    rewrite (getNode_lookup σ c' n Hc) in Hview.
    assert (getData (putNode c' clone σ) (n_data n) = getData σ (n_data n)) as -> by done.
    injection Hview as <- <- <- <- <- <- <-. done.
  - done.
Qed.

Lemma cloneNodes_spec (E : Env) (srcs : list loc) (st st' : AppState) (clones : list loc) :
  Forall (allocated (store st)) srcs →
  cloneNodes E st srcs = (st', clones) →
  extends (store st) (store st')
  ∧ st' = set_uuidCalls (uuidCalls st + length srcs)%nat (set_store (store st') st)
  ∧ length clones = length srcs
  ∧ NoDup clones
  ∧ (∀ c, c ∈ clones →
       nodeHeap (store st) !! c = None
       ∧ dataHeap (store st) !! n_data (getNode (store st') c) = None
       ∧ allocated (store st') c)
  ∧ (∀ k src c, srcs !! k = Some src → clones !! k = Some c →
       viewNode (store st') c
       = pastedVal (randomUUID E (uuidCalls st + k)%nat) (viewNode (store st) src)).
Proof.
  revert st st' clones.
  induction srcs as [| src rest IH]; intros st st' clones Hall; cbn [cloneNodes].
  - intros [= <- <-]. split_and!; [done | | done | constructor | |].
    + destruct st. simpl. by rewrite Nat.add_0_r.
    + intros c Hc. by apply elem_of_nil in Hc.
    + intros k src c Hk. done.
  - destruct (cloneNode E st src) as [st1 c0] eqn:Hone.
    apply cloneNode_spec in Hone as (Hn0 & Hd0 & Hext0 & Halloc0 & Hview0 & Hst1).
    apply Forall_cons in Hall as [Hsrc Hrest].
    assert (Forall (allocated (store st1)) rest) as Hrest1.
    { eapply Forall_impl; [done |]. intros l. by apply extends_allocated. }
    destruct (cloneNodes E st1 rest) as [st2 cs] eqn:Hrec.
    apply IH in Hrec as (Hext & Hst2 & Hlen & Hnd & Hfresh & Hviews); [| done].
    intros [= <- <-].
    assert (getNode (store st2) c0 = getNode (store st1) c0) as Hget0.
    { destruct Halloc0 as (n & Hc0 & _). apply extends_getNode; eauto. }
    split_and!.
    + by etrans.
    + rewrite Hst2. rewrite Hst1 at 1 2. simpl.
      replace (S (uuidCalls st + length rest))%nat
        with (uuidCalls st + S (length rest))%nat by lia.
      by destruct st.
    + simpl. by rewrite Hlen.
    + constructor; [| done]. intros Hin. apply Hfresh in Hin as (Hnone & _).
      destruct Halloc0 as (n & Hc0 & _). congruence.
    + intros c [-> | Hc]%elem_of_cons.
      * split_and!; [done | by rewrite Hget0 | by eapply extends_allocated].
      * apply Hfresh in Hc as (Hcn & Hcd & Hca). split_and!; [| | done].
        -- destruct Hext0 as [Hen _].
           destruct (nodeHeap (store st) !! c) eqn:Hlook; [| done].
           eapply lookup_weaken in Hlook; [| done]. congruence.
        -- destruct Hext0 as [_ Hed].
           destruct (dataHeap (store st) !! n_data (getNode (store st2) c)) eqn:Hlook;
             [| done].
           eapply lookup_weaken in Hlook; [| done]. congruence.
    + intros [| k] s c Hs Hc; simpl in Hs, Hc.
      * injection Hs as <-. injection Hc as <-.
        rewrite (extends_viewNode (store st1) (store st2)) by done.
        by rewrite Nat.add_0_r.
      * rewrite (Hviews k s c Hs Hc).
        rewrite (extends_viewNode (store st) (store st1)).
        -- by replace (uuidCalls st1 + k)%nat with (uuidCalls st + S k)%nat
             by (rewrite Hst1; simpl; lia).
        -- done.
        -- eapply Forall_lookup_1; done.
Qed.

(** ** C6: paste *)

Lemma elem_of_foldl_set_add (l s : list string) (i : string) :
  i ∈ foldl set_add s l ↔ i ∈ s ∨ i ∈ l.
Proof.
  revert s. induction l as [| a l IH]; intros s; simpl.
  - rewrite elem_of_nil. naive_solver.
  - rewrite IH, elem_of_set_add, elem_of_cons. naive_solver.
Qed.

(** Pasting a single-node clipboard is pasting the one-element list. *)
Lemma keyPaste_single (E : Env) (src : loc) (st : AppState) :
  keyPaste E (ClipSingle src) st = keyPaste E (ClipMulti [src]) st.
Proof.
  unfold keyPaste. cbn [cloneNodes].
  by destruct (cloneNode E (set_selectedIds [] st) src) as [st1 c].
Qed.

Lemma keyPaste_multi_spec (E : Env) (srcs : list loc) (st : AppState) :
  Forall (allocated (store st)) srcs →
  let st' := keyPaste E (ClipMulti srcs) st in
  ∃ clones,
    nodes st' = nodes st ++ clones
    ∧ length clones = length srcs
    ∧ NoDup clones
    ∧ (∀ c, c ∈ clones →
         nodeHeap (store st) !! c = None
         ∧ dataHeap (store st) !! n_data (getNode (store st') c) = None
         ∧ allocated (store st') c)
    ∧ (∀ k src c, srcs !! k = Some src → clones !! k = Some c →
         viewNode (store st') c
         = pastedVal (randomUUID E (uuidCalls st + k)%nat) (viewNode (store st) src))
    ∧ selectedIds st' = foldl set_add [] (map (idOf (store st')) clones)
    ∧ focusedId st' = match clones with
                      | c0 :: _ => Some (idOf (store st') c0)
                      | [] => focusedId st
                      end
    ∧ extends (store st) (store st')
    ∧ st' = scheduleSave
              (set_focusedId (focusedId st')
                 (set_selectedIds (selectedIds st')
                    (set_nodes (nodes st')
                       (set_uuidCalls (uuidCalls st + length srcs)%nat
                          (set_store (store st') st))))).
Proof.
  intros Hall. unfold keyPaste.
  destruct (cloneNodes E (set_selectedIds [] st) srcs) as [st1 clones] eqn:Hclones.
  apply cloneNodes_spec in Hclones
    as (Hext & Hst1 & Hlen & Hnd & Hfresh & Hviews); [| done].
  simpl in Hext, Hst1, Hfresh, Hviews.
  set (σ1 := store st1) in *. clearbody σ1. subst st1.
  exists clones. destruct clones as [| c0 cs]; simpl; split_and!; try done; by destruct st.
Qed.

(** The key handler on the paste key. *)
Lemma keydown_paste (E : Env) (key : string) (answer : bool) (st : AppState) :
  key = "v" ∨ key = "V" →
  inMode ModeNormal st = true → ctrlDown st = true →
  keydown E key true answer st
  = match clipboard st with Some clip => keyPaste E clip st | None => st end.
Proof.
  intros Hkey Hmode Hctrl. unfold keydown.
  assert (toLowerCase key = "v") as Hlow by (by destruct Hkey as [-> | ->]).
  rewrite !bool_decide_eq_false_2 by (by destruct Hkey as [-> | ->]).
  rewrite Hlow, Hmode, Hctrl. simpl.
  unfold keyCopyPaste. rewrite Hctrl. simpl.
  rewrite !andb_false_r, Hctrl. reflexivity.
Qed.

Lemma allocatedb_true (σ : Store) (l : loc) : allocatedb σ l = true ↔ allocated σ l.
Proof.
  unfold allocatedb, allocated. destruct (nodeHeap σ !! l) as [n |].
  - rewrite bool_decide_eq_true. naive_solver.
  - naive_solver.
Qed.

Global Instance allocated_dec (σ : Store) (l : loc) : Decision (allocated σ l).
Proof.
  refine (cast_if (decide (allocatedb σ l = true))); by rewrite <- allocatedb_true.
Defined.

(** Closed decidable facts, by evaluation. *)
Ltac by_compute := apply (bool_decide_unpack _); vm_compute; exact I.
(** C6.  On the paste key in normal mode: with no clipboard nothing
    changes at all; with a clipboard the selection is cleared, every
    pasted node is a new object that holds what its source in the clipboard
    holds except for its id, which is the value of its own call of
    [crypto.randomUUID], and its position, which is moved by 40 on both
    axes; the pasted nodes are appended to the node list in order, they are
    exactly the selected nodes, the first of them gets the focus, their ids
    are pairwise distinct when the generated values are, and the nodes
    already in the store keep their contents. *)
Theorem C6_paste (E : Env) (key : string) (answer : bool) (st : AppState) :
  key = "v" ∨ key = "V" →
  inMode ModeNormal st = true → ctrlDown st = true →
  let st' := keydown E key true answer st in
  (clipboard st = None → st' = st)
  ∧ (∀ clip, clipboard st = Some clip →
       Forall (allocated (store st)) (clipLocs clip) →
       ∃ clones,
         nodes st' = nodes st ++ clones
         ∧ length clones = length (clipLocs clip)
         ∧ (∀ k src c, clipLocs clip !! k = Some src → clones !! k = Some c →
              nodeHeap (store st) !! c = None
              ∧ viewNode (store st') c
                = pastedVal (randomUUID E (uuidCalls st + k)%nat) (viewNode (store st) src))
         ∧ (∀ i, i ∈ selectedIds st' ↔ ∃ c, c ∈ clones ∧ idOf (store st') c = i)
         ∧ focusedId st' = match clones with
                           | c0 :: _ => Some (idOf (store st') c0)
                           | [] => focusedId st
                           end
         ∧ ((∀ m n, randomUUID E m = randomUUID E n → m = n) →
            NoDup (map (idOf (store st')) clones))
         ∧ (∀ l, allocated (store st) l → viewNode (store st') l = viewNode (store st) l)).
Proof.
  intros Hkey Hmode Hctrl st'. subst st'.
  rewrite (keydown_paste E key answer st Hkey Hmode Hctrl).
  split; [by intros -> |].
  intros clip -> Hall.
  assert (keyPaste E clip st = keyPaste E (ClipMulti (clipLocs clip)) st) as ->.
  { destruct clip; [apply keyPaste_single | done]. }
  destruct (keyPaste_multi_spec E (clipLocs clip) st Hall)
    as (clones & Hnodes & Hlen & Hnd & Hfresh & Hviews & Hsel & Hfocus & Hext & _).
  set (st' := keyPaste E (ClipMulti (clipLocs clip)) st) in *. clearbody st'.
  exists clones. split_and!; try done.
  - intros k src c Hsrc Hc. split; [| by eapply Hviews].
    apply Hfresh. by eapply list_elem_of_lookup_2.
  - intros i. rewrite Hsel, elem_of_foldl_set_add, list_elem_of_fmap, elem_of_nil.
    naive_solver.
  - intros Hinj. apply NoDup_alt. intros i j x Hi Hj.
    rewrite list_lookup_fmap in Hi, Hj.
    destruct (clones !! i) as [ci |] eqn:Hci; [| done].
    destruct (clones !! j) as [cj |] eqn:Hcj; [| done].
    simpl in Hi, Hj.
    destruct (lookup_lt_is_Some_2 (clipLocs clip) i) as [si Hsi].
    { rewrite <- Hlen. by eapply lookup_lt_Some. }
    destruct (lookup_lt_is_Some_2 (clipLocs clip) j) as [sj Hsj].
    { rewrite <- Hlen. by eapply lookup_lt_Some. }
    pose proof (f_equal v_id (Hviews i si ci Hsi Hci)) as Hidi.
    pose proof (f_equal v_id (Hviews j sj cj Hsj Hcj)) as Hidj.
    unfold viewNode, pastedVal in Hidi, Hidj. simpl in Hidi, Hidj.
    unfold idOf in Hi, Hj.
    assert (randomUUID E (uuidCalls st + i)%nat = randomUUID E (uuidCalls st + j)%nat)
      as Heq by congruence.
    apply Hinj in Heq. lia.
  - intros l Hl. by apply extends_viewNode.
Qed.

Lemma C6_paste_witness :
  ∃ clones,
    nodes (keydown exEnv "v" true false exCopied) = nodes exCopied ++ clones
    ∧ length clones = 1%nat
    ∧ ∀ c, clones !! 0%nat = Some c →
        viewNode (store (keydown exEnv "v" true false exCopied)) c
        = pastedVal "uuid-1" (viewNode (store exCopied) 2%positive).
Proof.
  destruct (proj2 (C6_paste exEnv "v" false exCopied (or_introl eq_refl) eq_refl eq_refl)
              (ClipMulti [2%positive]) eq_refl)
    as (clones & Hnodes & Hlen & Hviews & _).
  - by_compute.
  - exists clones. split_and!; [done | done |].
    intros c Hc. by apply (Hviews 0%nat 2%positive c).
Defined.

(** ** C10: the clipboard under paste *)

(** Writing a node object or a [data] object that an earlier store did
    not hold leaves what that store's nodes hold as it is. *)
Lemma putNode_frame (σ0 σ : Store) (c l : loc) (n' : NodeObj) :
  extends σ0 σ → nodeHeap σ0 !! c = None → allocated σ0 l →
  viewNode (putNode c n' σ) l = viewNode σ l.
Proof.
  intros Hext Hc Hl. pose proof (extends_allocated _ _ _ Hext Hl) as (n & Hn & _).
  assert (c ≠ l) as Hne. { intros ->. destruct Hl as (? & ? & _). congruence. }
  unfold viewNode.
  assert (getNode (putNode c n' σ) l = getNode σ l) as ->; [| done].
  rewrite (getNode_lookup σ l n Hn). apply getNode_lookup. simpl.
  by rewrite lookup_insert_ne.
Qed.

Lemma putData_frame (σ0 σ : Store) (dl l : loc) (d' : gmap string string) :
  extends σ0 σ → dataHeap σ0 !! dl = None → allocated σ0 l →
  viewNode (putData dl d' σ) l = viewNode σ l.
Proof.
  intros Hext Hdl (n & Hn & [d Hd]).
  assert (dl ≠ n_data n) as Hne by congruence.
  destruct Hext as [Hen Hed].
  unfold viewNode.
  assert (getNode (putData dl d' σ) l = getNode σ l) as -> by done.
  rewrite (getNode_lookup σ l n) by (by eapply lookup_weaken).
  f_equal. rewrite (getData_lookup σ (n_data n) d) by (by eapply lookup_weaken).
  apply getData_lookup. simpl. rewrite lookup_insert_ne by done. by eapply lookup_weaken.
Qed.

(** What a paste leaves as it is. *)
Lemma paste_invariant (E : Env) (clip : Clipboard) (st : AppState) :
  inMode ModeNormal st = true → ctrlDown st = true → clipboard st = Some clip →
  Forall (allocated (store st)) (clipLocs clip) →
  let st' := keydown E "v" true false st in
  inMode ModeNormal st' = true ∧ ctrlDown st' = true ∧ clipboard st' = Some clip
  ∧ extends (store st) (store st').
Proof.
  intros Hmode Hctrl Hclip Hall st'. subst st'.
  rewrite (keydown_paste E "v" false st (or_introl eq_refl) Hmode Hctrl), Hclip.
  assert (keyPaste E clip st = keyPaste E (ClipMulti (clipLocs clip)) st) as ->.
  { destruct clip; [apply keyPaste_single | done]. }
  destruct (keyPaste_multi_spec E (clipLocs clip) st Hall)
    as (clones & _ & _ & _ & _ & _ & _ & _ & Hext & Hst').
  split_and!; [| | | done]; rewrite Hst'; done.
Qed.

Lemma pastes_invariant (E : Env) (clip : Clipboard) (st : AppState) (n : nat) :
  inMode ModeNormal st = true → ctrlDown st = true → clipboard st = Some clip →
  Forall (allocated (store st)) (clipLocs clip) →
  let stn := Nat.iter n (keydown E "v" true false) st in
  inMode ModeNormal stn = true ∧ ctrlDown stn = true ∧ clipboard stn = Some clip
  ∧ extends (store st) (store stn).
Proof.
  intros Hmode Hctrl Hclip Hall. induction n as [| n IH]; simpl.
  - done.
  - destruct IH as (Hm & Hc & Hcl & Hext).
    destruct (paste_invariant E clip (Nat.iter n (keydown E "v" true false) st))
      as (Hm' & Hc' & Hcl' & Hext'); try done.
    + eapply Forall_impl; [done |]. intros l. by apply extends_allocated.
    + split_and!; try done. by etrans.
Qed.

(** C10.  After any number of pastes the clipboard is the same snapshot
    and its node objects hold what they held before the first paste; the
    nodes of the next paste lie at the position of their source in the
    snapshot plus 40 on both axes, whatever the number of pastes before;
    and writing a pasted node object or its [data] object changes neither
    what the clipboard holds nor what any node that existed before that
    paste holds. *)
Theorem C10_paste_keeps_clipboard (E : Env) (clip : Clipboard) (st : AppState) (n : nat) :
  inMode ModeNormal st = true → ctrlDown st = true → clipboard st = Some clip →
  Forall (allocated (store st)) (clipLocs clip) →
  let stn := Nat.iter n (keydown E "v" true false) st in
  let st' := keydown E "v" true false stn in
  clipboard stn = Some clip
  ∧ map (viewNode (store stn)) (clipLocs clip) = map (viewNode (store st)) (clipLocs clip)
  ∧ ∃ clones,
      nodes st' = nodes stn ++ clones
      ∧ length clones = length (clipLocs clip)
      ∧ ∀ k src c, clipLocs clip !! k = Some src → clones !! k = Some c →
          v_x (viewNode (store st') c) = v_x (viewNode (store st) src) + num 40 1
          ∧ v_y (viewNode (store st') c) = v_y (viewNode (store st) src) + num 40 1
          ∧ v_data (viewNode (store st') c) = v_data (viewNode (store st) src)
          ∧ ∀ (n' : NodeObj) (d' : gmap string string) (l : loc),
              allocated (store stn) l →
              viewNode (putNode c n' (store st')) l = viewNode (store stn) l
              ∧ viewNode (putData (n_data (getNode (store st') c)) d' (store st')) l
                = viewNode (store stn) l.
Proof.
  intros Hmode Hctrl Hclip Hall stn st'.
  destruct (pastes_invariant E clip st n Hmode Hctrl Hclip Hall)
    as (Hm & Hc & Hcl & Hext).
  fold stn in Hm, Hc, Hcl, Hext.
  assert (Forall (allocated (store stn)) (clipLocs clip)) as Halln.
  { eapply Forall_impl; [done |]. intros l. by apply extends_allocated. }
  assert (∀ src, src ∈ clipLocs clip →
            viewNode (store stn) src = viewNode (store st) src) as Hsame.
  { intros src Hsrc. apply extends_viewNode; [done |].
    by eapply (proj1 (Forall_forall _ _) Hall). }
  split_and!; [done | |].
  { apply list_eq. intros k. rewrite !list_lookup_fmap.
    destruct (clipLocs clip !! k) as [src |] eqn:Hk; [| done]. simpl.
    f_equal. apply Hsame. by eapply list_elem_of_lookup_2. }
  subst st'. rewrite (keydown_paste E "v" false stn (or_introl eq_refl) Hm Hc), Hcl.
  assert (keyPaste E clip stn = keyPaste E (ClipMulti (clipLocs clip)) stn) as ->.
  { destruct clip; [apply keyPaste_single | done]. }
  destruct (keyPaste_multi_spec E (clipLocs clip) stn Halln)
    as (clones & Hnodes & Hlen & _ & Hfresh & Hviews & _ & _ & Hext' & _).
  set (st' := keyPaste E (ClipMulti (clipLocs clip)) stn) in *. clearbody st'.
  exists clones. split_and!; [done | done |].
  intros k src c Hsrc Hc'.
  rewrite (Hviews k src c Hsrc Hc'), (Hsame src) by (by eapply list_elem_of_lookup_2).
  split_and!; [done | done | done |].
  destruct (Hfresh c) as (Hcn & Hcd & _); [by eapply list_elem_of_lookup_2 |].
  intros n' d' l Hl. split.
  - rewrite (putNode_frame (store stn)) by done. by apply extends_viewNode.
  - rewrite (putData_frame (store stn)) by done. by apply extends_viewNode.
Qed.

Lemma C10_paste_keeps_clipboard_witness :
  clipboard (Nat.iter 2 (keydown exEnv "v" true false) exCopied) = Some (ClipMulti [2%positive])
  ∧ map (viewNode (store (Nat.iter 2 (keydown exEnv "v" true false) exCopied))) [2%positive]
    = map (viewNode (store exCopied)) [2%positive].
Proof.
  assert (Forall (allocated (store exCopied)) (clipLocs (ClipMulti [2%positive]))) as Hall
    by by_compute.
  pose proof (C10_paste_keeps_clipboard exEnv (ClipMulti [2%positive]) exCopied 2
                eq_refl eq_refl eq_refl Hall) as H.
  cbv zeta in H. destruct H as (Hclip & Hview & _).
  split; [exact Hclip | exact Hview].
Defined.

(** ** C5: delete, undo, redo *)

Lemma filter_all {A} (P : A → Prop) `{∀ x, Decision (P x)} (l : list A) :
  Forall P l → filter P l = l.
Proof.
  induction 1 as [| x l Hx Hl IH]; [done |].
  rewrite filter_cons_True by done. by rewrite IH.
Qed.


(** The key handler on the Delete key, on the undo key and on the redo key. *)
Lemma keydown_delete (E : Env) (altKey answer : bool) (st : AppState) :
  keydown E "Delete" altKey answer st
  = match keyDelete answer st with Return s => s | Next s => s end.
Proof.
  unfold keydown.
  rewrite (bool_decide_eq_false_2 ("Delete" = "Shift")) by done.
  rewrite (bool_decide_eq_false_2 ("Delete" = "Control")) by done.
  rewrite (bool_decide_eq_true_2 ("Delete" = "Delete")) by done.
  destruct (keyDelete answer st) as [s | s]; [done |].
  simpl. rewrite ?andb_false_r.
  unfold keyCopyPaste. rewrite ?bool_decide_eq_false_2 by done.
  rewrite ?andb_false_r. by destruct (inMode ModeNormal s).
Qed.

Lemma keydown_undo (E : Env) (key : string) (altKey answer : bool) (st : AppState) :
  key = "z" ∨ key = "Z" → inMode ModeNormal st = true → ctrlDown st = true →
  keydown E key altKey answer st = keyNodeUndo st.
Proof.
  intros Hkey Hmode Hctrl. unfold keydown.
  assert (toLowerCase key = "z") as Hlow by (by destruct Hkey as [-> | ->]).
  rewrite !bool_decide_eq_false_2 by (by destruct Hkey as [-> | ->]).
  by rewrite Hlow, Hmode, Hctrl.
Qed.

Lemma keydown_redo (E : Env) (key : string) (altKey answer : bool) (st : AppState) :
  key = "y" ∨ key = "Y" → inMode ModeNormal st = true → ctrlDown st = true →
  keydown E key altKey answer st = keyNodeRedo st.
Proof.
  intros Hkey Hmode Hctrl. unfold keydown.
  assert (toLowerCase key = "y") as Hlow by (by destruct Hkey as [-> | ->]).
  rewrite !bool_decide_eq_false_2 by (by destruct Hkey as [-> | ->]).
  by rewrite Hlow, Hmode, Hctrl.
Qed.



(** The three keys in explicit form. *)
Lemma keydown_delete_result (E : Env) (st : AppState) (ids : list string) (altKey : bool) :
  idsToDelete st = Some ids →
  keydown E "Delete" altKey true st
  = scheduleSave (set_focusedId None (set_selectedIds []
      (set_nodes (filter (λ l, idOf (store st) l ∉ ids) (nodes st))
         (set_nodeRedo []
            (set_nodeUndo (filter (λ l, idOf (store st) l ∈ ids) (nodes st) :: nodeUndo st)
               st))))).
Proof.
  intros Hids. rewrite keydown_delete. unfold keyDelete. rewrite Hids. reflexivity.
Qed.

Lemma keydown_undo_result (E : Env) (st : AppState) (key : string) (altKey answer : bool)
    (batch : list loc) (rest : list (list loc)) :
  key = "z" ∨ key = "Z" → inMode ModeNormal st = true → ctrlDown st = true →
  nodeUndo st = batch :: rest →
  keydown E key altKey answer st
  = scheduleSave (set_nodeRedo (batch :: nodeRedo st)
      (set_nodes (nodes st ++ batch) (set_nodeUndo rest st))).
Proof.
  intros Hkey Hmode Hctrl Hundo. rewrite keydown_undo by done.
  unfold keyNodeUndo. rewrite Hundo. reflexivity.
Qed.





(** ** C2: the focus hard-lock on moves *)

Lemma findNode_Some (σ : Store) (ns : list loc) (i : string) (n : loc) :
  findNode σ ns i = Some n → n ∈ ns ∧ idOf σ n = i.
Proof.
  unfold findNode. destruct (list_find _ ns) as [[k l] |] eqn:Hfind; [| done].
  simpl. intros [= <-]. apply list_find_Some in Hfind as (Hk & Hid & _).
  split; [by eapply list_elem_of_lookup_2 | done].
Qed.

(** A drag step moves only nodes whose id is selected, and changes no id. *)
Lemma dragMoveIds_other (starts : gmap string (Qc * Qc)) (dx dy : Qc) (ns : list loc)
    (ids : list string) (σ : Store) (b : loc) :
  idOf σ b ∉ ids →
  getNode (dragMoveIds starts dx dy ns ids σ) b = getNode σ b.
Proof.
  revert σ. induction ids as [| i rest IH]; intros σ Hb; simpl; [done |].
  apply not_elem_of_cons in Hb as [Hi Hrest].
  destruct (findNode σ ns i) as [n |] eqn:Hfind; [| by apply IH].
  destruct (starts !! i) as [s |]; [| done].
  apply findNode_Some in Hfind as [_ Hid].
  assert (n ≠ b) as Hne by (intros ->; congruence).
  assert (getNode (putNode n (setPos (getNode σ n) (s.1 + dx) (s.2 + dy)) σ) b
          = getNode σ b) as Hget.
  { unfold getNode. simpl. by rewrite lookup_total_insert_ne. }
  rewrite IH; [done |]. unfold idOf. by rewrite Hget.
Qed.

Lemma listenerMove_frame (e : Mouse) (b : loc) (st : AppState) (l : Listener) :
  idOf (store st) b ∉ selectedIds st →
  (∀ c, l = LResize c → rz_node c ≠ b) →
  moveFrame b st (listenerMove e st l).
Proof.
  intros Hsel Hres. destruct l as [| c | c]; simpl.
  - done.
  - split_and!; [done | done |]. simpl. by apply dragMoveIds_other.
  - split_and!; [done | done |]. simpl.
    unfold getNode. simpl. rewrite lookup_total_insert_ne; [done |]. by apply Hres.
Qed.

Lemma windowMouseMove_frame (e : Mouse) (b : loc) (st : AppState) :
  idOf (store st) b ∉ selectedIds st →
  (∀ c, LResize c ∈ listeners st → rz_node c ≠ b) →
  moveFrame b st (windowMouseMove e st).
Proof.
  intros Hsel Hres. unfold windowMouseMove.
  set (st0 := if panning st then _ else st).
  assert (moveFrame b st st0) as Hst0 by (subst st0; by destruct (panning st)).
  assert (listeners st0 = listeners st) as -> by apply Hst0.
  clearbody st0. revert st0 Hst0.
  induction (listeners st) as [| l ls IH]; intros st0 Hst0; simpl; [done |].
  destruct Hst0 as (Hs0 & Hl0 & Hg0).
  apply IH.
  - intros c Hc. apply Hres. by right.
  - destruct (listenerMove_frame e b st0 l) as (Hs1 & Hl1 & Hg1).
    + unfold idOf. by rewrite Hg0, Hs0.
    + intros c ->. apply Hres. by left.
    + split_and!; congruence.
Qed.

Lemma mouseMoves_frame (E : Env) (moves : list Mouse) (b : loc) (st : AppState) :
  idOf (store st) b ∉ selectedIds st →
  (∀ c, LResize c ∈ listeners st → rz_node c ≠ b) →
  moveFrame b st (run E (map WindowMouseMove moves) st).
Proof.
  revert st. induction moves as [| e moves IH]; intros st Hsel Hres; simpl; [done |].
  destruct (windowMouseMove_frame e b st Hsel Hres) as (Hs1 & Hl1 & Hg1).
  destruct (IH (windowMouseMove e st)) as (Hs2 & Hl2 & Hg2).
  - unfold idOf. by rewrite Hg1, Hs1.
  - by rewrite Hl1.
  - split_and!; congruence.
Qed.

(** The viewport listener, which a press on a node reaches too when it
    bubbles, starts at most a pan while Control is up. *)
Lemma viewportMouseDown_frame (button : nat) (e : Mouse) (b : loc) (st : AppState) :
  ctrlDown st = false → moveFrame b st (viewportMouseDown button e st).
Proof.
  intros Hctrl. unfold viewportMouseDown. rewrite Hctrl.
  by repeat (case_match; try done).
Qed.

(** C2.  While a node holds the focus, pressing the mouse on another node
    that is not selected, without the modifier key, changes nothing and
    registers no listener (whether or not the press also reaches the
    listener of the viewport); whatever the pointer does next, the node
    object is as it was, so its position does not change. *)
Theorem C2_focus_hard_lock (E : Env) (st : AppState) (a : string) (b : loc)
    (button : nat) (onInput bubbles : bool) (e : Mouse) (moves : list Mouse) :
  focusedId st = Some a → a ≠ "" →
  idOf (store st) b ≠ a →
  idOf (store st) b ∉ selectedIds st →
  ctrlDown st = false →
  (∀ c, LResize c ∈ listeners st → rz_node c ≠ b) →
  let st1 := nodeMouseDown b button onInput e st in
  let st2 := if bubbles then viewportMouseDown button e st1 else st1 in
  let st3 := run E (map WindowMouseMove moves) st2 in
  st1 = st
  ∧ listeners st2 = listeners st
  ∧ n_x (getNode (store st3) b) = n_x (getNode (store st) b)
  ∧ n_y (getNode (store st3) b) = n_y (getNode (store st) b).
Proof.
  intros Hfocus Ha Hb Hsel Hctrl Hres st1 st2 st3.
  assert (st1 = st) as Hst1.
  { subst st1. unfold nodeMouseDown.
    assert (set_has (selectedIds st) (idOf (store st) b) = false) as ->.
    { apply not_true_is_false. by rewrite set_has_true. }
    rewrite andb_false_r.
    destruct (negb (inMode ModeNormal st) || negb (bool_decide (button = 0%nat))); [done |].
    destruct (shiftDown st); [done |]. destruct onInput; [done |].
    rewrite Hfocus, Hctrl. simpl. unfold truthy_str.
    rewrite (bool_decide_eq_false_2 (a = "")) by done.
    rewrite (bool_decide_eq_false_2 (Some a = Some (idOf (store st) b))) by congruence.
    done. }
  clearbody st1. subst st1.
  assert (moveFrame b st st2) as (Hs2 & Hl2 & Hg2).
  { subst st2. destruct bubbles; [by apply viewportMouseDown_frame | done]. }
  clearbody st2.
  destruct (mouseMoves_frame E moves b st2) as (_ & _ & Hg3).
  - unfold idOf. by rewrite Hg2, Hs2.
  - by rewrite Hl2.
  - subst st3. rewrite Hg3, Hg2. done.
Qed.

Lemma C2_focus_hard_lock_witness :
  focusedId exTwo = Some "uuid-1"
  ∧ n_x (getNode (store (run exEnv (map WindowMouseMove [mkMouse (num 700 1) (num 90 1)])
                           (viewportMouseDown 0 exMouse
                              (nodeMouseDown 1%positive 0 false exMouse exTwo))))
                 1%positive)
    = n_x (getNode (store exTwo) 1%positive).
Proof.
  split; [reflexivity |].
  apply (C2_focus_hard_lock exEnv exTwo "uuid-1" 1%positive 0 false true exMouse
           [mkMouse (num 700 1) (num 90 1)]).
  - reflexivity.
  - done.
  - by vm_compute.
  - by_compute.
  - reflexivity.
  - intros c Hc. by apply elem_of_nil in Hc.
Defined.

(** ** C7: what removes the focus *)

Lemma keydown_escape (E : Env) (altKey answer : bool) (st : AppState) :
  keydown E "Escape" altKey answer st = keyEscape st.
Proof.
  unfold keydown. rewrite !bool_decide_eq_false_2 by done.
  simpl. rewrite !andb_false_r. reflexivity.
Qed.

Lemma keyCopy_focus (st : AppState) : focusedId (keyCopy st) = focusedId st.
Proof.
  unfold keyCopy. case_bool_decide.
  - by destruct (deepCopyList _ _).
  - destruct (truthy_id (focusedId st)); [| done].
    destruct (findNode _ _ _); [| done]. by destruct (deepCopy _ _).
Qed.

Lemma listenerMoves_focus (e : Mouse) (ls : list Listener) (st : AppState) :
  focusedId (foldl (listenerMove e) st ls) = focusedId st.
Proof.
  revert st. induction ls as [| l ls IH]; intros st; simpl; [done |].
  rewrite IH. by destruct l.
Qed.

Lemma listenerUps_focus (e : Mouse) (dom : list DomNode) (ls : list Listener)
    (st : AppState) :
  LSelect ∉ ls ∨ selecting st = false →
  focusedId (foldl (listenerUp e dom) st ls) = focusedId st
  ∧ selecting (foldl (listenerUp e dom) st ls) = selecting st.
Proof.
  revert st. induction ls as [| l ls IH]; intros st Hsel; simpl; [done |].
  assert (focusedId (listenerUp e dom st l) = focusedId st
          ∧ selecting (listenerUp e dom st l) = selecting st) as [Hf Hs].
  { destruct l as [| c | c]; [| done | done]. simpl. unfold selectUp.
    destruct Hsel as [Hnot | Hfalse]; [| by rewrite Hfalse].
    exfalso. apply Hnot. by left. }
  destruct (IH (listenerUp e dom st l)) as [Hf' Hs'].
  - destruct Hsel as [Hnot | Hfalse]; [left | right; congruence].
    intros Hin. apply Hnot. by right.
  - split; congruence.
Qed.

(** C7 (as amended).  Escape clears the focus and the selection in one
    step.  It is not the only operation that takes the focus from a node:
    whenever the focus, held by a node with a non-empty id, is not the same
    after an event, the event is Escape, a confirmed Delete, a paste with a
    clipboard, the release that completes a selection box, a press on a
    node of a multi-node selection, a spawn, an import or a confirmed
    clear-all. *)
Theorem C7_unfocus_operations (E : Env) (st : AppState) :
  (∀ altKey answer,
     focusedId (handle E (KeyDown "Escape" altKey answer) st) = None
     ∧ selectedIds (handle E (KeyDown "Escape" altKey answer) st) = [])
  ∧ (∀ ev a, focusedId st = Some a → a ≠ "" →
       focusedId (handle E ev st) ≠ Some a → unfocusing ev st).
Proof.
  split.
  - intros altKey answer. simpl. by rewrite keydown_escape.
  - intros ev a Hfocus Ha Hchg.
    assert (truthy_id (focusedId st) = true) as Htruthy.
    { rewrite Hfocus. simpl. unfold truthy_str. by rewrite bool_decide_eq_false_2. }
    destruct ev as [key altKey answer | key | shiftKey deltaY rect e | button e | e | e dom
                   | l onInput | l button onInput e | l pos e | l k value | t rect | |
                   | content | answer | raw |]; simpl in *.
    + (* keydown *)
      destruct (decide (key = "Escape")) as [-> | Hesc]; [by left |].
      destruct (decide (key = "Delete")) as [-> | Hdel].
      { destruct answer; [right; left; done |]. exfalso. apply Hchg.
        rewrite keydown_delete. unfold keyDelete.
        by destruct (idsToDelete st). }
      destruct (decide (toLowerCase key = "v" ∧ altKey = true ∧ is_Some (clipboard st)))
        as [Hv | Hnv]; [by right; right |].
      exfalso. apply Hchg. unfold keydown.
      rewrite (bool_decide_eq_false_2 (key = "Delete")) by done.
      rewrite (bool_decide_eq_false_2 (key = "Escape")) by done.
      set (st1 := if bool_decide (key = "Shift") then _ else st).
      set (st2 := if bool_decide (key = "Control") then _ else st1).
      assert (focusedId st2 = Some a ∧ clipboard st2 = clipboard st) as [Hf2 Hc2].
      { subst st2 st1. by repeat case_bool_decide. }
      clearbody st2. clear st1.
      destruct (inMode ModeNormal st2 && ctrlDown st2 && bool_decide (toLowerCase key = "z")).
      { unfold keyNodeUndo. by destruct (nodeUndo st2). }
      destruct (inMode ModeNormal st2 && ctrlDown st2 && bool_decide (toLowerCase key = "y")).
      { unfold keyNodeRedo. by destruct (nodeRedo st2). }
      destruct (inMode ModeDraw st2 && ctrlDown st2 && bool_decide (toLowerCase key = "z")).
      { unfold keyDrawUndo. by destruct (last (drawings st2)). }
      destruct (inMode ModeDraw st2 && ctrlDown st2 && bool_decide (toLowerCase key = "y")).
      { unfold keyDrawRedo. by destruct (drawRedo st2). }
      destruct (inMode ModeNormal st2); [| done].
      unfold keyCopyPaste.
      set (st3 := if ctrlDown st2 && altKey && bool_decide (toLowerCase key = "c")
                  then keyCopy st2 else st2).
      destruct (ctrlDown st3 && altKey && bool_decide (toLowerCase key = "v")) eqn:Hpaste.
      * apply andb_prop in Hpaste as [[_ ->]%andb_prop Hkv%bool_decide_eq_true].
        assert (st3 = st2) as ->.
        { subst st3. rewrite Hkv. by rewrite andb_false_r. }
        destruct (clipboard st2) as [clip |] eqn:Hclip; [| done].
        exfalso. apply Hnv. split_and!; [done | done |]. rewrite <- Hc2. eauto.
      * subst st3. destruct (ctrlDown st2 && altKey && bool_decide (toLowerCase key = "c"));
          [by rewrite keyCopy_focus | done].
    + (* keyup *)
      exfalso. apply Hchg. unfold keyup. by repeat case_bool_decide.
    + (* wheel *)
      exfalso. apply Hchg. unfold wheel. by destruct shiftKey.
    + (* viewport mousedown *)
      exfalso. apply Hchg. unfold viewportMouseDown.
      by repeat (case_match; try done).
    + (* mousemove *)
      exfalso. apply Hchg. unfold windowMouseMove. rewrite listenerMoves_focus.
      by destruct (panning st).
    + (* mouseup *)
      destruct (decide (LSelect ∈ listeners st)) as [Hin | Hnot];
        [destruct (selecting st) eqn:Hsel; [done |] |].
      * exfalso. apply Hchg. unfold windowMouseUp.
        etrans; [refine (proj1 (listenerUps_focus e dom _ _ _)); right; exact Hsel |].
        exact Hfocus.
      * exfalso. apply Hchg. unfold windowMouseUp.
        etrans; [refine (proj1 (listenerUps_focus e dom _ _ _)); left; exact Hnot |].
        exact Hfocus.
    + (* dblclick *)
      exfalso. apply Hchg. unfold nodeDblClick.
      destruct (shiftDown st); [done |]. destruct onInput; [done |].
      rewrite Htruthy. simpl. case_bool_decide as Heq; simpl; [| done]. congruence.
    + (* node mousedown *)
      unfold nodeMouseDown in Hchg.
      destruct (bool_decide (1 < length (selectedIds st))%nat
                && set_has (selectedIds st) (idOf (store st) l)) eqn:Hgroup.
      { apply andb_prop in Hgroup as [Hlen%bool_decide_eq_true Hhas%set_has_true]. done. }
      exfalso. apply Hchg.
      repeat (case_match; simpl in *; try done); try congruence.
      all: rewrite Htruthy in *; done.
    + (* resize mousedown *) by exfalso.
    + (* field input *) by exfalso.
    + (* spawn *) done.
    + (* draw toggle *) by exfalso.
    + (* text toggle *) by exfalso.
    + (* import *) done.
    + (* clear all *)
      destruct answer; [done |]. by exfalso.
    + (* load *)
      exfalso. apply Hchg. unfold loadFromStorage.
      destruct raw as [raw |]; [| done]. destruct (truthy_str raw); simpl; [| done].
      destruct (JSON_parse E raw) as [[| d] |]; try done.
      unfold assignDoc. destruct (allocNodeVals _ _) as [σ ns].
      destruct (doc_meta d) as [m |]; [| done]. unfold assignMeta.
      by destruct (meta_zoom m), (meta_panX m), (meta_panY m).
    + (* save timer *) by exfalso.
Qed.


Lemma C7_unfocus_operations_witness : unfocusing (exBoxRelease [exDomHost]) exBoxOpen.
Proof.
  apply (proj2 (C7_unfocus_operations exEnv exBoxOpen) (exBoxRelease [exDomHost]) "uuid-0").
  - reflexivity.
  - done.
  - by vm_compute.
Defined.

(** The release that completes a selection box takes the focus from the
    focused node, and it is not a press of Escape; here it also leaves a
    selection that is not empty. *)
Lemma C7_counterexample :
  ¬ (∀ (E : Env) (ev : Event) (st : AppState) (a : string),
       focusedId st = Some a → focusedId (handle E ev st) ≠ Some a →
       ∃ altKey answer, ev = KeyDown "Escape" altKey answer).
Proof.
  intros H.
  destruct (H exEnv (exBoxRelease [exDomHost]) exBoxOpen "uuid-0")
    as (altKey & answer & Hev).
  - reflexivity.
  - by vm_compute.
  - discriminate Hev.
Qed.

(** ** C8: focus and the removal of nodes *)

(** The Delete key clears the selection and the focus; the redo key
    removes the nodes of the batch and leaves both as they are. *)
Lemma delete_clears_focus (E : Env) (st : AppState) (ids : list string) (altKey : bool) :
  idsToDelete st = Some ids →
  focusedId (keydown E "Delete" altKey true st) = None
  ∧ selectedIds (keydown E "Delete" altKey true st) = [].
Proof. intros Hids. by rewrite (keydown_delete_result E st ids altKey Hids). Qed.

Lemma redo_keeps_focus (st : AppState) :
  focusedId (keyNodeRedo st) = focusedId st
  ∧ selectedIds (keyNodeRedo st) = selectedIds st.
Proof. unfold keyNodeRedo. by destruct (nodeRedo st). Qed.

(** C8 (the code departs from it).  A host is spawned, deleted, brought
    back by undo and focused by a double click; redoing the deletion
    removes the node and leaves its id as the focus and in the selection,
    so the focus names a node that the node list no longer has. *)
Theorem C8_redo_leaves_focus :
  focusedId (run exEnv exRedoTrace initialState) = Some "uuid-0"
  ∧ selectedIds (run exEnv exRedoTrace initialState) = ["uuid-0"]
  ∧ nodes (run exEnv exRedoTrace initialState) = []
  ∧ ¬ (∃ l, l ∈ nodes (run exEnv exRedoTrace initialState)
            ∧ idOf (store (run exEnv exRedoTrace initialState)) l = "uuid-0").
Proof.
  assert (nodes (run exEnv exRedoTrace initialState) = []) as Hnodes by (by vm_compute).
  split_and!; [by vm_compute | by vm_compute | done |].
  rewrite Hnodes. intros (l & Hl & _). by apply elem_of_nil in Hl.
Qed.


(** ** Well-formed states

    Every handler keeps the references of the state allocated, so the
    clipboard and the node list of a reachable state are allocated, as the
    statements on paste assume. *)

Lemma extends_grows (σ σ' : Store) : extends σ σ' → grows σ σ'.
Proof. intros Hext l. by apply extends_allocated. Qed.

Lemma wfRefs_grows (σ σ' : Store) (ns : list loc) (undo redo : list (list loc))
    (clip : option Clipboard) (ls : list Listener) :
  grows σ σ' → wfRefs σ ns undo redo clip ls → wfRefs σ' ns undo redo clip ls.
Proof.
  intros Hg (Hn & Hu & Hr & Hc & Hl).
  assert (∀ l, Forall (allocated σ) l → Forall (allocated σ') l) as Hall.
  { intros l Hal. eapply Forall_impl; [exact Hal | exact Hg]. }
  split_and!; auto; eapply Forall_impl; eauto.
Qed.

Lemma putNode_grows (σ : Store) (l : loc) (n' : NodeObj) :
  allocated σ l → n_data n' = n_data (getNode σ l) → grows σ (putNode l n' σ).
Proof.
  intros (n & Hn & Hd) Hdata l' (n0 & Hn0 & Hd0).
  rewrite (getNode_lookup σ l n Hn) in Hdata.
  destruct (decide (l' = l)) as [-> | Hne].
  - exists n'. split; [simpl; apply lookup_insert_eq |]. simpl. by rewrite Hdata.
  - exists n0. split; [simpl; by rewrite lookup_insert_ne | done].
Qed.

Lemma putData_grows (σ : Store) (dl : loc) (d : gmap string string) :
  grows σ (putData dl d σ).
Proof.
  intros l (n & Hn & Hd). exists n. split; [done |]. simpl.
  destruct (decide (n_data n = dl)) as [-> | Hne].
  - rewrite lookup_insert_eq. eauto.
  - by rewrite lookup_insert_ne.
Qed.

Lemma deepCopyList_spec (ls : list loc) (σ σ' : Store) (cs : list loc) :
  deepCopyList σ ls = (σ', cs) →
  extends σ σ' ∧ Forall (allocated σ') cs ∧ Forall (λ c, nodeHeap σ !! c = None) cs
  ∧ (Forall (allocated σ) ls → map (viewNode σ') cs = map (viewNode σ) ls).
Proof.
  revert σ σ' cs. induction ls as [| l rest IH]; intros σ σ' cs; cbn [deepCopyList].
  - intros [= <- <-]. split_and!; [done | constructor | constructor | done].
  - destruct (deepCopy σ l) as [σ1 c] eqn:Hcopy.
    apply deepCopy_spec in Hcopy as (Hn & _ & Hext1 & Hc & Hview).
    destruct (deepCopyList σ1 rest) as [σ2 cs'] eqn:Hrec.
    apply IH in Hrec as (Hext2 & Hall & Hnew & Hviews).
    intros [= <- <-]. split_and!.
    + by etrans.
    + constructor; [by eapply extends_allocated | done].
    + constructor; [done |]. eapply Forall_impl; [done |]. simpl.
      intros c' Hc'. destruct Hext1 as [Hen _].
      destruct (nodeHeap σ !! c') eqn:Hlook; [| done].
      eapply lookup_weaken in Hlook; [| done]. congruence.
    + intros [Hl Hrest]%Forall_cons. simpl. f_equal.
      * rewrite (extends_viewNode σ1 σ2) by done. done.
      * rewrite Hviews.
        -- apply list_eq. intros k. rewrite !list_lookup_fmap.
           destruct (rest !! k) as [r |] eqn:Hk; [| done]. simpl. f_equal.
           apply extends_viewNode; [done |]. by eapply Forall_lookup_1.
        -- eapply Forall_impl; [done |]. intros r. by apply extends_allocated.
Qed.

Lemma allocNodeVal_spec (v : NodeVal) (σ σ' : Store) (c : loc) :
  allocNodeVal v σ = (σ', c) →
  extends σ σ' ∧ allocated σ' c ∧ viewNode σ' c = v.
Proof.
  unfold allocNodeVal.
  pose proof (alloc_pair_spec
    (λ dl, mkNode (v_id v) (v_type v) (v_x v) (v_y v) (v_w v) (v_h v) dl) (v_data v) σ)
    as Hspec.
  destruct (allocData _ σ) as [σ1 dl].
  destruct (allocNode _ σ1) as [σ2 nl].
  destruct Hspec as (Hn & Hd & Hn2 & Hd2); [done |].
  intros [= <- <-]. split_and!.
  - split; [rewrite Hn2 | rewrite Hd2]; by apply insert_subseteq.
  - eexists. split; [rewrite Hn2; apply lookup_insert_eq |].
    simpl. rewrite Hd2, lookup_insert_eq. eauto.
  - unfold viewNode.
    rewrite (getNode_lookup σ2 nl _ ltac:(rewrite Hn2; apply lookup_insert_eq)). simpl.
    rewrite (getData_lookup σ2 dl _ ltac:(rewrite Hd2; apply lookup_insert_eq)).
    by destruct v.
Qed.

Lemma allocNodeVals_spec (vs : list NodeVal) (σ σ' : Store) (cs : list loc) :
  allocNodeVals σ vs = (σ', cs) →
  extends σ σ' ∧ Forall (allocated σ') cs ∧ map (viewNode σ') cs = vs.
Proof.
  revert σ σ' cs. induction vs as [| v rest IH]; intros σ σ' cs; cbn [allocNodeVals].
  - intros [= <- <-]. split_and!; [done | constructor | done].
  - destruct (allocNodeVal v σ) as [σ1 c] eqn:Hone.
    apply allocNodeVal_spec in Hone as (Hext1 & Hc & Hview).
    destruct (allocNodeVals σ1 rest) as [σ2 cs'] eqn:Hrec.
    apply IH in Hrec as (Hext2 & Hall & Hviews).
    intros [= <- <-]. split_and!.
    + by etrans.
    + constructor; [by eapply extends_allocated | done].
    + simpl. f_equal; [| done]. by rewrite (extends_viewNode σ1 σ2).
Qed.

Lemma dragMoveIds_grows (starts : gmap string (Qc * Qc)) (dx dy : Qc) (ns : list loc)
    (ids : list string) (σ : Store) :
  Forall (allocated σ) ns → grows σ (dragMoveIds starts dx dy ns ids σ).
Proof.
  revert σ. induction ids as [| i rest IH]; intros σ Hns; simpl; [by intros l Hl |].
  destruct (findNode σ ns i) as [n |] eqn:Hfind; [| by apply IH].
  destruct (starts !! i) as [s |]; [| by intros l Hl].
  apply findNode_Some in Hfind as [Hin _].
  assert (grows σ (putNode n (setPos (getNode σ n) (s.1 + dx) (s.2 + dy)) σ)) as Hg.
  { apply putNode_grows; [| done]. by eapply (proj1 (Forall_forall _ _) Hns). }
  intros l Hl. apply IH; [| by apply Hg].
  eapply Forall_impl; [done |]. exact Hg.
Qed.

Lemma resizeRefs_app (ls ls' : list Listener) :
  resizeRefs (ls ++ ls') = resizeRefs ls ++ resizeRefs ls'.
Proof. unfold resizeRefs. apply omap_app. Qed.


Lemma Forall_filter_sub {A} (P : A → Prop) (Q : A → Prop) `{∀ x, Decision (Q x)}
    (l : list A) :
  Forall P l → Forall P (filter Q l).
Proof.
  intros Hall. apply Forall_forall. intros x [_ Hx]%list_elem_of_filter.
  by eapply (proj1 (Forall_forall _ _) Hall).
Qed.

Lemma wf_keyDelete (answer : bool) (st : AppState) :
  wf st → wf (match keyDelete answer st with Return s => s | Next s => s end).
Proof.
  intros Hwf. unfold keyDelete. destruct (idsToDelete st) as [ids |]; [| done].
  destruct answer; [| done].
  destruct Hwf as (Hn & Hu & Hr & Hc & Hl).
  split_and!; simpl; try done.
  - by apply Forall_filter_sub.
  - constructor; [by apply Forall_filter_sub | done].
Qed.

Lemma wf_keyNodeUndo (st : AppState) : wf st → wf (keyNodeUndo st).
Proof.
  intros Hwf. unfold keyNodeUndo. destruct (nodeUndo st) as [| batch rest] eqn:Hundo;
    [done |].
  destruct Hwf as (Hn & Hu & Hr & Hc & Hl). rewrite Hundo in Hu.
  apply Forall_cons in Hu as [Hb Hrest].
  split_and!; simpl; try done.
  - by apply Forall_app.
  - by constructor.
Qed.

Lemma wf_keyNodeRedo (st : AppState) : wf st → wf (keyNodeRedo st).
Proof.
  intros Hwf. unfold keyNodeRedo. destruct (nodeRedo st) as [| batch rest] eqn:Hredo;
    [done |].
  destruct Hwf as (Hn & Hu & Hr & Hc & Hl). rewrite Hredo in Hr.
  apply Forall_cons in Hr as [Hb Hrest].
  split_and!; simpl; try done.
  - by apply Forall_filter_sub.
  - by constructor.
Qed.

Lemma wf_keyCopy (st : AppState) : wf st → wf (keyCopy st).
Proof.
  intros Hwf. unfold keyCopy. case_bool_decide.
  - destruct (deepCopyList _ _) as [σ copies] eqn:Hcopy.
    apply deepCopyList_spec in Hcopy as (Hext & Hall & _).
    destruct (wfRefs_grows _ _ _ _ _ _ _ (extends_grows _ _ Hext) Hwf)
      as (Hn & Hu & Hr & Hc & Hl).
    by split_and!.
  - destruct (truthy_id (focusedId st)); [| done].
    destruct (findNode _ _ _) as [n |]; [| done].
    destruct (deepCopy (store st) n) as [σ copy] eqn:Hcopy.
    apply deepCopy_spec in Hcopy as (_ & _ & Hext & Hall & _).
    destruct (wfRefs_grows _ _ _ _ _ _ _ (extends_grows _ _ Hext) Hwf)
      as (Hn & Hu & Hr & Hc & Hl).
    split_and!; simpl; try done. by constructor.
Qed.

Lemma wf_keyPaste (E : Env) (clip : Clipboard) (st : AppState) :
  clipboard st = Some clip → wf st → wf (keyPaste E clip st).
Proof.
  intros Hclip Hwf.
  assert (keyPaste E clip st = keyPaste E (ClipMulti (clipLocs clip)) st) as ->.
  { destruct clip; [apply keyPaste_single | done]. }
  assert (Forall (allocated (store st)) (clipLocs clip)) as Hsrcs.
  { destruct Hwf as (_ & _ & _ & Hc & _). by rewrite Hclip in Hc. }
  destruct (keyPaste_multi_spec E (clipLocs clip) st Hsrcs)
    as (clones & Hnodes & _ & _ & Hfresh & _ & _ & _ & Hext & Hst').
  set (st' := keyPaste E (ClipMulti (clipLocs clip)) st) in *. clearbody st'.
  destruct (wfRefs_grows _ _ _ _ _ _ _ (extends_grows _ _ Hext) Hwf)
    as (Hn & Hu & Hr & Hc & Hl).
  unfold wf. rewrite Hnodes.
  assert (nodeUndo st' = nodeUndo st ∧ nodeRedo st' = nodeRedo st
          ∧ clipboard st' = clipboard st ∧ listeners st' = listeners st)
    as (-> & -> & -> & ->) by (by rewrite Hst').
  split_and!; try done.
  apply Forall_app. split; [done |]. apply Forall_forall. intros c Hc'.
  by apply Hfresh.
Qed.

Lemma wf_keydown (E : Env) (key : string) (altKey answer : bool) (st : AppState) :
  wf st → wf (keydown E key altKey answer st).
Proof.
  intros Hwf. unfold keydown.
  set (st1 := if bool_decide (key = "Shift") then _ else st).
  set (st2 := if bool_decide (key = "Control") then _ else st1).
  assert (wf st2) as Hwf2 by (subst st2 st1; by repeat case_bool_decide).
  clearbody st2. clear st1.
  assert (∃ st3, wf st3
            ∧ (if bool_decide (key = "Delete") then keyDelete answer st2 else Next st2)
              = Next st3
          ∨ (if bool_decide (key = "Delete") then keyDelete answer st2 else Next st2)
              = Return st3 ∧ wf st3) as (st3 & [[Hwf3 ->] | [-> Hwf3]]); [| | done].
  { case_bool_decide; [| by exists st2; left].
    pose proof (wf_keyDelete answer st2 Hwf2) as Hd.
    destruct (keyDelete answer st2) as [s | s]; exists s; [by right | by left]. }
  repeat case_match; try done.
  - by apply wf_keyNodeUndo.
  - by apply wf_keyNodeRedo.
  - unfold keyDrawUndo. by destruct (last (drawings st3)).
  - unfold keyDrawRedo. by destruct (drawRedo st3).
  - unfold keyCopyPaste.
    set (st4 := if ctrlDown st3 && altKey && bool_decide (toLowerCase key = "c")
                then keyCopy st3 else st3).
    assert (wf st4) as Hwf4 by (subst st4; case_match; [by apply wf_keyCopy | done]).
    clearbody st4. case_match; [| done].
    destruct (clipboard st4) as [clip |] eqn:Hclip; [| done]. by apply wf_keyPaste.
Qed.

Lemma wf_listenerMoves (e : Mouse) (ls : list Listener) (st : AppState) :
  wf st → Forall (allocated (store st)) (resizeRefs ls) →
  wf (foldl (listenerMove e) st ls).
Proof.
  revert st. induction ls as [| l ls IH]; intros st Hwf Hls; simpl; [done |].
  assert (grows (store st) (store (listenerMove e st l))
          ∧ wf (listenerMove e st l)) as [Hg Hwf'].
  { destruct l as [| c | c]; simpl.
    - split; [by intros l Hl | done].
    - assert (grows (store st) (dragMoveIds (d_starts c)
                ((clientX e - d_sx c) / zoom st) ((clientY e - d_sy c) / zoom st)
                (nodes st) (selectedIds st) (store st))) as Hg.
      { apply dragMoveIds_grows. apply Hwf. }
      split; [done |]. exact (wfRefs_grows _ _ _ _ _ _ _ Hg Hwf).
    - simpl in Hls. apply Forall_cons in Hls as [Hc _].
      set (node := if cornerHas (rz_pos c) "t" then _ else _).
      assert (grows (store st) (putNode (rz_node c) node (store st))) as Hg.
      { apply putNode_grows; [done |]. subst node. by repeat case_match. }
      split; [done |]. exact (wfRefs_grows _ _ _ _ _ _ _ Hg Hwf). }
  apply IH; [done |].
  assert (Forall (allocated (store st)) (resizeRefs ls)) as Hrest.
  { destruct l; simpl in Hls; [done | done |]. by apply Forall_cons in Hls as [_ ?]. }
  eapply Forall_impl; [exact Hrest | exact Hg].
Qed.

Lemma wf_listenerUps (e : Mouse) (dom : list DomNode) (ls : list Listener)
    (st : AppState) :
  wf st → wf (foldl (listenerUp e dom) st ls).
Proof.
  revert st. induction ls as [| l ls IH]; intros st Hwf; simpl; [done |].
  apply IH. destruct l as [| c | c]; simpl; [| done | done].
  unfold selectUp. destruct (selecting st); simpl; [| done].
  by destruct (selectStart st) as [[x1 y1] |].
Qed.

(** Every handler keeps a well-formed state well formed. *)
Lemma wf_handle (E : Env) (ev : Event) (st : AppState) :
  wf st → enabled ev st → wf (handle E ev st).
Proof.
  intros Hwf Hen.
  destruct ev as [key altKey answer | key | shiftKey deltaY rect e | button e | e | e dom
                 | l onInput | l button onInput e | l pos e | l k value | t rect | |
                 | content | answer | raw |]; simpl in *.
  - by apply wf_keydown.
  - unfold keyup. by repeat case_bool_decide.
  - unfold wheel. by destruct shiftKey.
  - unfold viewportMouseDown. repeat (case_match; try done).
    destruct Hwf as (Hn & Hu & Hr & Hc & Hl).
    split_and!; simpl; try done. rewrite resizeRefs_app. simpl. by rewrite app_nil_r.
  - unfold windowMouseMove.
    set (st0 := if panning st then _ else st).
    assert (wf st0 ∧ listeners st0 = listeners st ∧ store st0 = store st)
      as (Hwf0 & -> & Hs0) by (subst st0; by destruct (panning st)).
    apply wf_listenerMoves; [done |]. rewrite Hs0. apply Hwf.
  - unfold windowMouseUp. apply wf_listenerUps.
    destruct Hwf as (Hn & Hu & Hr & Hc & Hl). by split_and!.
  - unfold nodeDblClick. by repeat (case_match; try done).
  - unfold nodeMouseDown.
    set (st0 := if _ && _ then set_focusedId None st else st).
    assert (wf st0) as Hwf0 by (subst st0; by case_match).
    clearbody st0.
    repeat (case_match; try done).
    all: destruct Hwf0 as (Hn & Hu & Hr & Hc & Hl).
    all: split_and!; simpl; try done.
    all: rewrite resizeRefs_app; simpl; by rewrite app_nil_r.
  - destruct Hen as [Hin _]. unfold resizeMouseDown.
    destruct Hwf as (Hn & Hu & Hr & Hc & Hl). split_and!; simpl; try done.
    rewrite resizeRefs_app. apply Forall_app. split; [done |]. simpl.
    constructor; [| constructor]. by eapply (proj1 (Forall_forall _ _) Hn).
  - unfold fieldInput.
    exact (wfRefs_grows _ _ _ _ _ _ _ (putData_grows _ _ _) Hwf).
  - unfold spawn. destruct (spawnSize t) as [w h].
    pose proof (alloc_pair_spec
      (λ dl, mkNode (randomUUID E (uuidCalls st)) t
               ((vr_width rect / num 2 1 - panX st) / zoom st - w / num 2 1)
               ((vr_height rect / num 2 1 - panY st) / zoom st - h / num 2 1) w h dl)
      (spawnData t) (store st)) as Hspec.
    change (store (set_uuidCalls (S (uuidCalls st)) st)) with (store st).
    change (panX (set_uuidCalls (S (uuidCalls st)) st)) with (panX st).
    change (panY (set_uuidCalls (S (uuidCalls st)) st)) with (panY st).
    change (zoom (set_uuidCalls (S (uuidCalls st)) st)) with (zoom st).
    destruct (allocData (spawnData t) (store st)) as [σ1 dl].
    destruct (allocNode _ σ1) as [σ2 nl].
    destruct Hspec as (Hnl & Hdl & Hn2 & Hd2); [done |].
    assert (extends (store st) σ2) as Hext.
    { split; [rewrite Hn2 | rewrite Hd2]; by apply insert_subseteq. }
    destruct (wfRefs_grows _ _ _ _ _ _ _ (extends_grows _ _ Hext) Hwf)
      as (Hn & Hu & Hr & Hc & Hl).
    split_and!; simpl; try done.
    apply Forall_app. split; [done |]. constructor; [| constructor].
    eexists. split; [rewrite Hn2; apply lookup_insert_eq |].
    simpl. rewrite Hd2, lookup_insert_eq. eauto.
  - done.
  - done.
  - unfold importState. destruct (JSON_parse E content) as [[| d] |]; try done.
    unfold assignDoc.
    destruct (allocNodeVals _ _) as [σ ns] eqn:Halloc.
    apply allocNodeVals_spec in Halloc as (Hext & Hall & _).
    destruct (wfRefs_grows _ _ _ _ _ _ _ (extends_grows _ _ Hext) Hwf)
      as (Hn & Hu & Hr & Hc & Hl).
    by split_and!.
  - unfold clearAll. destruct answer; simpl; [| done].
    destruct Hwf as (Hn & Hu & Hr & Hc & Hl). by split_and!.
  - unfold loadFromStorage. destruct raw as [raw |]; [| done].
    destruct (truthy_str raw); simpl; [| done].
    destruct (JSON_parse E raw) as [[| d] |]; try done.
    assert (wf (assignDoc d st)) as Hwf'.
    { unfold assignDoc. destruct (allocNodeVals _ _) as [σ ns] eqn:Halloc.
      apply allocNodeVals_spec in Halloc as (Hext & Hall & _).
      destruct (wfRefs_grows _ _ _ _ _ _ _ (extends_grows _ _ Hext) Hwf)
        as (Hn & Hu & Hr & Hc & Hl).
      by split_and!. }
    destruct (doc_meta d) as [m |]; [| done]. unfold assignMeta.
    by destruct (meta_zoom m), (meta_panX m), (meta_panY m).
  - done.
Qed.

(** Reachable states are well formed. *)
Lemma reachable_wf (E : Env) (st : AppState) : reachable E st → wf st.
Proof.
  induction 1 as [| st ev Hreach IH Hen].
  - split_and!; constructor.
  - by apply wf_handle.
Qed.


(** In a reachable state the clipboard and the node list are allocated. *)
Lemma reachable_clipboard (E : Env) (st : AppState) (clip : Clipboard) :
  reachable E st → clipboard st = Some clip →
  Forall (allocated (store st)) (clipLocs clip)
  ∧ Forall (allocated (store st)) (nodes st).
Proof.
  intros Hreach Hclip. apply reachable_wf in Hreach as (Hn & _ & _ & Hc & _).
  by rewrite Hclip in Hc.
Qed.

(** ** The zoom range outside the load path

    Of all handlers only the wheel listener and [loadFromStorage] assign
    [zoom]; every event other than a load keeps it in [0.1, 2]. *)
Lemma listenerMoves_zoom (e : Mouse) (ls : list Listener) (st : AppState) :
  zoom (foldl (listenerMove e) st ls) = zoom st.
Proof.
  revert st. induction ls as [| l ls IH]; intros st; simpl; [done |].
  rewrite IH. by destruct l.
Qed.

Lemma listenerUps_zoom (e : Mouse) (dom : list DomNode) (ls : list Listener)
    (st : AppState) :
  zoom (foldl (listenerUp e dom) st ls) = zoom st.
Proof.
  revert st. induction ls as [| l ls IH]; intros st; simpl; [done |].
  rewrite IH. destruct l as [| c | c]; simpl; [| done | done].
  unfold selectUp. destruct (selecting st); simpl; [| done].
  by destruct (selectStart st) as [[x1 y1] |].
Qed.

Lemma cloneNodes_zoom (E : Env) (srcs : list loc) (st : AppState) :
  zoom (cloneNodes E st srcs).1 = zoom st.
Proof.
  revert st. induction srcs as [| src rest IH]; intros st; cbn [cloneNodes]; [done |].
  unfold cloneNode. destruct (deepCopy (store st) src) as [σ c].
  match goal with |- context [cloneNodes E ?s rest] => specialize (IH s) end.
  destruct (cloneNodes E _ rest) as [st2 cs]. exact IH.
Qed.

Lemma keyCopy_zoom (st : AppState) : zoom (keyCopy st) = zoom st.
Proof.
  unfold keyCopy. case_bool_decide.
  - by destruct (deepCopyList _ _).
  - destruct (truthy_id (focusedId st)); [| done].
    destruct (findNode _ _ _); [| done]. by destruct (deepCopy _ _).
Qed.

Lemma keydown_zoom (E : Env) (key : string) (altKey answer : bool) (st : AppState) :
  zoom (keydown E key altKey answer st) = zoom st.
Proof.
  unfold keydown.
  set (st1 := if bool_decide (key = "Shift") then _ else st).
  set (st2 := if bool_decide (key = "Control") then _ else st1).
  assert (zoom st2 = zoom st) as <- by (subst st2 st1; by repeat case_bool_decide).
  clearbody st2. clear st1.
  assert (∀ f, zoom (match f with Return s => s | Next s => s end) = zoom st2 →
               match f with
               | Return s => zoom s = zoom st2
               | Next s => zoom s = zoom st2
               end) as Hflow by (by intros [s | s]).
  assert (zoom (match (if bool_decide (key = "Delete") then keyDelete answer st2
                       else Next st2) with Return s => s | Next s => s end) = zoom st2)
    as Hdel.
  { case_bool_decide; [| done]. unfold keyDelete.
    destruct (idsToDelete st2); [| done]. by destruct answer. }
  apply Hflow in Hdel.
  destruct (if bool_decide (key = "Delete") then keyDelete answer st2 else Next st2)
    as [s | s]; [done |].
  rewrite <- Hdel. clear Hdel Hflow.
  repeat case_match; try done.
  - unfold keyNodeUndo. by destruct (nodeUndo s).
  - unfold keyNodeRedo. by destruct (nodeRedo s).
  - unfold keyDrawUndo. by destruct (last (drawings s)).
  - unfold keyDrawRedo. by destruct (drawRedo s).
  - unfold keyCopyPaste.
    set (s4 := if ctrlDown s && altKey && bool_decide (toLowerCase key = "c")
               then keyCopy s else s).
    assert (zoom s4 = zoom s) as <-.
    { subst s4. case_match; [apply keyCopy_zoom | done]. }
    clearbody s4. case_match; [| done].
    destruct (clipboard s4) as [clip |]; [| done].
    rewrite (match clip as c return keyPaste E c s4 =
               keyPaste E (ClipMulti (clipLocs c)) s4
             with ClipSingle src => keyPaste_single E src s4 | ClipMulti _ => eq_refl end).
    unfold keyPaste.
    pose proof (cloneNodes_zoom E (clipLocs clip) (set_selectedIds [] s4)) as Hz.
    destruct (cloneNodes E (set_selectedIds [] s4) (clipLocs clip)) as [s5 clones].
    simpl in Hz. by destruct clones.
Qed.

Lemma zoom_range_preserved (E : Env) (ev : Event) (st : AppState) :
  (∀ raw, ev ≠ Load raw) →
  num 1 10 ≤ zoom st ∧ zoom st ≤ num 2 1 →
  num 1 10 ≤ zoom (handle E ev st) ∧ zoom (handle E ev st) ≤ num 2 1.
Proof.
  intros Hload Hrange.
  destruct ev as [key altKey answer | key | shiftKey deltaY rect e | button e | e | e dom
                 | l onInput | l button onInput e | l pos e | l k value | t rect | |
                 | content | answer | raw |]; simpl.
  - by rewrite keydown_zoom.
  - unfold keyup. by repeat case_bool_decide.
  - destruct shiftKey; [apply wheel_zoom_range | done].
  - unfold viewportMouseDown. by repeat (case_match; try done).
  - unfold windowMouseMove. rewrite listenerMoves_zoom. by destruct (panning st).
  - unfold windowMouseUp. by rewrite listenerUps_zoom.
  - unfold nodeDblClick. by repeat (case_match; try done).
  - unfold nodeMouseDown. by repeat (case_match; try done).
  - done.
  - done.
  - unfold spawn. destruct (spawnSize t) as [w h].
    destruct (allocData _ _) as [σ1 dl]. by destruct (allocNode _ _) as [σ2 nl].
  - done.
  - done.
  - unfold importState. destruct (JSON_parse E content) as [[| d] |]; try done.
    unfold assignDoc. by destruct (allocNodeVals _ _).
  - unfold clearAll. by destruct answer.
  - by destruct (Hload raw).
  - done.
Qed.

(** Clear-all and a successful import clear the focus and the selection. *)
Lemma clearAll_clears_focus (st : AppState) :
  focusedId (clearAll true st) = None ∧ selectedIds (clearAll true st) = []
  ∧ nodes (clearAll true st) = [].
Proof. done. Qed.

Lemma importState_clears_focus (E : Env) (content : string) (d : Doc) (st : AppState) :
  JSON_parse E content = Some (PValue d) →
  focusedId (importState E content st) = None
  ∧ selectedIds (importState E content st) = [].
Proof. intros Hparse. unfold importState. by rewrite Hparse. Qed.


(** ** Focus validity outside the redo path

    Every event other than the redo key and the load keeps the focus on a
    node of the node list. *)

Lemma focusValid_same (st st' : AppState) :
  focusedId st' = focusedId st → nodes st' = nodes st →
  (∀ l, l ∈ nodes st → idOf (store st') l = idOf (store st) l) →
  focusValid st → focusValid st'.
Proof.
  intros Hf Hn Hid Hv a Ha. rewrite Hf in Ha. destruct (Hv a Ha) as (l & Hl & Hla).
  exists l. rewrite Hn. split; [done |]. by rewrite Hid.
Qed.

Lemma focusValid_none (st : AppState) : focusedId st = None → focusValid st.
Proof. intros Hf a Ha. congruence. Qed.

Lemma dragMoveIds_idOf (starts : gmap string (Qc * Qc)) (dx dy : Qc) (ns : list loc)
    (ids : list string) (σ : Store) (l : loc) :
  idOf (dragMoveIds starts dx dy ns ids σ) l = idOf σ l.
Proof.
  revert σ. induction ids as [| i rest IH]; intros σ; simpl; [done |].
  destruct (findNode σ ns i) as [n |]; [| by apply IH].
  destruct (starts !! i) as [s |]; [| done].
  rewrite IH. unfold idOf, getNode. simpl.
  destruct (decide (n = l)) as [-> | Hne].
  - by rewrite lookup_total_insert_eq.
  - by rewrite lookup_total_insert_ne.
Qed.

Lemma listenerMove_idOf (e : Mouse) (st : AppState) (li : Listener) (l : loc) :
  idOf (store (listenerMove e st li)) l = idOf (store st) l
  ∧ focusedId (listenerMove e st li) = focusedId st
  ∧ nodes (listenerMove e st li) = nodes st.
Proof.
  destruct li as [| c | c]; simpl; [done | |].
  - split; [apply dragMoveIds_idOf | done].
  - split; [| done]. unfold idOf, getNode. simpl.
    destruct (decide (rz_node c = l)) as [-> | Hne].
    + rewrite lookup_total_insert_eq. by repeat case_match.
    + by rewrite lookup_total_insert_ne.
Qed.

Lemma listenerMoves_idOf (e : Mouse) (ls : list Listener) (st : AppState) (l : loc) :
  idOf (store (foldl (listenerMove e) st ls)) l = idOf (store st) l
  ∧ nodes (foldl (listenerMove e) st ls) = nodes st.
Proof.
  revert st. induction ls as [| li ls IH]; intros st; simpl; [done |].
  destruct (IH (listenerMove e st li)) as [-> ->].
  by destruct (listenerMove_idOf e st li l) as (-> & _ & ->).
Qed.

Lemma listenerUps_nodes (e : Mouse) (dom : list DomNode) (ls : list Listener)
    (st : AppState) :
  nodes (foldl (listenerUp e dom) st ls) = nodes st
  ∧ store (foldl (listenerUp e dom) st ls) = store st
  ∧ (focusedId (foldl (listenerUp e dom) st ls) = focusedId st
     ∨ focusedId (foldl (listenerUp e dom) st ls) = None).
Proof.
  revert st. induction ls as [| li ls IH]; intros st; simpl; [by split_and!; [| | left] |].
  destruct (IH (listenerUp e dom st li)) as (-> & -> & Hf).
  assert (nodes (listenerUp e dom st li) = nodes st
          ∧ store (listenerUp e dom st li) = store st
          ∧ (focusedId (listenerUp e dom st li) = focusedId st
             ∨ focusedId (listenerUp e dom st li) = None)) as (-> & -> & Hf').
  { destruct li as [| c | c]; simpl; [| by split_and!; [| | left] ..].
    unfold selectUp. destruct (selecting st); simpl; [| by split_and!; [| | left]].
    destruct (selectStart st) as [[x1 y1] |]; simpl; split_and!; auto. }
  split_and!; [done | done |]. destruct Hf as [-> | ->]; [done | by right].
Qed.

Lemma keyCopy_frame (st : AppState) :
  focusedId (keyCopy st) = focusedId st ∧ nodes (keyCopy st) = nodes st
  ∧ extends (store st) (store (keyCopy st)).
Proof.
  unfold keyCopy. case_bool_decide.
  - destruct (deepCopyList _ _) as [σ copies] eqn:Hcopy.
    by apply deepCopyList_spec in Hcopy as (Hext & _).
  - destruct (truthy_id (focusedId st)); [| done].
    destruct (findNode _ _ _) as [n |]; [| done].
    destruct (deepCopy (store st) n) as [σ copy] eqn:Hcopy.
    by apply deepCopy_spec in Hcopy as (_ & _ & Hext & _).
Qed.

Lemma focusValid_keyPaste (E : Env) (clip : Clipboard) (st : AppState) :
  wf st → clipboard st = Some clip → focusValid st → focusValid (keyPaste E clip st).
Proof.
  intros Hwf Hclip Hv.
  assert (keyPaste E clip st = keyPaste E (ClipMulti (clipLocs clip)) st) as ->.
  { destruct clip; [apply keyPaste_single | done]. }
  assert (Forall (allocated (store st)) (clipLocs clip)) as Hsrcs.
  { destruct Hwf as (_ & _ & _ & Hc & _). by rewrite Hclip in Hc. }
  destruct (keyPaste_multi_spec E (clipLocs clip) st Hsrcs)
    as (clones & Hnodes & _ & _ & _ & _ & _ & Hfocus & Hext & _).
  set (st' := keyPaste E (ClipMulti (clipLocs clip)) st) in *. clearbody st'.
  intros a Ha. rewrite Hfocus in Ha. rewrite Hnodes.
  destruct clones as [| c0 cs].
  - destruct (Hv a Ha) as (l & Hl & Hla). exists l. rewrite app_nil_r. split; [done |].
    rewrite <- Hla. apply extends_idOf; [done |].
    destruct Hwf as (Hn & _). by eapply (proj1 (Forall_forall _ _) Hn).
  - injection Ha as <-. exists c0. split; [| done].
    apply elem_of_app. right. by left.
Qed.

Lemma focusValid_keydown (E : Env) (key : string) (altKey answer : bool)
    (st : AppState) :
  wf st → toLowerCase key ≠ "y" → focusValid st →
  focusValid (keydown E key altKey answer st).
Proof.
  intros Hwf Hkey Hv. unfold keydown.
  set (st1 := if bool_decide (key = "Shift") then _ else st).
  set (st2 := if bool_decide (key = "Control") then _ else st1).
  assert (wf st2 ∧ focusValid st2) as [Hwf2 Hv2]
    by (subst st2 st1; by repeat case_bool_decide).
  clearbody st2. clear st1 Hwf Hv.
  assert (∃ st3, wf st3 ∧ focusValid st3
            ∧ ((if bool_decide (key = "Delete") then keyDelete answer st2 else Next st2)
               = Next st3
               ∨ (if bool_decide (key = "Delete") then keyDelete answer st2 else Next st2)
                 = Return st3)) as (st3 & Hwf3 & Hv3 & [-> | ->]); [| | done].
  { case_bool_decide; [| by exists st2; split_and!; [| | left]].
    pose proof (wf_keyDelete answer st2 Hwf2) as Hd. unfold keyDelete in *.
    destruct (idsToDelete st2) as [ids |]; [| by exists st2; split_and!; [| | right]].
    destruct answer; [| by exists st2; split_and!; [| | right]].
    eexists. split_and!; [exact Hd | by apply focusValid_none | by left]. }
  rewrite (bool_decide_eq_false_2 (toLowerCase key = "y")) by done.
  rewrite !andb_false_r.
  repeat case_match; try done.
  all: try (unfold keyDrawUndo; by destruct (last (drawings st3))).
  all: try (unfold keyDrawRedo; by destruct (drawRedo st3)).
  - unfold keyNodeUndo. destruct (nodeUndo st3) as [| batch rest]; [done |].
    intros a Ha. destruct (Hv3 a Ha) as (l & Hl & Hla). exists l. simpl.
    split; [| done]. apply elem_of_app. by left.
  - unfold keyCopyPaste.
    set (st4 := if ctrlDown st3 && altKey && bool_decide (toLowerCase key = "c")
                then keyCopy st3 else st3).
    assert (wf st4 ∧ focusValid st4) as [Hwf4 Hv4].
    { subst st4. case_match; [| done]. split; [by apply wf_keyCopy |].
      destruct (keyCopy_frame st3) as (Hf & Hn & Hext).
      apply (focusValid_same st3); [done | done | | done].
      intros l Hl. apply extends_idOf; [done |].
      destruct Hwf3 as (Hns & _). by eapply (proj1 (Forall_forall _ _) Hns). }
    clearbody st4. case_match; [| done].
    destruct (clipboard st4) as [clip |] eqn:Hclip; [| done].
    by apply focusValid_keyPaste.
Qed.

Lemma focusValid_handle (E : Env) (ev : Event) (st : AppState) :
  wf st → enabled ev st → ¬ redoOrLoad ev → focusValid st →
  focusValid (handle E ev st).
Proof.
  intros Hwf Hen Hnot Hv.
  destruct ev as [key altKey answer | key | shiftKey deltaY rect e | button e | e | e dom
                 | l onInput | l button onInput e | l pos e | l k value | t rect | |
                 | content | answer | raw |]; simpl in *.
  - by apply focusValid_keydown.
  - unfold keyup. by repeat case_bool_decide.
  - unfold wheel. by destruct shiftKey.
  - unfold viewportMouseDown. by repeat (case_match; try done).
  - unfold windowMouseMove.
    set (st0 := if panning st then _ else st).
    assert (focusedId st0 = focusedId st ∧ nodes st0 = nodes st ∧ store st0 = store st)
      as (Hf0 & Hn0 & Hs0) by (subst st0; by destruct (panning st)).
    apply (focusValid_same st); [| | | done].
    + by rewrite listenerMoves_focus.
    + by rewrite (proj2 (listenerMoves_idOf e (listeners st0) st0 1%positive)).
    + intros l _. by rewrite (proj1 (listenerMoves_idOf e (listeners st0) st0 l)), Hs0.
  - unfold windowMouseUp.
    set (st0 := set_listeners [] _).
    destruct (listenerUps_nodes e dom (listeners (scheduleSave (set_panning false st))) st0)
      as (Hn & Hs & [Hf | Hf]); [| by apply focusValid_none].
    apply (focusValid_same st); [done | done | | done]. intros l _. by rewrite Hs.
  - unfold nodeDblClick. repeat (case_match; try done).
    intros a [= <-]. by exists l.
  - unfold nodeMouseDown.
    set (st0 := if _ && _ then set_focusedId None st else st).
    assert (focusValid st0 ∧ nodes st0 = nodes st ∧ store st0 = store st)
      as (Hv0 & Hn0 & Hs0).
    { subst st0. case_match; [| done]. split; [by apply focusValid_none | done]. }
    clearbody st0.
    repeat (case_match; try done); intros a Ha; simpl in *;
      try (injection Ha as <-; exists l; rewrite Hn0, Hs0; done);
      by apply Hv0.
  - done.
  - unfold fieldInput. apply (focusValid_same st); done.
  - unfold spawn. destruct (spawnSize t) as [w h].
    change (store (set_uuidCalls (S (uuidCalls st)) st)) with (store st).
    pose proof (alloc_pair_spec
      (λ dl, mkNode (randomUUID E (uuidCalls st)) t
               ((vr_width rect / num 2 1 - panX st) / zoom st - w / num 2 1)
               ((vr_height rect / num 2 1 - panY st) / zoom st - h / num 2 1) w h dl)
      (spawnData t) (store st)) as Hspec.
    destruct (allocData (spawnData t) (store st)) as [σ1 dl].
    destruct (allocNode _ σ1) as [σ2 nl].
    destruct Hspec as (Hnl & Hdl & Hn2 & Hd2); [done |].
    intros a [= <-]. exists nl. simpl. split; [apply elem_of_app; right; by left |].
    unfold idOf. rewrite (getNode_lookup σ2 nl _ ltac:(rewrite Hn2; apply lookup_insert_eq)).
    done.
  - done.
  - done.
  - unfold importState. by destruct (JSON_parse E content) as [[| d] |].
  - unfold clearAll. by destruct answer.
  - done.
  - done.
Qed.


(** ** Examples of the specification, by evaluation *)

(** A box inside a zone selects the node it touches and not the zone. *)
Example box_inside_zone : boxSelection exSin [exZ; exNin] = ["N"].
Proof. by vm_compute. Qed.

(** A node at (100, 100), copied and pasted, gives a second node at
    (140, 140) with another id and the same fields. *)
Example paste_offset :
  let st := handle exEnv (KeyDown "v" true false) exAt100 in
  map (λ l, let v := viewNode (store st) l in (v_id v, v_x v, v_y v)) (nodes st)
  = [("uuid-0", num 100 1, num 100 1); ("uuid-1", num 140 1, num 140 1)]
  ∧ map (λ l, v_data (viewNode (store st) l)) (nodes st)
    = [spawnData Thost; spawnData Thost].
Proof.
  split.
  - apply (bool_decide_unpack _). by vm_compute.
  - apply (bool_decide_unpack _). by vm_compute.
Qed.

(** Loading keeps the zoom range when the stored zoom lies in it. *)
Lemma loadFromStorage_zoom_range (E : Env) (raw : option string) (st : AppState) :
  (∀ r d m z, raw = Some r → JSON_parse E r = Some (PValue d) → doc_meta d = Some m →
              meta_zoom m = Some z → num 1 10 ≤ z ∧ z ≤ num 2 1) →
  num 1 10 ≤ zoom st ∧ zoom st ≤ num 2 1 →
  num 1 10 ≤ zoom (loadFromStorage E raw st) ∧ zoom (loadFromStorage E raw st) ≤ num 2 1.
Proof.
  intros Hblob Hrange. unfold loadFromStorage.
  destruct raw as [r |]; [| done]. destruct (truthy_str r); simpl; [| done].
  destruct (JSON_parse E r) as [[| d] |] eqn:Hparse; try done.
  destruct (assignDoc_alerts d st) as (_ & _ & Hz & _).
  destruct (doc_meta d) as [m |] eqn:Hmeta; [| by rewrite Hz].
  destruct (assignMeta_viewport m (assignDoc d st)) as (-> & _).
  destruct (meta_zoom m) as [z |] eqn:Hzoom; simpl; [| by rewrite Hz].
  by eapply Hblob.
Qed.

(* ================================================================== *)
(** * Further properties of the code *)
(* ================================================================== *)

(** Linear arithmetic on numbers, through the rationals they stand for. *)
Ltac qc_unfold :=
  unfold Qcle, Qclt, Qcplus, Qcminus, Qcopp, Qcmult, Q2Qc in *; cbn [this] in *;
  repeat (setoid_rewrite Qred_correct);
  repeat match goal with H : _ |- _ => setoid_rewrite Qred_correct in H end.
Ltac qc_lra := first [apply Qc_is_canon | idtac]; qc_unfold; lra.

Lemma Qc_leb_true (a b : Qc) : Qc_leb a b = true ↔ a ≤ b.
Proof. unfold Qc_leb. by rewrite bool_decide_eq_true. Qed.

Lemma Qc_ltb_false (a b : Qc) : Qc_ltb a b = false ↔ b ≤ a.
Proof.
  unfold Qc_ltb. rewrite bool_decide_eq_false. split.
  - apply Qcnot_lt_le.
  - intros H1 H2. by apply (Qcle_not_lt _ _ H1).
Qed.

Lemma rectContains_true (outer inner : Rect) :
  rectContains outer inner = true ↔
  r_left outer ≤ r_left inner ∧ r_right inner ≤ r_right outer
  ∧ r_top outer ≤ r_top inner ∧ r_bottom inner ≤ r_bottom outer.
Proof.
  unfold rectContains, Qc_geb. rewrite !andb_true_iff, !Qc_leb_true. tauto.
Qed.

Lemma rectIntersects_true (a b : Rect) :
  rectIntersects a b = true ↔
  r_left b ≤ r_right a ∧ r_left a ≤ r_right b
  ∧ r_top b ≤ r_bottom a ∧ r_top a ≤ r_bottom b.
Proof.
  unfold rectIntersects, Qc_gtb. rewrite negb_true_iff, !orb_false_iff, !Qc_ltb_false.
  tauto.
Qed.

(** X1.  [rectContains] orders the rectangles: every rectangle contains
    itself, containment is transitive, and two rectangles that contain
    each other are the same rectangle. *)
Theorem X1_rectContains_order (a b c : Rect) :
  rectContains a a = true
  ∧ (rectContains a b = true → rectContains b c = true → rectContains a c = true)
  ∧ (rectContains a b = true → rectContains b a = true → a = b).
Proof.
  rewrite !rectContains_true. split; [| split].
  - split_and!; apply Qcle_refl.
  - intros (H1 & H2 & H3 & H4) (H5 & H6 & H7 & H8).
    split_and!; eapply Qcle_trans; eauto.
  - intros (H1 & H2 & H3 & H4) (H5 & H6 & H7 & H8).
    destruct a, b; simpl in *. f_equal; by apply Qcle_antisym.
Qed.

Lemma rectIntersects_comm (a b : Rect) : rectIntersects a b = rectIntersects b a.
Proof. apply eq_true_iff_eq. rewrite !rectIntersects_true. tauto. Qed.

Lemma rectContains_intersects (a b : Rect) :
  rectOrdered b → rectContains a b = true → rectIntersects a b = true.
Proof.
  intros [Hx Hy]. rewrite rectContains_true, rectIntersects_true.
  intros (H1 & H2 & H3 & H4).
  split_and!; eapply Qcle_trans; eauto.
Qed.

(** X2.  [rectIntersects] does not depend on the order of its arguments,
    and a rectangle with ordered edges intersects every rectangle that
    contains it. *)
Theorem X2_rectIntersects_symmetric (a b : Rect) :
  rectIntersects a b = rectIntersects b a
  ∧ (rectOrdered b → rectContains a b = true → rectIntersects a b = true).
Proof.
  split; [apply rectIntersects_comm | apply rectContains_intersects].
Qed.

Lemma X2_rectIntersects_symmetric_witness :
  rectIntersects exS (dn_rect exN) = true.
Proof.
  apply (proj2 (X2_rectIntersects_symmetric exS (dn_rect exN))).
  - split; by apply (bool_decide_unpack _).
  - by vm_compute.
Defined.

(** ** The selection rectangle *)

Lemma Math_min_spec (a b : Qc) :
  (a ≤ b ∧ Math_min a b = a) ∨ (b ≤ a ∧ Math_min a b = b).
Proof.
  unfold Math_min, Qc_leb. case_bool_decide as H; [by left |].
  right. split; [| done]. by apply Qclt_le_weak, Qcnot_le_lt.
Qed.

Lemma Math_max_spec (a b : Qc) :
  (a ≤ b ∧ Math_max a b = b) ∨ (b ≤ a ∧ Math_max a b = a).
Proof.
  unfold Math_max, Qc_leb. case_bool_decide as H; [by left |].
  right. split; [| done]. by apply Qclt_le_weak, Qcnot_le_lt.
Qed.

Lemma Math_min_comm (a b : Qc) : Math_min a b = Math_min b a.
Proof.
  destruct (Math_min_spec a b) as [[H1 ->] | [H1 ->]],
    (Math_min_spec b a) as [[H2 ->] | [H2 ->]]; try done; by apply Qcle_antisym.
Qed.

Lemma Math_max_comm (a b : Qc) : Math_max a b = Math_max b a.
Proof.
  destruct (Math_max_spec a b) as [[H1 ->] | [H1 ->]],
    (Math_max_spec b a) as [[H2 ->] | [H2 ->]]; try done; by apply Qcle_antisym.
Qed.

Lemma Math_abs_spec (a : Qc) :
  (0 ≤ a ∧ Math_abs a = a) ∨ (a ≤ 0 ∧ Math_abs a = - a).
Proof.
  unfold Math_abs, Qc_ltb. case_bool_decide as H.
  - right. split; [by apply Qclt_le_weak | done].
  - left. split; [by apply Qcnot_lt_le | done].
Qed.

(** X3.  The rectangle of a selection box does not depend on the direction
    of the drag: pressing at one corner and releasing at the opposite one
    gives the same rectangle, and the same selection, as the reverse drag.
    Its edges are ordered and it holds both points. *)
Theorem X3_selection_box_direction (x1 y1 x2 y2 : Qc) (dom : list DomNode)
    (st : AppState) :
  selRect x1 y1 x2 y2 = selRect x2 y2 x1 y1
  ∧ rectOrdered (selRect x1 y1 x2 y2)
  ∧ rectContains (selRect x1 y1 x2 y2) (mkRect x1 y1 x1 y1) = true
  ∧ rectContains (selRect x1 y1 x2 y2) (mkRect x2 y2 x2 y2) = true
  ∧ selectedIds (selectUp (mkMouse x2 y2) dom (set_selectStart (Some (x1, y1)) st))
    = selectedIds (selectUp (mkMouse x1 y1) dom (set_selectStart (Some (x2, y2)) st)).
Proof.
  assert (selRect x1 y1 x2 y2 = selRect x2 y2 x1 y1) as Hsym.
  { unfold selRect.
    by rewrite (Math_min_comm x1), (Math_min_comm y1), (Math_max_comm x1), (Math_max_comm y1). }
  split_and!; [done | | | |].
  - unfold rectOrdered, selRect. simpl.
    destruct (Math_min_spec x1 x2) as [[? ->] | [? ->]],
      (Math_max_spec x1 x2) as [[? ->] | [? ->]],
      (Math_min_spec y1 y2) as [[? ->] | [? ->]],
      (Math_max_spec y1 y2) as [[? ->] | [? ->]]; split; done || apply Qcle_refl.
  - apply rectContains_true. unfold selRect. simpl.
    destruct (Math_min_spec x1 x2) as [[? ->] | [? ->]],
      (Math_max_spec x1 x2) as [[? ->] | [? ->]],
      (Math_min_spec y1 y2) as [[? ->] | [? ->]],
      (Math_max_spec y1 y2) as [[? ->] | [? ->]]; split_and!; done || apply Qcle_refl.
  - apply rectContains_true. unfold selRect. simpl.
    destruct (Math_min_spec x1 x2) as [[? ->] | [? ->]],
      (Math_max_spec x1 x2) as [[? ->] | [? ->]],
      (Math_min_spec y1 y2) as [[? ->] | [? ->]],
      (Math_max_spec y1 y2) as [[? ->] | [? ->]]; split_and!; done || apply Qcle_refl.
  - unfold selectUp. simpl. destruct (selecting st); simpl; [| done].
    by rewrite Hsym.
Qed.

(** X4.  While a selection box is open, the box element that the [move]
    listener draws is the rectangle that the [up] listener would select
    with at the same mouse position; its width and height are not
    negative.  With no selection box open the listener draws nothing. *)
Theorem X4_rubber_band (e : Mouse) (st : AppState) :
  (selecting st = false → selectMove e st = None)
  ∧ (∀ x1 y1 b, selectStart st = Some (x1, y1) → selectMove e st = Some b →
       mkRect (bs_left b) (bs_top b) (bs_left b + bs_width b) (bs_top b + bs_height b)
       = selRect x1 y1 (clientX e) (clientY e)
       ∧ 0 ≤ bs_width b ∧ 0 ≤ bs_height b).
Proof.
  split.
  - intros Hsel. unfold selectMove. by rewrite Hsel.
  - intros x1 y1 b Hstart. unfold selectMove. rewrite Hstart.
    destruct (selecting st); simpl; [| done]. intros [= <-]. simpl.
    unfold selRect.
    destruct (Math_min_spec x1 (clientX e)) as [[? ->] | [? ->]],
      (Math_max_spec x1 (clientX e)) as [[? ->] | [? ->]],
      (Math_min_spec y1 (clientY e)) as [[? ->] | [? ->]],
      (Math_max_spec y1 (clientY e)) as [[? ->] | [? ->]],
      (Math_abs_spec (clientX e - x1)) as [[? ->] | [? ->]],
      (Math_abs_spec (clientY e - y1)) as [[? ->] | [? ->]];
      (split_and!; [f_equal; qc_lra | qc_lra | qc_lra]).
Qed.

(** X5.  The selection that a box rebuilds holds no id twice, only
    non-empty ids, and only ids of rendered elements; a box that
    intersects no element (the rectangles of the elements having ordered
    edges) selects nothing. *)
Theorem X5_box_selection_sound (sel : Rect) (dom : list DomNode) :
  NoDup (boxSelection sel dom)
  ∧ (∀ j, j ∈ boxSelection sel dom → j ≠ "" ∧ ∃ n, n ∈ dom ∧ dn_id n = j)
  ∧ ((∀ n, n ∈ dom → rectOrdered (dn_rect n) ∧ rectIntersects (dn_rect n) sel = false) →
     boxSelection sel dom = []).
Proof.
  assert (∀ n, n ∈ domNodes dom → n ∈ dom ∧ dn_id n ≠ "") as Hnodes.
  { intros n Hn. apply list_elem_of_filter in Hn as [Ht Hn]. split; [done |].
    unfold truthy_str in Ht. apply negb_true_iff, bool_decide_eq_false in Ht. done. }
  assert (∀ n, n ∈ domZones dom → n ∈ dom ∧ dn_id n ≠ "") as Hzones.
  { intros n Hn. apply list_elem_of_filter in Hn as [_ Hn]. by apply Hnodes. }
  assert (∀ n, n ∈ domOthers dom → n ∈ dom ∧ dn_id n ≠ "") as Hothers.
  { intros n Hn. apply list_elem_of_filter in Hn as [_ Hn]. by apply Hnodes. }
  split_and!.
  - apply boxSelection_NoDup.
  - intros j Hj.
    apply elem_of_boxSelection in Hj
      as [(z & Hz & _ & [Hj | (n & Hn & _ & Hj)]) | (n & Hn & _ & Hj)]; subst j.
    + destruct (Hzones z Hz). split; [done | by exists z].
    + destruct (Hothers n Hn). split; [done | by exists n].
    + destruct (Hothers n Hn). split; [done | by exists n].
  - intros Hfar.
    destruct (boxSelection sel dom) as [| j rest] eqn:Hbox; [done |].
    assert (j ∈ boxSelection sel dom) as Hj by (rewrite Hbox; left).
    exfalso.
    apply elem_of_boxSelection in Hj
      as [(z & Hz & Ha & _) | (n & Hn & Hi & _)].
    + destruct (Hzones z Hz) as [Hzd _]. destruct (Hfar z Hzd) as [Hord Hno].
      unfold zoneActive in Ha. rewrite Hno in Ha. simpl in Ha.
      pose proof (rectContains_intersects sel (dn_rect z) Hord Ha) as Hint.
      rewrite rectIntersects_comm in Hint. congruence.
    + destruct (Hothers n Hn) as [Hnd _]. destruct (Hfar n Hnd) as [_ Hno]. congruence.
Qed.

(** ** The shape of the copy and paste blocks

    Copying assigns the clipboard and allocates; pasting allocates and
    assigns the node list, the selection and the focus, and schedules a
    save.  Neither writes another variable. *)

Lemma keyCopy_shape (st : AppState) :
  ∃ σ c, keyCopy st = set_clipboard c (set_store σ st).
Proof.
  unfold keyCopy. case_bool_decide.
  - destruct (deepCopyList _ _) as [σ copies]. by eexists _, _.
  - destruct (truthy_id (focusedId st)); [| exists (store st), (clipboard st); by destruct st].
    destruct (findNode _ _ _) as [n |]; [| exists (store st), (clipboard st); by destruct st].
    destruct (deepCopy (store st) n) as [σ copy]. by eexists _, _.
Qed.

Lemma cloneNodes_shape (E : Env) (srcs : list loc) (st : AppState) :
  ∃ σ, (cloneNodes E st srcs).1
       = set_uuidCalls (uuidCalls st + length srcs)%nat (set_store σ st).
Proof.
  revert st. induction srcs as [| src rest IH]; intros st; cbn [cloneNodes].
  - exists (store st). simpl. rewrite Nat.add_0_r. by destruct st.
  - unfold cloneNode. destruct (deepCopy (store st) src) as [σ c].
    match goal with |- context [cloneNodes E ?s rest] => specialize (IH s) end.
    destruct (cloneNodes E _ rest) as [st2 cs]. destruct IH as (σ2 & IH).
    simpl in *. exists σ2. rewrite IH. simpl.
    replace (S (uuidCalls st + length rest))%nat with (uuidCalls st + S (length rest))%nat
      by lia.
    by destruct st.
Qed.

Lemma keyPaste_shape (E : Env) (clip : Clipboard) (st : AppState) :
  ∃ f s n σ,
    keyPaste E clip st
    = scheduleSave (set_focusedId f (set_selectedIds s (set_nodes n
        (set_uuidCalls (uuidCalls st + length (clipLocs clip))%nat (set_store σ st))))).
Proof.
  rewrite (match clip as c return keyPaste E c st = keyPaste E (ClipMulti (clipLocs c)) st
           with ClipSingle src => keyPaste_single E src st | ClipMulti _ => eq_refl end).
  unfold keyPaste.
  destruct (cloneNodes_shape E (clipLocs clip) (set_selectedIds [] st)) as (σ & Hshape).
  destruct (cloneNodes E (set_selectedIds [] st) (clipLocs clip)) as [s5 clones].
  simpl in Hshape. subst s5.
  destruct clones as [| c0 cs].
  - exists (focusedId st), [], (nodes st ++ []), σ. by destruct st.
  - exists (Some (idOf σ c0)), (foldl set_add [] (map (idOf σ) (c0 :: cs))),
      (nodes st ++ c0 :: cs), σ. by destruct st.
Qed.

(** ** The shape of the key handler

    The blocks of the key handler run one after the other; a relation
    between states that every block respects under the condition that
    guards it is respected by the handler. *)

Lemma keydown_rel (R : AppState → AppState → Prop) (E : Env) (key : string)
    (altKey answer : bool) :
  (∀ st, R st st) →
  (∀ st1 st2 st3, R st1 st2 → R st2 st3 → R st1 st3) →
  (∀ st, key = "Shift" → R st (set_shiftDown true st)) →
  (∀ st, key = "Control" → R st (set_ctrlDown true st)) →
  (∀ st s, key = "Delete" → answer = true → keyDelete true st = Next s → R st s) →
  (∀ st, inMode ModeNormal st = true → ctrlDown st = true → toLowerCase key = "z" →
         R st (keyNodeUndo st)) →
  (∀ st, inMode ModeNormal st = true → ctrlDown st = true → toLowerCase key = "y" →
         R st (keyNodeRedo st)) →
  (∀ st, key = "Escape" → R st (keyEscape st)) →
  (∀ st, inMode ModeDraw st = true → ctrlDown st = true → toLowerCase key = "z" →
         R st (keyDrawUndo st)) →
  (∀ st, inMode ModeDraw st = true → ctrlDown st = true → toLowerCase key = "y" →
         R st (keyDrawRedo st)) →
  (∀ st, inMode ModeNormal st = true → ctrlDown st = true → altKey = true →
         toLowerCase key = "c" → R st (keyCopy st)) →
  (∀ st clip, inMode ModeNormal st = true → ctrlDown st = true → altKey = true →
         toLowerCase key = "v" → clipboard st = Some clip → R st (keyPaste E clip st)) →
  ∀ st, R st (keydown E key altKey answer st).
Proof.
  intros Hrefl Htrans Hshift Hctrl Hdel Hundo Hredo Hesc Hdundo Hdredo Hcopy Hpaste st.
  unfold keydown.
  set (st1 := if bool_decide (key = "Shift") then _ else st).
  assert (R st st1) as H1 by (subst st1; case_bool_decide; auto).
  clearbody st1.
  set (st2 := if bool_decide (key = "Control") then _ else st1).
  assert (R st st2) as H2.
  { apply (Htrans _ st1); [done |]. subst st2. case_bool_decide; auto. }
  clearbody st2. clear H1 st1.
  destruct (decide (key = "Delete")) as [Hk | Hk].
  - rewrite bool_decide_eq_true_2 by done.
    destruct (keyDelete answer st2) as [s | s] eqn:Hkd.
    + unfold keyDelete in Hkd. destruct (idsToDelete st2); [| by injection Hkd as <-].
      destruct answer; [done | by injection Hkd as <-].
    + assert (answer = true) as ->.
      { unfold keyDelete in Hkd. destruct (idsToDelete st2); [| done]. by destruct answer. }
      apply (Htrans _ st2); [done |]. apply (Htrans _ s); [by apply Hdel |].
      subst key. simpl. rewrite ?andb_false_r.
      unfold keyCopyPaste. rewrite ?bool_decide_eq_false_2 by done.
      rewrite ?andb_false_r. destruct (inMode ModeNormal s); apply Hrefl.
  - rewrite (bool_decide_eq_false_2 (key = "Delete")) by done.
    apply (Htrans _ st2); [done |]. clear H2 st.
    destruct (inMode ModeNormal st2 && ctrlDown st2 && bool_decide (toLowerCase key = "z"))
      eqn:Hb1.
    { apply andb_true_iff in Hb1 as [[? ?]%andb_true_iff ?%bool_decide_eq_true]. auto. }
    destruct (inMode ModeNormal st2 && ctrlDown st2 && bool_decide (toLowerCase key = "y"))
      eqn:Hb2.
    { apply andb_true_iff in Hb2 as [[? ?]%andb_true_iff ?%bool_decide_eq_true]. auto. }
    destruct (bool_decide_reflect (key = "Escape")) as [Hesc' | Hesc']; [auto |].
    destruct (inMode ModeDraw st2 && ctrlDown st2 && bool_decide (toLowerCase key = "z"))
      eqn:Hb3.
    { apply andb_true_iff in Hb3 as [[? ?]%andb_true_iff ?%bool_decide_eq_true]. auto. }
    destruct (inMode ModeDraw st2 && ctrlDown st2 && bool_decide (toLowerCase key = "y"))
      eqn:Hb4.
    { apply andb_true_iff in Hb4 as [[? ?]%andb_true_iff ?%bool_decide_eq_true]. auto. }
    destruct (inMode ModeNormal st2) eqn:Hn; [| apply Hrefl].
    unfold keyCopyPaste.
    set (s4 := if ctrlDown st2 && altKey && bool_decide (toLowerCase key = "c")
               then keyCopy st2 else st2).
    assert (R st2 s4 ∧ inMode ModeNormal s4 = true) as [H4 Hn4].
    { subst s4.
      destruct (ctrlDown st2 && altKey && bool_decide (toLowerCase key = "c")) eqn:Hb5;
        [| by split].
      apply andb_true_iff in Hb5 as [[? ?]%andb_true_iff ?%bool_decide_eq_true].
      split; [by apply Hcopy |].
      destruct (keyCopy_shape st2) as (σ & c & ->). exact Hn. }
    clearbody s4. apply (Htrans _ s4); [done |].
    destruct (ctrlDown s4 && altKey && bool_decide (toLowerCase key = "v")) eqn:Hb6;
      [| apply Hrefl].
    apply andb_true_iff in Hb6 as [[? ?]%andb_true_iff ?%bool_decide_eq_true].
    destruct (clipboard s4) as [clip |] eqn:Hclip; [by apply Hpaste | apply Hrefl].
Qed.

(** ** Keys with nothing to act on *)

(** X6.  The Delete key with an empty selection and no focused node, and
    the Delete key whose confirmation is declined, leave the state as it
    is; so do the undo key with an empty undo ledger and the redo key with
    an empty redo ledger (normal mode, Control held). *)
Theorem X6_keys_without_target (E : Env) (st : AppState) (altKey answer : bool) :
  (selectedIds st = [] → truthy_id (focusedId st) = false →
     keydown E "Delete" altKey answer st = st)
  ∧ keydown E "Delete" altKey false st = st
  ∧ (∀ key, key = "z" ∨ key = "Z" →
       inMode ModeNormal st = true → ctrlDown st = true → nodeUndo st = [] →
       keydown E key altKey answer st = st)
  ∧ (∀ key, key = "y" ∨ key = "Y" →
       inMode ModeNormal st = true → ctrlDown st = true → nodeRedo st = [] →
       keydown E key altKey answer st = st).
Proof.
  split_and!.
  - intros Hsel Hfocus. rewrite keydown_delete. unfold keyDelete, idsToDelete.
    rewrite Hsel. simpl. destruct (focusedId st) as [f |]; [| done].
    simpl in Hfocus. by rewrite Hfocus.
  - rewrite keydown_delete. unfold keyDelete. by destruct (idsToDelete st).
  - intros key Hkey Hmode Hctrl Hundo. rewrite keydown_undo by done.
    unfold keyNodeUndo. by rewrite Hundo.
  - intros key Hkey Hmode Hctrl Hredo. rewrite keydown_redo by done.
    unfold keyNodeRedo. by rewrite Hredo.
Qed.

(** ** The modes of the keyboard *)

(** X7.  Outside normal mode no key but Delete changes the node list, the
    node objects, the node ledgers or the clipboard; outside draw mode no
    key changes the strokes or the stroke redo stack.  The Delete key is
    not bound to a mode: in every mode a confirmed Delete removes the
    nodes it acts on. *)
Theorem X7_keyboard_modes (E : Env) (key : string) (altKey answer : bool) (st : AppState) :
  let st' := keydown E key altKey answer st in
  (inMode ModeNormal st = false → key ≠ "Delete" →
     nodes st' = nodes st ∧ store st' = store st ∧ nodeUndo st' = nodeUndo st
     ∧ nodeRedo st' = nodeRedo st ∧ clipboard st' = clipboard st)
  ∧ (inMode ModeDraw st = false →
     drawings st' = drawings st ∧ drawRedo st' = drawRedo st)
  ∧ (∀ ids, idsToDelete st = Some ids →
       nodes (keydown E "Delete" altKey true st)
       = filter (λ l, idOf (store st) l ∉ ids) (nodes st)).
Proof.
  intros st'. subst st'. split_and!.
  - intros Hmode Hkey. revert Hmode.
    apply (keydown_rel
      (λ s s', inMode ModeNormal s = false →
         inMode ModeNormal s' = false ∧ nodes s' = nodes s ∧ store s' = store s
         ∧ nodeUndo s' = nodeUndo s ∧ nodeRedo s' = nodeRedo s
         ∧ clipboard s' = clipboard s) E key altKey answer); try done; try congruence.
    + intros s1 s2 s3 H12 H23 Hm. destruct (H12 Hm) as (Hm2 & ? & ? & ? & ? & ?).
      destruct (H23 Hm2) as (Hm3 & ? & ? & ? & ? & ?). split_and!; congruence.
    + intros s _ _. unfold keyDrawUndo. by destruct (last (drawings s)).
    + intros s _ _. unfold keyDrawRedo. by destruct (drawRedo s).
  - apply (keydown_rel
      (λ s s', inMode ModeDraw s = false →
         inMode ModeDraw s' = false ∧ drawings s' = drawings s ∧ drawRedo s' = drawRedo s)
      E key altKey answer); try done; try congruence.
    + intros s1 s2 s3 H12 H23 Hm. destruct (H12 Hm) as (Hm2 & ? & ?).
      destruct (H23 Hm2) as (Hm3 & ? & ?). split_and!; congruence.
    + intros s s' _ _. unfold keyDelete. destruct (idsToDelete s); [| done].
      by intros [= <-].
    + intros s _ _ _. unfold keyNodeUndo. by destruct (nodeUndo s).
    + intros s _ _ _. unfold keyNodeRedo. by destruct (nodeRedo s).
    + intros s _ _ _ _. by destruct (keyCopy_shape s) as (σ & c & ->).
    + intros s clip _ _ _ _ _. by destruct (keyPaste_shape E clip s) as (f & i & n & σ & ->).
  - intros ids Hids. by rewrite (keydown_delete_result E st ids altKey Hids).
Qed.

(** ** Undo and redo of strokes *)

(** X8.  In draw mode with Control held, the undo key moves the last
    stroke to the redo stack and the redo key puts it back: after both the
    strokes and the redo stack are what they were.  With no stroke the undo
    key changes neither of them. *)
Theorem X8_draw_undo_redo (E : Env) (st : AppState) (kz ky : string)
    (alt1 alt2 ans1 ans2 : bool) :
  inMode ModeDraw st = true → ctrlDown st = true →
  kz = "z" ∨ kz = "Z" → ky = "y" ∨ ky = "Y" →
  let st1 := keydown E kz alt1 ans1 st in
  let st2 := keydown E ky alt2 ans2 st1 in
  (∀ ds d, drawings st = ds ++ [d] →
     drawings st1 = ds ∧ drawRedo st1 = d :: drawRedo st
     ∧ drawings st2 = drawings st ∧ drawRedo st2 = drawRedo st)
  ∧ (drawings st = [] → drawings st1 = [] ∧ drawRedo st1 = drawRedo st).
Proof.
  intros Hmode Hctrl Hkz Hky st1 st2.
  assert (inMode ModeNormal st = false) as Hn.
  { unfold inMode in *. apply bool_decide_eq_true in Hmode.
    apply bool_decide_eq_false. congruence. }
  assert (st1 = keyDrawUndo st) as Hst1.
  { subst st1. unfold keydown.
    assert (toLowerCase kz = "z") as Hlow by (by destruct Hkz as [-> | ->]).
    rewrite !bool_decide_eq_false_2 by (by destruct Hkz as [-> | ->]).
    rewrite (bool_decide_eq_false_2 (kz = "Escape")) by (by destruct Hkz as [-> | ->]).
    by rewrite Hlow, Hmode, Hctrl, Hn. }
  assert (inMode ModeDraw st1 = true ∧ ctrlDown st1 = true ∧ inMode ModeNormal st1 = false)
    as (Hmode1 & Hctrl1 & Hn1).
  { rewrite Hst1. unfold keyDrawUndo. by destruct (last (drawings st)). }
  assert (st2 = keyDrawRedo st1) as Hst2.
  { subst st2. unfold keydown.
    assert (toLowerCase ky = "y") as Hlow by (by destruct Hky as [-> | ->]).
    rewrite !bool_decide_eq_false_2 by (by destruct Hky as [-> | ->]).
    rewrite (bool_decide_eq_false_2 (ky = "Escape")) by (by destruct Hky as [-> | ->]).
    by rewrite Hlow, Hmode1, Hctrl1, Hn1. }
  clearbody st1 st2. subst st2 st1. split.
  - intros ds d Hds. unfold keyDrawUndo. rewrite Hds, last_snoc, removelast_last.
    unfold keyDrawRedo. simpl. done.
  - intros Hds. unfold keyDrawUndo. by rewrite Hds.
Qed.

Lemma X8_draw_undo_redo_witness :
  let st := set_drawings [mkStroke "s" "#ff3b3b" (num 3 1) [(0, 0)]]
              (set_ctrlDown true (drawToggle initialState)) in
  drawings (keydown exEnv "y" false false (keydown exEnv "z" false false st)) = drawings st.
Proof.
  intros st.
  refine (proj1 (proj2 (proj2 (proj1
    (X8_draw_undo_redo exEnv st "z" "y" false false false false
       eq_refl eq_refl (or_introl eq_refl) (or_introl eq_refl))
    [] (mkStroke "s" "#ff3b3b" (num 3 1) [(0, 0)]) eq_refl)))).
Defined.

(** ** The ledgers across a reset *)

(** X9.  Neither clear-all nor an import touches the node ledgers or the
    clipboard: after either, the undo key appends the batch that was
    deleted last, before the reset, to the new node list. *)
Theorem X9_reset_keeps_ledgers (E : Env) (content : string) (st : AppState) :
  let st1 := clearAll true st in
  let st2 := importState E content st in
  (nodeUndo st1 = nodeUndo st ∧ nodeRedo st1 = nodeRedo st ∧ clipboard st1 = clipboard st)
  ∧ (nodeUndo st2 = nodeUndo st ∧ nodeRedo st2 = nodeRedo st ∧ clipboard st2 = clipboard st)
  ∧ (∀ batch rest key altKey answer,
       nodeUndo st = batch :: rest → key = "z" ∨ key = "Z" →
       inMode ModeNormal st = true → ctrlDown st = true →
       nodes (keydown E key altKey answer st1) = batch
       ∧ nodes (keydown E key altKey answer st2) = nodes st2 ++ batch).
Proof.
  intros st1 st2.
  assert (nodeUndo st2 = nodeUndo st ∧ nodeRedo st2 = nodeRedo st
          ∧ clipboard st2 = clipboard st ∧ inMode ModeNormal st2 = inMode ModeNormal st
          ∧ ctrlDown st2 = ctrlDown st) as (Hu2 & Hr2 & Hc2 & Hm2 & Hk2).
  { subst st2. unfold importState.
    destruct (JSON_parse E content) as [[| doc] |]; try done.
    unfold assignDoc. by destruct (allocNodeVals _ _) as [σ ns]. }
  clearbody st2. split_and!; try done.
  intros batch rest key altKey answer Hundo Hkey Hmode Hctrl. split.
  - by rewrite (keydown_undo_result E st1 key altKey answer batch rest).
  - rewrite (keydown_undo_result E st2 key altKey answer batch rest); try done; congruence.
Qed.

Lemma X9_reset_keeps_ledgers_witness :
  let st := run exEnv [Spawn Thost exRect; KeyDown "Delete" false true;
                       KeyDown "Control" false false] initialState in
  nodes (keydown exEnv "z" false false (clearAll true st)) = [1%positive].
Proof.
  intros st.
  refine (proj1 (proj2 (proj2 (X9_reset_keeps_ledgers exEnv "" st))
    [1%positive] [] "z" false false _ (or_introl eq_refl) eq_refl eq_refl)).
  by vm_compute.
Defined.

(** ** Toggling the selection with Control held *)

(** X10.  With Control held, a press on a node (normal mode, left button,
    Shift up, not on an input) toggles the membership of its id in the
    selection and of no other id; it starts no drag and changes no node.
    The focus stays as it is unless the node belongs to a selection of
    more than one id, in which case the focus is cleared. *)
Theorem X10_ctrl_click_toggles (l : loc) (e : Mouse) (st : AppState) :
  inMode ModeNormal st = true → shiftDown st = false → ctrlDown st = true →
  let i := idOf (store st) l in
  let st' := nodeMouseDown l 0 false e st in
  (i ∈ selectedIds st' ↔ i ∉ selectedIds st)
  ∧ (∀ j, j ≠ i → j ∈ selectedIds st' ↔ j ∈ selectedIds st)
  ∧ focusedId st'
    = (if bool_decide (1 < length (selectedIds st))%nat && set_has (selectedIds st) i
       then None else focusedId st)
  ∧ listeners st' = listeners st ∧ nodes st' = nodes st ∧ store st' = store st.
Proof.
  intros Hmode Hshift Hctrl i st'. subst st'. unfold nodeMouseDown. fold i.
  set (st1 := if bool_decide (1 < length (selectedIds st))%nat && set_has (selectedIds st) i
              then set_focusedId None st else st).
  assert (inMode ModeNormal st1 = true ∧ shiftDown st1 = false ∧ ctrlDown st1 = true
          ∧ selectedIds st1 = selectedIds st ∧ listeners st1 = listeners st
          ∧ nodes st1 = nodes st ∧ store st1 = store st) as (Hm1 & Hs1 & Hc1 & Hsel & Hl & Hn & Hσ).
  { subst st1. by destruct (_ && _). }
  assert (focusedId st1
          = (if bool_decide (1 < length (selectedIds st))%nat && set_has (selectedIds st) i
             then None else focusedId st)) as Hf1.
  { subst st1. by destruct (_ && _). }
  clearbody st1. rewrite Hm1, Hs1, Hc1. simpl. rewrite andb_false_r.
  rewrite Hsel. rewrite <- Hf1, <- Hl, <- Hn, <- Hσ.
  destruct (set_has (selectedIds st) i) eqn:Hhas; simpl.
  - apply set_has_true in Hhas. split_and!; try done.
    + unfold set_delete. rewrite list_elem_of_filter. naive_solver.
    + intros j Hj. unfold set_delete. rewrite list_elem_of_filter. naive_solver.
  - assert (i ∉ selectedIds st) as Hnot.
    { intros Hin%set_has_true. congruence. }
    split_and!; try done.
    + rewrite elem_of_set_add. naive_solver.
    + intros j Hj. rewrite elem_of_set_add. naive_solver.
Qed.

Lemma X10_ctrl_click_toggles_witness :
  let st := set_ctrlDown true exTwo in
  idOf (store st) 1%positive ∈ selectedIds (nodeMouseDown 1%positive 0 false exMouse st).
Proof.
  intros st.
  apply (proj1 (X10_ctrl_click_toggles 1%positive exMouse st eq_refl eq_refl eq_refl)).
  apply (bool_decide_unpack _). by vm_compute.
Defined.

(** ** Resizing *)

Lemma Math_max_ge_l (a b : Qc) : a ≤ Math_max a b.
Proof. destruct (Math_max_spec a b) as [[? ->] | [? ->]]; [done | apply Qcle_refl]. Qed.

(** X11.  A step of a resize, at a zoom that is not zero and in exact
    arithmetic, writes the node it was started on and no other node.
    Whatever the corner, the start geometry and the pointer position, the
    node is then at least 160 wide and 120 high; its id, its type and its
    data object are the same; the bottom-right handle leaves its position
    as it is. *)
Theorem X11_resize_minimum (c : ResizeCtx) (e : Mouse) (st : AppState) :
  zoom st ≠ 0 →
  let st' := resizeMove c e st in
  let n := getNode (store st) (rz_node c) in
  let n' := getNode (store st') (rz_node c) in
  num 160 1 ≤ n_w n' ∧ num 120 1 ≤ n_h n'
  ∧ n_id n' = n_id n ∧ n_type n' = n_type n ∧ n_data n' = n_data n
  ∧ (rz_pos c = BR → n_x n' = n_x n ∧ n_y n' = n_y n)
  ∧ (∀ l, l ≠ rz_node c → getNode (store st') l = getNode (store st) l)
  ∧ dataHeap (store st') = dataHeap (store st).
Proof.
  intros _ st' n n'. subst st' n'. unfold resizeMove. fold n. simpl.
  unfold getNode at 1 2 3 4 5 6 7. simpl. rewrite !lookup_total_insert_eq.
  split_and!.
  - destruct (rz_pos c); simpl; apply Math_max_ge_l.
  - destruct (rz_pos c); simpl; apply Math_max_ge_l.
  - by destruct (rz_pos c).
  - by destruct (rz_pos c).
  - by destruct (rz_pos c).
  - by intros ->.
  - intros l Hl. unfold getNode. simpl. by rewrite lookup_total_insert_ne.
  - done.
Qed.

Lemma X11_resize_minimum_witness :
  let c := mkResize 1%positive TL (num 410 1) (num 320 1) (num 200 1) (num 140 1)
             (num 300 1) (num 230 1) in
  let n' := getNode (store (resizeMove c (mkMouse (num 900 1) (num 900 1)) exSpawned))
              1%positive in
  num 160 1 ≤ n_w n' ∧ num 120 1 ≤ n_h n'.
Proof.
  intros c n'.
  assert (zoom exSpawned ≠ 0) as Hz by (by apply (bool_decide_unpack _)).
  pose proof (X11_resize_minimum c (mkMouse (num 900 1) (num 900 1)) exSpawned Hz)
    as (Hw & Hh & _).
  by split.
Defined.

(** ** A step of the wheel *)

(** X12.  With Shift held and the zoom in [0.1, 2], a wheel event with a
    positive [deltaY] lowers the zoom by 0.1, but not below 0.1; every
    other event (a [deltaY] of zero included) raises it by 0.1, but not
    above 2.  At either limit a further step in the same direction leaves
    the zoom where it is. *)
Theorem X12_wheel_step (deltaY : Qc) (rect : ViewRect) (e : Mouse) (st : AppState) :
  num 1 10 ≤ zoom st → zoom st ≤ num 2 1 →
  let z' := zoom (wheel true deltaY rect e st) in
  (0 < deltaY → z' = Math_max (num 1 10) (zoom st - num 1 10) ∧ z' ≤ zoom st)
  ∧ (deltaY ≤ 0 → z' = Math_min (num 2 1) (zoom st + num 1 10) ∧ zoom st ≤ z')
  ∧ (0 < deltaY → zoom st = num 1 10 → z' = num 1 10)
  ∧ (deltaY ≤ 0 → zoom st = num 2 1 → z' = num 2 1).
Proof.
  intros Hlo Hhi z'. subst z'. unfold wheel. simpl.
  assert (num 1 10 = Q2Qc (1 # 10)) as Ha by done.
  assert (num 2 1 = Q2Qc 2) as Hb by done.
  assert (∀ d, 0 < d → Qc_gtb d 0 = true) as Hpos.
  { intros d Hd. unfold Qc_gtb, Qc_ltb. by apply bool_decide_eq_true. }
  assert (∀ d, d ≤ 0 → Qc_gtb d 0 = false) as Hneg.
  { intros d Hd. unfold Qc_gtb. by apply Qc_ltb_false. }
  split_and!.
  - intros Hd. rewrite (Hpos _ Hd).
    destruct (Math_min_spec (num 2 1) (Math_max (num 1 10) (zoom st + - num 1 10)))
      as [[H1 ->] | [H1 ->]];
    destruct (Math_max_spec (num 1 10) (zoom st + - num 1 10)) as [[H2 H3] | [H2 H3]];
    destruct (Math_max_spec (num 1 10) (zoom st - num 1 10)) as [[H4 ->] | [H4 ->]];
    rewrite ?H3 in *; rewrite Ha, Hb in *; split; qc_lra.
  - intros Hd. rewrite (Hneg _ Hd).
    destruct (Math_min_spec (num 2 1) (Math_max (num 1 10) (zoom st + num 1 10)))
      as [[H1 H1'] | [H1 H1']];
    destruct (Math_max_spec (num 1 10) (zoom st + num 1 10)) as [[H2 H3] | [H2 H3]];
    destruct (Math_min_spec (num 2 1) (zoom st + num 1 10)) as [[H4 ->] | [H4 ->]];
    rewrite ?H1', ?H3 in *; rewrite Ha, Hb in *; split; qc_lra.
  - intros Hd Hz. rewrite (Hpos _ Hd), Hz.
    by apply (bool_decide_unpack _).
  - intros Hd Hz. rewrite (Hneg _ Hd), Hz.
    by apply (bool_decide_unpack _).
Qed.

Lemma X12_wheel_step_witness :
  zoom (wheel true (num 100 1) exRect exMouse exZoomed)
  = Math_max (num 1 10) (zoom exZoomed - num 1 10).
Proof.
  refine (proj1 (proj1 (X12_wheel_step (num 100 1) exRect exMouse exZoomed _ _) _));
    by apply (bool_decide_unpack _).
Defined.

(** ** Dragging nodes *)

Lemma findNode_ext (σ σ' : Store) (ns : list loc) (i : string) :
  (∀ l, idOf σ' l = idOf σ l) → findNode σ' ns i = findNode σ ns i.
Proof.
  intros Hid. unfold findNode. f_equal.
  induction ns as [| a ns IH]; [done |]. simpl.
  rewrite IH. rewrite Hid. done.
Qed.

Lemma upto_idOf (σ σ' : Store) (l : loc) : samePlaces_upto σ σ' → idOf σ' l = idOf σ l.
Proof. intros H. specialize (H l 0 0). unfold idOf. by injection H. Qed.

Lemma dragMoveIds_upto (starts : gmap string (Qc * Qc)) (dx dy : Qc) (ns : list loc)
    (ids : list string) (σ : Store) :
  samePlaces_upto σ (dragMoveIds starts dx dy ns ids σ).
Proof.
  revert σ. induction ids as [| i rest IH]; intros σ; simpl; [done |].
  destruct (findNode σ ns i) as [n |]; [| apply IH].
  destruct (starts !! i) as [s |]; [| done].
  intros l x y. rewrite IH. unfold getNode. simpl.
  destruct (decide (n = l)) as [-> | Hne].
  - by rewrite lookup_total_insert_eq.
  - by rewrite lookup_total_insert_ne.
Qed.

(** A step of a drag puts every selected id that has a node and a start
    position at that start position plus the displacement. *)
Lemma dragMoveIds_spec (starts : gmap string (Qc * Qc)) (dx dy : Qc) (ns : list loc)
    (ids : list string) (σ : Store) :
  (∀ i n, i ∈ ids → findNode σ ns i = Some n → is_Some (starts !! i)) →
  ∀ i n s, i ∈ ids → findNode σ ns i = Some n → starts !! i = Some s →
    getNode (dragMoveIds starts dx dy ns ids σ) n
    = setPos (getNode σ n) (s.1 + dx) (s.2 + dy).
Proof.
  revert σ. induction ids as [| a rest IH]; intros σ Hok i n s Hi Hfind Hs.
  { by apply elem_of_nil in Hi. }
  simpl.
  destruct (findNode σ ns a) as [na |] eqn:Hfa.
  - destruct (Hok a na) as [sa Hsa]; [left | done |]. rewrite Hsa.
    set (σ1 := putNode na (setPos (getNode σ na) (sa.1 + dx) (sa.2 + dy)) σ).
    assert (samePlaces_upto σ σ1) as Hupto.
    { intros l x y. subst σ1. unfold getNode. simpl.
      destruct (decide (na = l)) as [-> | Hne].
      - by rewrite lookup_total_insert_eq.
      - by rewrite lookup_total_insert_ne. }
    assert (∀ j, findNode σ1 ns j = findNode σ ns j) as Hsame.
    { intros j. apply findNode_ext. intros l. by apply upto_idOf. }
    destruct (decide (i ∈ rest)) as [Hin | Hnin].
    + assert (∀ j m, j ∈ rest → findNode σ1 ns j = Some m → is_Some (starts !! j)) as Hok1.
      { intros j m Hj Hm. rewrite Hsame in Hm. apply (Hok j m); [by right | done]. }
      assert (findNode σ1 ns i = Some n) as Hfind1 by (by rewrite Hsame).
      rewrite (IH σ1 Hok1 i n s Hin Hfind1 Hs). apply Hupto.
    + apply elem_of_cons in Hi as [-> | Hi]; [| done].
      assert (na = n) as -> by congruence. assert (sa = s) as -> by congruence.
      rewrite dragMoveIds_other.
      * subst σ1. unfold getNode. simpl. by rewrite lookup_total_insert_eq.
      * rewrite (upto_idOf σ σ1) by done.
        apply findNode_Some in Hfind as [_ ->]. done.
  - apply elem_of_cons in Hi as [-> | Hi]; [congruence |].
    apply (IH σ) with (i := i); try done.
    intros j m Hj Hm. apply (Hok j m); [by right | done].
Qed.

(** The start positions a drag records. *)
Lemma dragStarts_lookup (st : AppState) (i : string) (n : loc) :
  i ∈ selectedIds st → findNode (store st) (nodes st) i = Some n →
  dragStarts st !! i = Some (n_x (getNode (store st) n), n_y (getNode (store st) n)).
Proof.
  unfold dragStarts.
  assert (∀ ids (acc : gmap string (Qc * Qc)),
    i ∈ ids → findNode (store st) (nodes st) i = Some n →
    foldl (λ starts j,
             match findNode (store st) (nodes st) j with
             | Some m => <[j := (n_x (getNode (store st) m), n_y (getNode (store st) m))]> starts
             | None => starts
             end) acc ids !! i
    = Some (n_x (getNode (store st) n), n_y (getNode (store st) n))) as Hgen.
  { intros ids. induction ids as [| a rest IH]; intros acc Hi Hfind.
    { by apply elem_of_nil in Hi. }
    simpl. destruct (decide (i ∈ rest)) as [Hin | Hnin]; [by apply IH |].
    apply elem_of_cons in Hi as [<- | Hi]; [| done].
    rewrite Hfind. clear IH.
    generalize (<[i:=(n_x (getNode (store st) n), n_y (getNode (store st) n))]> acc)
      (lookup_insert_eq acc i (n_x (getNode (store st) n), n_y (getNode (store st) n))).
    induction rest as [| b rest IH]; intros acc' Hacc'; simpl; [done |].
    apply not_elem_of_cons in Hnin as [Hb Hrest]. apply IH; [done |].
    destruct (findNode _ _ b); [| done]. by rewrite lookup_insert_ne. }
  apply Hgen.
Qed.

(** What a run of pointer moves keeps while a single drag is in progress. *)
Lemma dragMoves_invariant (E : Env) (c : DragCtx) (moves : list Mouse) (st : AppState) :
  listeners st = [LDrag c] →
  let st' := run E (map WindowMouseMove moves) st in
  selectedIds st' = selectedIds st ∧ nodes st' = nodes st ∧ listeners st' = listeners st
  ∧ zoom st' = zoom st ∧ samePlaces_upto (store st) (store st').
Proof.
  revert st. induction moves as [| e moves IH]; intros st Hl; simpl; [done |].
  set (st1 := windowMouseMove e st).
  assert (selectedIds st1 = selectedIds st ∧ nodes st1 = nodes st
          ∧ listeners st1 = listeners st ∧ zoom st1 = zoom st
          ∧ samePlaces_upto (store st) (store st1)) as (H1 & H2 & H3 & H4 & H5).
  { subst st1. unfold windowMouseMove.
    set (st0 := if panning st then _ else st).
    assert (selectedIds st0 = selectedIds st ∧ nodes st0 = nodes st
            ∧ listeners st0 = listeners st ∧ zoom st0 = zoom st
            ∧ store st0 = store st) as (H1 & H2 & H3 & H4 & H5).
    { subst st0. by destruct (panning st). }
    clearbody st0. rewrite H3, Hl. simpl. unfold dragMove. simpl.
    split_and!; try congruence. rewrite <- H5. apply dragMoveIds_upto. }
  clearbody st1. destruct (IH st1) as (I1 & I2 & I3 & I4 & I5); [congruence |].
  split_and!; try congruence.
  all: intros l x y; by rewrite I5, H5.
Qed.

(** X13.  A press on a node that starts a drag (normal mode, left button,
    not on an input, Shift and Control up, no other node focused) makes the
    node the selection unless it is selected already.  After any pointer
    moves, every selected node is at the position it had at the press plus
    the displacement of the pointer since the press divided by the zoom,
    whatever the moves in between were; nodes whose id is not selected are
    as they were. *)
Theorem X13_drag_follows_pointer (E : Env) (l : loc) (e0 e : Mouse) (moves : list Mouse)
    (st : AppState) :
  inMode ModeNormal st = true → shiftDown st = false → ctrlDown st = false →
  (truthy_id (focusedId st) = true → focusedId st = Some (idOf (store st) l)) →
  listeners st = [] → zoom st ≠ 0 →
  let st1 := nodeMouseDown l 0 false e0 st in
  let st2 := run E (map WindowMouseMove (moves ++ [e])) st1 in
  let dx := (clientX e - clientX e0) / zoom st in
  let dy := (clientY e - clientY e0) / zoom st in
  selectedIds st1
  = (if set_has (selectedIds st) (idOf (store st) l) then selectedIds st
     else [idOf (store st) l])
  ∧ (∀ i n, i ∈ selectedIds st1 → findNode (store st) (nodes st) i = Some n →
       getNode (store st2) n
       = setPos (getNode (store st) n)
                (n_x (getNode (store st) n) + dx) (n_y (getNode (store st) n) + dy))
  ∧ (∀ b, idOf (store st) b ∉ selectedIds st1 →
       getNode (store st2) b = getNode (store st) b).
Proof.
  intros Hmode Hshift Hctrl Hfocus Hls Hzoom st1 st2 dx dy.
  set (i0 := idOf (store st) l) in *.
  set (sel1 := if set_has (selectedIds st) i0 then selectedIds st else [i0]).
  assert (∃ f, st1 = set_listeners
                       [LDrag (mkDrag (clientX e0) (clientY e0)
                                 (dragStarts (set_selectedIds sel1 st)))]
                       (set_focusedId f (set_selectedIds sel1 st))) as [f Hst1].
  { subst st1. unfold nodeMouseDown. fold i0.
    set (s1 := if bool_decide (1 < length (selectedIds st))%nat && set_has (selectedIds st) i0
               then set_focusedId None st else st).
    assert (∃ f, s1 = set_focusedId f st
                 ∧ (truthy_id f = true → f = Some i0)) as (f1 & Hs1 & Hf1).
    { subst s1. destruct (_ && _).
      - by exists None.
      - exists (focusedId st). split; [by destruct st | done]. }
    assert (inMode ModeNormal s1 = true ∧ shiftDown s1 = false ∧ ctrlDown s1 = false
            ∧ selectedIds s1 = selectedIds st ∧ focusedId s1 = f1)
      as (Hm1 & Hsh1 & Hc1 & Hsel1 & Hfo1) by (by rewrite Hs1).
    clearbody s1. rewrite Hm1, Hsh1, Hc1, Hfo1, Hsel1. simpl.
    assert (truthy_id f1 && negb (bool_decide (f1 = Some i0)) && true = false) as ->.
    { destruct (truthy_id f1) eqn:Ht; [| done].
      rewrite (Hf1 eq_refl). by rewrite bool_decide_eq_true_2. }
    subst sel1 s1. destruct (set_has (selectedIds st) i0) eqn:Hhas; simpl.
    - exists f1. rewrite Hls. by destruct st.
    - destruct (truthy_id f1) eqn:Ht; simpl.
      + exists f1. rewrite Hls. by destruct st.
      + exists (Some i0). rewrite Hls. by destruct st. }
  assert (selectedIds st1 = sel1 ∧ nodes st1 = nodes st ∧ store st1 = store st
          ∧ zoom st1 = zoom st) as (Hsel1 & Hn1 & Hσ1 & Hz1) by (by rewrite Hst1).
  set (c := mkDrag (clientX e0) (clientY e0) (dragStarts (set_selectedIds sel1 st))) in *.
  assert (listeners st1 = [LDrag c]) as Hl1 by (by rewrite Hst1).
  clearbody st1. clear Hst1.
  subst st2. rewrite map_app. unfold run. rewrite foldl_app. fold (run E (map WindowMouseMove moves) st1).
  destruct (dragMoves_invariant E c moves st1 Hl1) as (I1 & I2 & I3 & I4 & I5).
  assert (∀ b, idOf (store st) b ∉ sel1 →
            getNode (store (run E (map WindowMouseMove moves) st1)) b = getNode (store st) b)
    as Hframe.
  { intros b Hb. destruct (mouseMoves_frame E moves b st1) as (_ & _ & Hg).
    - by rewrite Hσ1, Hsel1.
    - rewrite Hl1. intros c' Hc'. by apply list_elem_of_singleton in Hc'.
    - by rewrite Hg, Hσ1. }
  set (st' := run E (map WindowMouseMove moves) st1) in *. clearbody st'.
  simpl. unfold windowMouseMove.
  set (st0 := if panning st' then _ else st').
  assert (selectedIds st0 = selectedIds st' ∧ nodes st0 = nodes st'
          ∧ listeners st0 = listeners st' ∧ zoom st0 = zoom st'
          ∧ store st0 = store st') as (H1 & H2 & H3 & H4 & H5).
  { subst st0. by destruct (panning st'). }
  clearbody st0. rewrite H3, I3, Hl1. simpl. unfold dragMove. simpl.
  rewrite H1, H2, H4, H5, I1, I2, I4, Hsel1, Hn1, Hz1.
  rewrite Hσ1 in I5.
  assert (∀ j, findNode (store st') (nodes st) j = findNode (store st) (nodes st) j) as Hfn.
  { intros j. apply findNode_ext. intros m. by apply upto_idOf. }
  split_and!; [done | |].
  - intros i n Hi Hfind.
    erewrite (dragMoveIds_spec _ _ _ _ _ _ _ i n
                (n_x (getNode (store st) n), n_y (getNode (store st) n))).
    + simpl. apply I5.
    + done.
    + by rewrite Hfn.
    + subst c. simpl. by apply (dragStarts_lookup (set_selectedIds sel1 st)).
    Unshelve.
    intros j m Hj Hm. rewrite Hfn in Hm. subst c. simpl.
    by rewrite (dragStarts_lookup (set_selectedIds sel1 st) j m).
  - intros b Hb. rewrite dragMoveIds_other; [by apply Hframe |].
    by rewrite (upto_idOf (store st) (store st')).
Qed.

Lemma X13_drag_follows_pointer_witness :
  getNode (store (run exEnv (map WindowMouseMove
                               ([mkMouse 0 0] ++ [mkMouse (num 420 1) (num 300 1)]))
                    (nodeMouseDown 2%positive 0 false exMouse exTwo))) 2%positive
  = setPos (getNode (store exTwo) 2%positive)
      (n_x (getNode (store exTwo) 2%positive) + (num 420 1 - clientX exMouse) / zoom exTwo)
      (n_y (getNode (store exTwo) 2%positive) + (num 300 1 - clientY exMouse) / zoom exTwo).
Proof.
  assert (inMode ModeNormal exTwo = true) as Hmode by (by vm_compute).
  assert (shiftDown exTwo = false) as Hshift by (by vm_compute).
  assert (ctrlDown exTwo = false) as Hctrl by (by vm_compute).
  assert (truthy_id (focusedId exTwo) = true →
          focusedId exTwo = Some (idOf (store exTwo) 2%positive)) as Hfocus.
  { intros _. by vm_compute. }
  assert (listeners exTwo = []) as Hls by (by vm_compute).
  assert (zoom exTwo ≠ 0) as Hz by (by apply (bool_decide_unpack _)).
  assert ("uuid-1" ∈ selectedIds (nodeMouseDown 2%positive 0 false exMouse exTwo)) as Hin.
  { apply (bool_decide_unpack _). by vm_compute. }
  assert (findNode (store exTwo) (nodes exTwo) "uuid-1" = Some 2%positive) as Hfind
    by (by vm_compute).
  exact (proj1 (proj2 (X13_drag_follows_pointer exEnv 2%positive exMouse
    (mkMouse (num 420 1) (num 300 1)) [mkMouse 0 0] exTwo Hmode Hshift Hctrl Hfocus Hls Hz))
    "uuid-1" 2%positive Hin Hfind).
Defined.

(** ** The least size of a node *)

Lemma putNode_sizeOK (σ : Store) (l : loc) (n : NodeObj) :
  minSize n → sizeOK σ → sizeOK (putNode l n σ).
Proof. intros Hn Hσ. unfold sizeOK. simpl. by apply map_Forall_insert_2. Qed.

Lemma getNode_minSize (σ : Store) (l : loc) :
  allocated σ l → sizeOK σ → minSize (getNode σ l).
Proof.
  intros (n & Hn & _) Hσ. rewrite (getNode_lookup σ l n Hn). by apply (Hσ l n).
Qed.

Lemma deepCopy_sizeOK (σ σ' : Store) (l c : loc) :
  deepCopy σ l = (σ', c) → allocated σ l → sizeOK σ → sizeOK σ'.
Proof.
  unfold deepCopy. intros Hcopy Hl Hσ.
  pose proof (getNode_minSize σ l Hl Hσ) as Hmin.
  destruct (allocData _ σ) as [σ1 dl] eqn:Hd.
  assert (nodeHeap σ1 = nodeHeap σ) as Hσ1.
  { unfold allocData in Hd. by injection Hd as <- <-. }
  unfold allocNode in Hcopy. injection Hcopy as <- <-.
  apply putNode_sizeOK; [done |]. unfold sizeOK. by rewrite Hσ1.
Qed.

Lemma deepCopyList_sizeOK (ls : list loc) (σ σ' : Store) (cs : list loc) :
  deepCopyList σ ls = (σ', cs) → Forall (allocated σ) ls → sizeOK σ → sizeOK σ'.
Proof.
  revert σ σ' cs. induction ls as [| l ls IH]; intros σ σ' cs; cbn [deepCopyList].
  - by intros [= <- <-].
  - destruct (deepCopy σ l) as [σ1 c] eqn:Hc.
    destruct (deepCopyList σ1 ls) as [σ2 cs'] eqn:Hcs.
    intros [= <- <-] [Hl Hls]%Forall_cons Hσ.
    pose proof (deepCopy_sizeOK _ _ _ _ Hc Hl Hσ) as Hσ1.
    apply deepCopy_spec in Hc as (_ & _ & Hext & _).
    apply (IH σ1 σ2 cs' Hcs); [| done].
    eapply Forall_impl; [exact Hls |]. intros x. by apply extends_allocated.
Qed.

Lemma cloneNode_sizeOK (E : Env) (st st1 : AppState) (src c : loc) :
  cloneNode E st src = (st1, c) → allocated (store st) src → sizeOK (store st) →
  sizeOK (store st1).
Proof.
  unfold cloneNode. destruct (deepCopy (store st) src) as [σ c'] eqn:Hcopy.
  intros [= <- <-] Hsrc Hσ. simpl.
  pose proof (deepCopy_sizeOK _ _ _ _ Hcopy Hsrc Hσ) as Hσ1.
  apply deepCopy_spec in Hcopy as (_ & _ & _ & Hc & _).
  apply putNode_sizeOK; [| done]. exact (getNode_minSize σ c' Hc Hσ1).
Qed.

Lemma cloneNodes_sizeOK (E : Env) (srcs : list loc) (st st' : AppState) (cs : list loc) :
  cloneNodes E st srcs = (st', cs) → Forall (allocated (store st)) srcs →
  sizeOK (store st) → sizeOK (store st').
Proof.
  revert st st' cs. induction srcs as [| src rest IH]; intros st st' cs; cbn [cloneNodes].
  - by intros [= <- <-].
  - destruct (cloneNode E st src) as [st1 c] eqn:Hc.
    destruct (cloneNodes E st1 rest) as [st2 cs'] eqn:Hcs.
    intros [= <- <-] [Hl Hls]%Forall_cons Hσ.
    pose proof (cloneNode_sizeOK _ _ _ _ _ Hc Hl Hσ) as Hσ1.
    apply cloneNode_spec in Hc as (_ & _ & Hext & _).
    apply (IH st1 st2 cs' Hcs); [| done].
    eapply Forall_impl; [exact Hls |]. intros x. by apply extends_allocated.
Qed.

Lemma dragMoveIds_sizeOK (starts : gmap string (Qc * Qc)) (dx dy : Qc) (ns : list loc)
    (ids : list string) (σ : Store) :
  Forall (allocated σ) ns → sizeOK σ → sizeOK (dragMoveIds starts dx dy ns ids σ).
Proof.
  revert σ. induction ids as [| i rest IH]; intros σ Hns Hσ; simpl; [done |].
  destruct (findNode σ ns i) as [n |] eqn:Hfind; [| by apply IH].
  destruct (starts !! i) as [s |]; [| done].
  apply findNode_Some in Hfind as [Hn _].
  assert (allocated σ n) as Hal by (by eapply (proj1 (Forall_forall _ _) Hns)).
  apply IH.
  - eapply Forall_impl; [exact Hns |]. by apply putNode_grows.
  - apply putNode_sizeOK; [| done]. exact (getNode_minSize σ n Hal Hσ).
Qed.

Lemma resizeMove_sizeOK (c : ResizeCtx) (e : Mouse) (st : AppState) :
  sizeOK (store st) → sizeOK (store (resizeMove c e st)).
Proof.
  intros Hσ. unfold resizeMove. simpl. apply putNode_sizeOK; [| done].
  split; destruct (rz_pos c); simpl; apply Math_max_ge_l.
Qed.

Lemma spawnSize_min (t : PrimType) : num 160 1 ≤ (spawnSize t).1 ∧ num 120 1 ≤ (spawnSize t).2.
Proof. destruct t; split; by apply (bool_decide_unpack _). Qed.

Lemma keydown_sizeOK (E : Env) (key : string) (altKey answer : bool) (st : AppState) :
  wf st → sizeOK (store st) →
  wf (keydown E key altKey answer st) ∧ sizeOK (store (keydown E key altKey answer st)).
Proof.
  revert st.
  apply (keydown_rel (λ s s', wf s → sizeOK (store s) → wf s' ∧ sizeOK (store s'))
           E key altKey answer); try done.
  - intros s1 s2 s3 H12 H23 Hwf Hσ. destruct (H12 Hwf Hσ) as [Hwf2 Hσ2]. by apply H23.
  - intros s s' _ _ Hkd Hwf Hσ. pose proof (wf_keyDelete true s Hwf) as Hwf'.
    rewrite Hkd in Hwf'. split; [done |].
    unfold keyDelete in Hkd. destruct (idsToDelete s); [| done]. by injection Hkd as <-.
  - intros s _ _ _ Hwf Hσ. split; [by apply wf_keyNodeUndo |].
    unfold keyNodeUndo. by destruct (nodeUndo s).
  - intros s _ _ _ Hwf Hσ. split; [by apply wf_keyNodeRedo |].
    unfold keyNodeRedo. by destruct (nodeRedo s).
  - intros s _ _ _ Hwf Hσ. unfold keyDrawUndo. by destruct (last (drawings s)).
  - intros s _ _ _ Hwf Hσ. unfold keyDrawRedo. by destruct (drawRedo s).
  - intros s _ _ _ _ Hwf Hσ. split; [by apply wf_keyCopy |].
    unfold keyCopy. case_bool_decide.
    + destruct (deepCopyList _ _) as [σ copies] eqn:Hcopy. simpl.
      apply (deepCopyList_sizeOK _ _ _ _ Hcopy); [| done].
      apply Forall_filter_sub, Hwf.
    + destruct (truthy_id (focusedId s)); [| done].
      destruct (findNode _ _ _) as [n |] eqn:Hfind; [| done].
      destruct (deepCopy (store s) n) as [σ copy] eqn:Hcopy. simpl.
      apply (deepCopy_sizeOK _ _ _ _ Hcopy); [| done].
      apply findNode_Some in Hfind as [Hn _].
      destruct Hwf as (Hns & _). by eapply (proj1 (Forall_forall _ _) Hns).
  - intros s clip _ _ _ _ Hclip Hwf Hσ. split; [by apply wf_keyPaste |].
    assert (Forall (allocated (store s)) (clipLocs clip)) as Hsrcs.
    { destruct Hwf as (_ & _ & _ & Hc & _). by rewrite Hclip in Hc. }
    rewrite (match clip as c return keyPaste E c s = keyPaste E (ClipMulti (clipLocs c)) s
             with ClipSingle src => keyPaste_single E src s | ClipMulti _ => eq_refl end).
    unfold keyPaste.
    destruct (cloneNodes E (set_selectedIds [] s) (clipLocs clip)) as [s5 clones] eqn:Hcl.
    apply cloneNodes_sizeOK in Hcl; [| done | done].
    by destruct clones.
Qed.

Lemma listenerMoves_sizeOK (e : Mouse) (ls : list Listener) (st : AppState) :
  wf st → Forall (allocated (store st)) (resizeRefs ls) → sizeOK (store st) →
  sizeOK (store (foldl (listenerMove e) st ls)).
Proof.
  revert st. induction ls as [| l ls IH]; intros st Hwf Hls Hσ; simpl; [done |].
  assert (wf (listenerMove e st l)) as Hwf'.
  { apply (wf_listenerMoves e [l] st Hwf).
    destruct l; simpl in *; try done. apply Forall_cons in Hls as [? _]. by constructor. }
  assert (grows (store st) (store (listenerMove e st l))) as Hg.
  { destruct l as [| c | c]; simpl.
    - by intros x Hx.
    - apply dragMoveIds_grows. apply Hwf.
    - simpl in Hls. apply Forall_cons in Hls as [Hc _].
      apply putNode_grows; [done |]. by repeat case_match. }
  apply IH; [done | |].
  - assert (Forall (allocated (store st)) (resizeRefs ls)) as Hrest.
    { destruct l; simpl in Hls; [done | done |]. by apply Forall_cons in Hls as [_ ?]. }
    eapply Forall_impl; [exact Hrest | exact Hg].
  - destruct l as [| c | c]; simpl; [done | |].
    + apply dragMoveIds_sizeOK; [apply Hwf | done].
    + by apply resizeMove_sizeOK.
Qed.

Lemma listenerUps_store (e : Mouse) (dom : list DomNode) (ls : list Listener)
    (st : AppState) :
  store (foldl (listenerUp e dom) st ls) = store st.
Proof.
  revert st. induction ls as [| l ls IH]; intros st; simpl; [done |].
  rewrite IH. destruct l as [| c | c]; simpl; [| done | done].
  unfold selectUp. destruct (selecting st); simpl; [| done].
  by destruct (selectStart st) as [[x1 y1] |].
Qed.

(** X14.  At a zoom that is not zero and in exact arithmetic, no event but
    an import or a load makes a node smaller than 160 by 120: if every node
    object of a well-formed state has at least this size, so has every node
    object after the event. *)
Theorem X14_minimum_size_kept (E : Env) (ev : Event) (st : AppState) :
  wf st → zoom st ≠ 0 → enabled ev st → ¬ importOrLoad ev → sizeOK (store st) →
  sizeOK (store (handle E ev st)).
Proof.
  intros Hwf _ Hen Hnot Hσ.
  destruct ev as [key altKey answer | key | shiftKey deltaY rect e | button e | e | e dom
                 | l onInput | l button onInput e | l pos e | l k value | t rect | |
                 | content | answer | raw |]; simpl in *.
  - by apply keydown_sizeOK.
  - unfold keyup. by repeat case_bool_decide.
  - unfold wheel. by destruct shiftKey.
  - unfold viewportMouseDown. by repeat (case_match; try done).
  - unfold windowMouseMove.
    set (st0 := if panning st then _ else st).
    assert (wf st0 ∧ store st0 = store st ∧ listeners st0 = listeners st)
      as (Hwf0 & Hσ0 & Hl0) by (subst st0; by destruct (panning st)).
    clearbody st0. apply listenerMoves_sizeOK; [done | | by rewrite Hσ0].
    by destruct Hwf0 as (_ & _ & _ & _ & H).
  - unfold windowMouseUp. by rewrite listenerUps_store.
  - unfold nodeDblClick. by repeat (case_match; try done).
  - unfold nodeMouseDown. by repeat (case_match; try done).
  - done.
  - done.
  - unfold spawn. pose proof (spawnSize_min t) as [Hw Hh].
    destruct (spawnSize t) as [w h].
    change (store (set_uuidCalls (S (uuidCalls st)) st)) with (store st).
    destruct (allocData _ _) as [σ1 dl] eqn:Hd.
    assert (nodeHeap σ1 = nodeHeap (store st)) as Hσ1.
    { unfold allocData in Hd. by injection Hd as <- <-. }
    unfold allocNode. simpl. apply map_Forall_insert_2; [done |].
    by rewrite Hσ1.
  - done.
  - done.
  - done.
  - unfold clearAll. by destruct answer.
  - done.
  - done.
Qed.

Lemma X14_minimum_size_kept_witness :
  let st := run exEnv [Spawn Tnote exRect; ResizeMouseDown 1%positive TL exMouse] initialState in
  sizeOK (store (handle exEnv (WindowMouseMove (mkMouse (num 900 1) (num 900 1))) st)).
Proof.
  intros st. apply X14_minimum_size_kept.
  - apply (reachable_wf exEnv).
    apply (reach_step exEnv _ (ResizeMouseDown 1%positive TL exMouse)).
    + apply (reach_step exEnv initialState (Spawn Tnote exRect)); [apply reach_init | exact I].
    + split; [| by vm_compute]. apply (bool_decide_unpack _). by vm_compute.
  - by apply (bool_decide_unpack _).
  - exact I.
  - intros [].
  - intros l n Hl.
    assert (nodeHeap (store st) = {[1%positive := mkNode "uuid-0" Tnote
              (num 300 1) (num 230 1) (num 200 1) (num 140 1) 1%positive]}) as Hheap.
    { by vm_compute. }
    rewrite Hheap in Hl. apply lookup_singleton_Some in Hl as [_ <-].
    split; by apply (bool_decide_unpack _).
Defined.

(** ** The listeners of a gesture, as a whole *)

Lemma listenerMoves_shape (e : Mouse) (ls : list Listener) (st : AppState) :
  ∃ σ, foldl (listenerMove e) st ls = set_store σ st.
Proof.
  revert st. induction ls as [| l ls IH]; intros st; simpl.
  - exists (store st). by destruct st.
  - destruct (IH (listenerMove e st l)) as (σ & ->).
    exists σ. destruct l as [| c | c]; simpl; unfold dragMove, resizeMove;
      destruct st; reflexivity.
Qed.

Lemma listenerUps_shape (e : Mouse) (dom : list DomNode) (ls : list Listener)
    (st : AppState) :
  ∃ sg sel f d t,
    foldl (listenerUp e dom) st ls
    = set_saveTimer t (set_isDirty d (set_focusedId f (set_selectedIds sel
        (set_selecting sg st))))
    ∧ (d = t ∨ (d = isDirty st ∧ t = saveTimer st)).
Proof.
  revert st. induction ls as [| l ls IH]; intros st; simpl.
  - exists (selecting st), (selectedIds st), (focusedId st), (isDirty st), (saveTimer st).
    split; [by destruct st | by right].
  - assert (∃ sg' sel' f' d' t',
              listenerUp e dom st l
              = set_saveTimer t' (set_isDirty d' (set_focusedId f' (set_selectedIds sel'
                  (set_selecting sg' st))))
              ∧ (d' = t' ∨ (d' = isDirty st ∧ t' = saveTimer st)))
      as (sg' & sel' & f' & d' & t' & Hstep & Hdt').
    { destruct l as [| c | c]; simpl.
      - unfold selectUp. destruct (selecting st) eqn:Hsg; simpl.
        + destruct (selectStart st) as [[x1 y1] |] eqn:Hss.
          * eexists false, _, None, (isDirty st), (saveTimer st).
            split; [by destruct st | by right].
          * eexists false, (selectedIds st), (focusedId st), (isDirty st), (saveTimer st).
            split; [by destruct st | by right].
        + eexists (selecting st), (selectedIds st), (focusedId st), (isDirty st),
            (saveTimer st). split; [by destruct st | by right].
      - eexists (selecting st), (selectedIds st), (focusedId st), true, true.
        split; [by destruct st | by left].
      - eexists (selecting st), (selectedIds st), (focusedId st), true, true.
        split; [by destruct st | by left]. }
    destruct (IH (listenerUp e dom st l)) as (sg & sel & f & d & t & -> & Hdt).
    rewrite Hstep in Hdt |- *. simpl in Hdt.
    exists sg, sel, f, d, t. split; [by destruct st |].
    destruct Hdt as [-> | [-> ->]]; [by left | done].
Qed.

(** ** Panning *)

(** X15.  A press on the viewport with Shift held (normal mode, left
    button) starts a pan: after any later pointer move the pan is the pan
    at the press plus the displacement of the pointer since the press, and
    the zoom is as it was.  The release ends the pan: it and the moves
    after it leave the pan where the last move before the release put
    it. *)
Theorem X15_pan_follows_pointer (e0 e1 e2 e3 : Mouse) (dom : list DomNode) (st : AppState) :
  inMode ModeNormal st = true → shiftDown st = true →
  let st1 := viewportMouseDown 0 e0 st in
  let st2 := windowMouseMove e1 st1 in
  let st3 := windowMouseUp e2 dom st2 in
  let st4 := windowMouseMove e3 st3 in
  panning st1 = true
  ∧ panX st2 = clientX e1 - (clientX e0 - panX st)
  ∧ panY st2 = clientY e1 - (clientY e0 - panY st)
  ∧ zoom st2 = zoom st
  ∧ panning st3 = false
  ∧ panX st4 = panX st2 ∧ panY st4 = panY st2 ∧ zoom st4 = zoom st.
Proof.
  intros Hmode Hshift st1 st2 st3 st4.
  assert (st1 = set_panStart (clientX e0 - panX st, clientY e0 - panY st)
                   (set_panning true st)) as Hst1.
  { subst st1. unfold viewportMouseDown. by rewrite Hmode, Hshift. }
  clearbody st1.
  assert (panning st2 = true ∧ panX st2 = clientX e1 - (clientX e0 - panX st)
          ∧ panY st2 = clientY e1 - (clientY e0 - panY st) ∧ zoom st2 = zoom st)
    as (Hp2 & Hx2 & Hy2 & Hz2).
  { subst st2. unfold windowMouseMove.
    match goal with |- context [foldl (listenerMove e1) ?s ?ls] =>
      destruct (listenerMoves_shape e1 ls s) as (σ & ->) end.
    by rewrite Hst1. }
  clearbody st2.
  assert (panning st3 = false ∧ panX st3 = panX st2 ∧ panY st3 = panY st2
          ∧ zoom st3 = zoom st2) as (Hp3 & Hx3 & Hy3 & Hz3).
  { subst st3. unfold windowMouseUp.
    match goal with |- context [foldl (listenerUp e2 dom) ?s ?ls] =>
      destruct (listenerUps_shape e2 dom ls s) as (sg & sel & f & d & t & -> & _) end.
    done. }
  clearbody st3.
  assert (panX st4 = panX st3 ∧ panY st4 = panY st3 ∧ zoom st4 = zoom st3)
    as (Hx4 & Hy4 & Hz4).
  { subst st4. unfold windowMouseMove. rewrite Hp3.
    match goal with |- context [foldl (listenerMove e3) ?s ?ls] =>
      destruct (listenerMoves_shape e3 ls s) as (σ & ->) end.
    done. }
  rewrite Hst1. split_and!; try done; congruence.
Qed.

Lemma X15_pan_follows_pointer_witness :
  let st := set_shiftDown true exZoomed in
  panX (windowMouseMove (mkMouse (num 50 1) (num 60 1))
          (viewportMouseDown 0 (mkMouse (num 10 1) (num 10 1)) st))
  = num 50 1 - (num 10 1 - panX st).
Proof.
  intros st.
  exact (proj1 (proj2 (X15_pan_follows_pointer (mkMouse (num 10 1) (num 10 1))
    (mkMouse (num 50 1) (num 60 1)) exMouse exMouse [] st eq_refl eq_refl))).
Defined.

(** ** The dirty flag and the save timer *)

Lemma keydown_dirty (E : Env) (key : string) (altKey answer : bool) (st : AppState) :
  isDirty st = saveTimer st →
  isDirty (keydown E key altKey answer st) = saveTimer (keydown E key altKey answer st).
Proof.
  revert st.
  apply (keydown_rel (λ s s', isDirty s = saveTimer s → isDirty s' = saveTimer s')
           E key altKey answer); try done.
  - auto.
  - intros s s' _ _ Hkd. unfold keyDelete in Hkd. destruct (idsToDelete s); [| done].
    by injection Hkd as <-.
  - intros s _ _ _. unfold keyNodeUndo. by destruct (nodeUndo s).
  - intros s _ _ _. unfold keyNodeRedo. by destruct (nodeRedo s).
  - intros s _ _ _. unfold keyDrawUndo. by destruct (last (drawings s)).
  - intros s _ _ _. unfold keyDrawRedo. by destruct (drawRedo s).
  - intros s _ _ _ _. by destruct (keyCopy_shape s) as (σ & c & ->).
Qed.

Lemma handle_dirty (E : Env) (ev : Event) (st : AppState) :
  isDirty st = saveTimer st → isDirty (handle E ev st) = saveTimer (handle E ev st).
Proof.
  intros Hd.
  destruct ev as [key altKey answer | key | shiftKey deltaY rect e | button e | e | e dom
                 | l onInput | l button onInput e | l pos e | l k value | t rect | |
                 | content | answer | raw |]; simpl.
  - by apply keydown_dirty.
  - unfold keyup. by repeat case_bool_decide.
  - unfold wheel. by destruct shiftKey.
  - unfold viewportMouseDown. by repeat (case_match; try done).
  - unfold windowMouseMove.
    match goal with |- context [foldl (listenerMove e) ?s ?ls] =>
      destruct (listenerMoves_shape e ls s) as (σ & ->) end.
    by destruct (panning st).
  - unfold windowMouseUp.
    match goal with |- context [foldl (listenerUp e dom) ?s ?ls] =>
      destruct (listenerUps_shape e dom ls s) as (sg & sel & f & d & t & -> & Hdt) end.
    simpl. by destruct Hdt as [-> | [-> ->]].
  - unfold nodeDblClick. by repeat (case_match; try done).
  - unfold nodeMouseDown. by repeat (case_match; try done).
  - done.
  - done.
  - unfold spawn. destruct (spawnSize t) as [w h].
    destruct (allocData _ _) as [σ1 dl]. by destruct (allocNode _ _) as [σ2 nl].
  - done.
  - done.
  - unfold importState. destruct (JSON_parse E content) as [[| d] |]; try done.
  - unfold clearAll. by destruct answer.
  - unfold loadFromStorage. destruct raw as [raw |]; [| done].
    destruct (truthy_str raw); simpl; [| done].
    destruct (JSON_parse E raw) as [[| d] |]; try done.
    unfold assignDoc. destruct (allocNodeVals _ _) as [σ ns].
    destruct (doc_meta d) as [m |]; [| done].
    unfold assignMeta. by repeat case_match.
  - done.
Qed.

(** X16.  In every state the page can reach, the dirty flag is set exactly
    while a save is scheduled: the [beforeunload] listener asks to confirm
    leaving exactly while the save timer is pending. *)
Theorem X16_dirty_while_save_pending (E : Env) (st : AppState) :
  reachable E st → beforeUnload st = saveTimer st.
Proof.
  unfold beforeUnload. induction 1 as [| st ev Hreach IH Hen]; [done |].
  by apply handle_dirty.
Qed.

Lemma X16_dirty_while_save_pending_witness :
  beforeUnload exSpawned = saveTimer exSpawned.
Proof.
  apply (X16_dirty_while_save_pending exEnv).
  apply (reach_step exEnv initialState (Spawn Thost exRect)); [apply reach_init | exact I].
Defined.

(** ** Saving, loading, exporting and importing *)

(** X17.  Loading the blob that the save timer wrote for a state gives,
    whatever the state loaded into, node objects that hold what the saved
    nodes held, in the same order, the saved edges, strokes and text notes,
    and the saved zoom and pan.  The node objects are new ones; the
    selection, the focus, the node ledgers, the clipboard and the dirty
    flag are those of the state loaded into. *)
Theorem X17_autosave_round_trip (E : Env) (raw : string) (st st0 : AppState) :
  truthy_str raw = true → JSON_parse E raw = Some (PValue (savePayload st)) →
  let st' := loadFromStorage E (Some raw) st0 in
  nodeVals st' = nodeVals st
  ∧ edges st' = edges st ∧ drawings st' = drawings st ∧ textDrawings st' = textDrawings st
  ∧ zoom st' = zoom st ∧ panX st' = panX st ∧ panY st' = panY st
  ∧ extends (store st0) (store st') ∧ Forall (allocated (store st')) (nodes st')
  ∧ selectedIds st' = selectedIds st0 ∧ focusedId st' = focusedId st0
  ∧ nodeUndo st' = nodeUndo st0 ∧ nodeRedo st' = nodeRedo st0
  ∧ clipboard st' = clipboard st0 ∧ isDirty st' = isDirty st0.
Proof.
  intros Hraw Hparse st'. subst st'. unfold loadFromStorage.
  rewrite Hraw, Hparse. simpl. unfold assignDoc. simpl.
  destruct (allocNodeVals (store st0) (nodeVals st)) as [σ ns] eqn:Halloc.
  apply allocNodeVals_spec in Halloc as (Hext & Hall & Hview).
  unfold assignMeta. simpl. unfold nodeVals at 1. simpl. done.
Qed.

(** X18.  When [JSON.parse] returns for the chosen file the document that
    [exportState] wrote for a state (or the payload of the save timer,
    whose [meta] the import does not read), the import gives node objects
    that hold what the exported nodes held, in the same order, and the
    exported edges, strokes and text notes; the node objects are new ones,
    the focus and the selection are cleared, and the zoom and the pan stay
    those of the importing state. *)
Theorem X18_export_import_round_trip (E : Env) (content : string) (d : Doc)
    (st st0 : AppState) :
  JSON_parse E content = Some (PValue d) → d = exportDoc st ∨ d = savePayload st →
  let st' := importState E content st0 in
  nodeVals st' = nodeVals st
  ∧ edges st' = edges st ∧ drawings st' = drawings st ∧ textDrawings st' = textDrawings st
  ∧ zoom st' = zoom st0 ∧ panX st' = panX st0 ∧ panY st' = panY st0
  ∧ extends (store st0) (store st') ∧ Forall (allocated (store st')) (nodes st')
  ∧ selectedIds st' = [] ∧ focusedId st' = None.
Proof.
  intros Hparse Hd st'. subst st'. unfold importState. rewrite Hparse.
  unfold assignDoc.
  assert (default [] (doc_nodes d) = nodeVals st ∧ default [] (doc_edges d) = edges st
          ∧ default [] (doc_drawings d) = drawings st
          ∧ default [] (doc_textDrawings d) = textDrawings st) as (-> & -> & -> & ->).
  { by destruct Hd as [-> | ->]. }
  destruct (allocNodeVals (store st0) (nodeVals st)) as [σ ns] eqn:Halloc.
  apply allocNodeVals_spec in Halloc as (Hext & Hall & Hview).
  unfold nodeVals at 1. simpl. done.
Qed.

Lemma X17_autosave_round_trip_witness :
  nodeVals (loadFromStorage exSavedEnv (Some "saved") initialState) = nodeVals exSpawned.
Proof.
  exact (proj1 (X17_autosave_round_trip exSavedEnv "saved" exSpawned initialState
                  eq_refl eq_refl)).
Defined.

Lemma X18_export_import_round_trip_witness :
  nodeVals (importState exSavedEnv "saved" exZoomed) = nodeVals exSpawned.
Proof.
  exact (proj1 (X18_export_import_round_trip exSavedEnv "saved" (savePayload exSpawned)
                  exSpawned exZoomed eq_refl (or_intror eq_refl))).
Defined.

(** ** The order of the rendered elements *)

(** X19.  [render] creates one element for every node of the node list:
    the elements are a permutation of the nodes in which every zone comes
    before every node that is not a zone.  An element carries the resize
    handles exactly when it is the element of the focused id. *)
Theorem X19_render_zones_first (st : AppState) :
  renderOrder st ≡ₚ nodes st
  ∧ length (render st) = length (nodes st)
  ∧ (∀ i j a b, render st !! i = Some a → render st !! j = Some b →
       el_zone a = true → el_zone b = false → (i < j)%nat)
  ∧ (∀ a, a ∈ render st → el_handles a = true ↔ focusedId st = Some (el_id a)).
Proof.
  assert (renderOrder st ≡ₚ nodes st) as Hperm.
  { unfold renderOrder. apply filter_app_complement. }
  split_and!.
  - done.
  - unfold render. by rewrite length_map, Hperm.
  - intros i j a b Ha Hb Hza Hzb. unfold render in Ha, Hb.
    rewrite list_lookup_fmap in Ha, Hb.
    destruct (renderOrder st !! i) as [la |] eqn:Hla; [| done].
    destruct (renderOrder st !! j) as [lb |] eqn:Hlb; [| done].
    injection Ha as <-. injection Hb as <-. simpl in Hza, Hzb.
    apply bool_decide_eq_true in Hza. apply bool_decide_eq_false in Hzb.
    unfold renderOrder in Hla, Hlb.
    set (zs := filter (λ l, n_type (getNode (store st) l) = Tzone) (nodes st)) in *.
    set (os := filter (λ l, n_type (getNode (store st) l) ≠ Tzone) (nodes st)) in *.
    destruct (decide (i < length zs)%nat) as [Hi | Hi].
    + destruct (decide (j < length zs)%nat) as [Hj | Hj]; [| lia].
      rewrite lookup_app_l in Hlb by done.
      apply list_elem_of_lookup_2, list_elem_of_filter in Hlb as [Hz _]. done.
    + rewrite lookup_app_r in Hla by lia.
      apply list_elem_of_lookup_2, list_elem_of_filter in Hla as [Hz _]. done.
  - intros a Ha. unfold render in Ha. apply list_elem_of_fmap in Ha as (l & -> & _).
    simpl. by rewrite bool_decide_eq_true.
Qed.

(** ** Spawning *)

(** X20.  [spawn] appends one new node object and leaves the objects the
    store held as they were.  The new node has the next value of
    [crypto.randomUUID] as its id, the size of its type, and a data object
    with every field of the catalog set to the empty text (for a zone:
    title [ZONE] and color [#2196f3]); it becomes the focus and the whole
    selection.  With a zoom that is not zero its centre is the world point
    at the centre of the viewport. *)
Theorem X20_spawn_adds_one_node (E : Env) (t : PrimType) (r : ViewRect) (st : AppState) :
  let st' := spawn E t r st in
  let id := randomUUID E (uuidCalls st) in
  (∃ nl, nodes st' = nodes st ++ [nl]
         ∧ nodeHeap (store st) !! nl = None
         ∧ viewNode (store st') nl
           = mkNodeVal id t
               ((vr_width r / num 2 1 - panX st) / zoom st - (spawnSize t).1 / num 2 1)
               ((vr_height r / num 2 1 - panY st) / zoom st - (spawnSize t).2 / num 2 1)
               (spawnSize t).1 (spawnSize t).2 (spawnData t)
         ∧ (zoom st ≠ 0 →
            (v_x (viewNode (store st') nl) + v_w (viewNode (store st') nl) / num 2 1,
             v_y (viewNode (store st') nl) + v_h (viewNode (store st') nl) / num 2 1)
            = screenToWorld st r (mkMouse (vr_left r + vr_width r / num 2 1)
                                          (vr_top r + vr_height r / num 2 1))))
  ∧ extends (store st) (store st')
  ∧ focusedId st' = Some id ∧ selectedIds st' = [id]
  ∧ uuidCalls st' = S (uuidCalls st)
  ∧ (∀ k, k ∈ primitiveFields t →
       spawnData t !! k
       = Some (if bool_decide (t = Tzone) && bool_decide (k = "title") then "ZONE" else ""))
  ∧ spawnData t !! "color" = (if bool_decide (t = Tzone) then Some "#2196f3" else None).
Proof.
  intros st' id. subst st'. unfold spawn. fold id.
  change (store (set_uuidCalls (S (uuidCalls st)) st)) with (store st).
  change (nodes (set_uuidCalls (S (uuidCalls st)) st)) with (nodes st).
  change (panX (set_uuidCalls (S (uuidCalls st)) st)) with (panX st).
  change (panY (set_uuidCalls (S (uuidCalls st)) st)) with (panY st).
  change (zoom (set_uuidCalls (S (uuidCalls st)) st)) with (zoom st).
  destruct (spawnSize t) as [w h] eqn:Hsize. simpl fst. simpl snd.
  set (cx := (vr_width r / num 2 1 - panX st) / zoom st).
  set (cy := (vr_height r / num 2 1 - panY st) / zoom st).
  pose proof (alloc_pair_spec
    (λ dl, mkNode id t (cx - w / num 2 1) (cy - h / num 2 1) w h dl) (spawnData t) (store st))
    as Hspec.
  destruct (allocData (spawnData t) (store st)) as [σ1 dl].
  destruct (allocNode _ σ1) as [σ2 nl].
  destruct Hspec as (Hn & Hd & Hn2 & Hd2); [done |].
  assert (viewNode σ2 nl
          = mkNodeVal id t (cx - w / num 2 1) (cy - h / num 2 1) w h (spawnData t)) as Hview.
  { unfold viewNode.
    rewrite (getNode_lookup σ2 nl _ ltac:(rewrite Hn2; apply lookup_insert_eq)). simpl.
    by rewrite (getData_lookup σ2 dl _ ltac:(rewrite Hd2; apply lookup_insert_eq)). }
  match goal with |- context [scheduleSave ?s] => set (stF := scheduleSave s) end.
  assert (nodes stF = nodes st ++ [nl] ∧ store stF = σ2 ∧ focusedId stF = Some id
          ∧ selectedIds stF = [id] ∧ uuidCalls stF = S (uuidCalls st))
    as (HF1 & HF2 & HF3 & HF4 & HF5) by (by subst stF).
  clearbody stF. rewrite HF1, HF2, HF3, HF4, HF5.
  split_and!; try done.
  - exists nl. rewrite Hview. split_and!; try done.
    intros Hz. unfold screenToWorld. simpl. subst cx cy.
    f_equal; field; done.
  - split; [rewrite Hn2 | rewrite Hd2]; by apply insert_subseteq.
  - intros k Hk. destruct t; simpl in Hk;
      repeat (apply elem_of_cons in Hk as [-> | Hk]; [by vm_compute |]);
      by apply elem_of_nil in Hk.
  - by destruct t.
Qed.

(** ** The dropdowns of the toolbar *)

Lemma displayOf_setDisplay (m : Menus) (o dd : nat) (v : string) :
  displayOf (setDisplay o v m) dd = if bool_decide (o = dd) then v else displayOf m dd.
Proof.
  unfold displayOf, setDisplay. simpl. case_bool_decide as H.
  - subst. by rewrite lookup_insert_eq.
  - by rewrite lookup_insert_ne.
Qed.

Lemma displayOf_mk (m : Menus) (o : option nat) (d : nat) :
  displayOf (mkMenus (dd_display m) o) d = displayOf m d.
Proof. reflexivity. Qed.

Lemma groupClick_spec (dd : nat) (m : Menus) :
  (∀ d, displayOf (groupClick dd m) d
        = if bool_decide (dd = d)
          then (if bool_decide (displayOf m dd = "flex") then "none" else "flex")
          else match openDropdown m with
               | Some o => if bool_decide (o ≠ dd) && bool_decide (o = d) then "none"
                           else displayOf m d
               | None => displayOf m d
               end)
  ∧ openDropdown (groupClick dd m)
    = (if bool_decide (displayOf m dd = "flex") then None else Some dd).
Proof.
  unfold groupClick.
  set (m1 := match openDropdown m with
             | Some o => if bool_decide (o ≠ dd) then setDisplay o "none" m else m
             | None => m
             end).
  assert (∀ d, displayOf m1 d
               = match openDropdown m with
                 | Some o => if bool_decide (o ≠ dd) && bool_decide (o = d) then "none"
                             else displayOf m d
                 | None => displayOf m d
                 end) as Hm1.
  { intros d. subst m1. destruct (openDropdown m) as [o |]; [| done].
    case_bool_decide as Hodd; [| done]. simpl. apply displayOf_setDisplay. }
  assert (displayOf m1 dd = displayOf m dd) as Hdd.
  { rewrite Hm1. destruct (openDropdown m) as [o |]; [| done].
    destruct (decide (o = dd)) as [-> | Hne].
    - rewrite (bool_decide_eq_false_2 (dd ≠ dd)); [done |]. intros H. by apply H.
    - by rewrite (bool_decide_eq_false_2 (o = dd)), andb_false_r by done. }
  clearbody m1. split.
  - intros d. rewrite displayOf_mk, displayOf_setDisplay, Hdd.
    case_bool_decide; [done | apply Hm1].
  - cbn [openDropdown]. rewrite displayOf_setDisplay.
    rewrite (bool_decide_eq_true_2 (dd = dd)) by done.
    rewrite Hdd. by destruct (bool_decide (displayOf m dd = "flex")).
Qed.

(** X21.  At most one dropdown is shown: if only the dropdown that
    [openDropdown] names can be shown, the same holds after a click on a
    group button and after a click on the document.  Outside draw mode a
    click on the document leaves no dropdown shown; in draw mode it
    changes nothing.  A click on a group button shows its dropdown exactly
    when it was not shown before, and leaves no other dropdown shown. *)
Theorem X21_one_dropdown_open (dd : nat) (mode : Mode) (m : Menus) :
  oneOpen m →
  oneOpen (groupClick dd m) ∧ oneOpen (documentClick mode m)
  ∧ (mode ≠ ModeDraw → ∀ d, displayOf (documentClick mode m) d ≠ "flex")
  ∧ documentClick ModeDraw m = m
  ∧ (displayOf (groupClick dd m) dd = "flex" ↔ displayOf m dd ≠ "flex")
  ∧ (∀ d, d ≠ dd → displayOf (groupClick dd m) d ≠ "flex").
Proof.
  intros Hone. destruct (groupClick_spec dd m) as [Hdisp Hopen].
  assert (∀ d, d ≠ dd → displayOf (groupClick dd m) d ≠ "flex") as Hothers.
  { intros d Hd. rewrite Hdisp. rewrite (bool_decide_eq_false_2 (dd = d)) by done.
    destruct (openDropdown m) as [o |] eqn:Ho.
    - destruct (bool_decide (o ≠ dd) && bool_decide (o = d)) eqn:Hb; [done |].
      intros Hflex. apply Hone in Hflex. rewrite Ho in Hflex. injection Hflex as ->.
      rewrite (bool_decide_eq_true_2 (d ≠ dd)), (bool_decide_eq_true_2 (d = d)) in Hb by done.
      done.
    - intros Hflex. apply Hone in Hflex. congruence. }
  assert (displayOf (groupClick dd m) dd = "flex" ↔ displayOf m dd ≠ "flex") as Hself.
  { pose proof (Hdisp dd) as Hd.
    rewrite (bool_decide_eq_true_2 (dd = dd) eq_refl) in Hd. rewrite Hd.
    destruct (bool_decide_reflect (displayOf m dd = "flex")) as [Hflex | Hflex];
      split; done. }
  clear Hdisp.
  assert (∀ o d, openDropdown m = Some o → displayOf (setDisplay o "none" m) d ≠ "flex")
    as Hclosed.
  { intros o d Ho. rewrite displayOf_setDisplay.
    destruct (bool_decide_reflect (o = d)) as [-> | Hne]; [done |].
    intros Hflex. apply Hone in Hflex. congruence. }
  split_and!.
  - intros d Hflex. destruct (decide (d = dd)) as [-> | Hd]; [| by destruct (Hothers d Hd)].
    rewrite Hopen. apply Hself in Hflex. by rewrite bool_decide_eq_false_2.
  - intros d. unfold documentClick.
    destruct (bool_decide_reflect (mode = ModeDraw)) as [_ | _]; [exact (Hone d) |].
    destruct (openDropdown m) as [o |] eqn:Ho; [| exact (Hone d)].
    rewrite displayOf_mk. intros Hflex. by destruct (Hclosed o d eq_refl).
  - intros Hmode d. unfold documentClick. rewrite bool_decide_eq_false_2 by done.
    destruct (openDropdown m) as [o |] eqn:Ho.
    + rewrite displayOf_mk. by apply Hclosed.
    + intros Hflex. apply Hone in Hflex. congruence.
  - done.
  - done.
  - done.
Qed.

Lemma X21_one_dropdown_open_witness :
  oneOpen (groupClick 1 (groupClick 0 (mkMenus ∅ None))).
Proof.
  apply (X21_one_dropdown_open 1 ModeNormal (groupClick 0 (mkMenus ∅ None))).
  apply (X21_one_dropdown_open 0 ModeNormal (mkMenus ∅ None)).
  intros d Hd. unfold displayOf in Hd. simpl in Hd. by rewrite lookup_empty in Hd.
Defined.

(** ** The mode buttons *)

(** X22.  After a click on the draw button or on the text button, whatever
    the toolbar showed before, the draw button is active exactly in draw
    mode, the text button exactly in text mode, and the drawing layer takes
    pointer events exactly outside normal mode.  A click on the button of
    the current mode returns to normal mode; a click on the other button
    switches to its mode directly. *)
Theorem X22_mode_buttons (s : AppState * Toolbar) :
  showsMode (drawBtnClick s) ∧ showsMode (textBtnClick s)
  ∧ interactionMode (drawBtnClick s).1
    = (if bool_decide (interactionMode s.1 = ModeDraw) then ModeNormal else ModeDraw)
  ∧ interactionMode (textBtnClick s).1
    = (if bool_decide (interactionMode s.1 = ModeText) then ModeNormal else ModeText)
  ∧ interactionMode (drawBtnClick (drawBtnClick s)).1
    = (if bool_decide (interactionMode s.1 = ModeDraw) then ModeDraw else ModeNormal)
  ∧ interactionMode (textBtnClick (drawBtnClick s)).1 = ModeText
  ∧ interactionMode (drawBtnClick (textBtnClick s)).1 = ModeDraw.
Proof.
  destruct s as [st tb]. unfold showsMode, drawBtnClick, textBtnClick, layerTakesPointer,
    drawToggle, textToggle, inMode. simpl.
  by destruct (interactionMode st).
Qed.

(** ** Drawing a stroke *)

Lemma getStroke_lookup (k : Ink) (l : loc) (s : Stroke) :
  strokeHeap k !! l = Some s → getStroke k l = s.
Proof. intros H. unfold getStroke. by rewrite lookup_total_alt, H. Qed.

Lemma getText_lookup (k : Ink) (l : loc) (t : TextDrawing) :
  textHeap k !! l = Some t → getText k l = t.
Proof. intros H. unfold getText. by rewrite lookup_total_alt, H. Qed.

(** The pointer moves while a stroke is being drawn append their world
    points to it, and do nothing else. *)
Lemma strokeMoves (r : ViewRect) (es : list Mouse) (k : Ink) (l : loc) (s : Stroke) :
  activeDraw k = Some l → inMode ModeDraw (ink_app k) = true →
  strokeHeap k !! l = Some s →
  foldl (λ k e, drawLayerMouseMove r e k) k es
  = set_strokeHeap
      (<[l := mkStroke (s_id s) (s_color s) (s_size s)
                (s_points s ++ map (screenToWorld (ink_app k) r) es)]> (strokeHeap k)) k.
Proof.
  revert k s. induction es as [| e es IH]; intros k s Hact Hmode Hl; simpl.
  - rewrite app_nil_r. destruct s. simpl. rewrite insert_id by done. by destruct k.
  - unfold drawLayerMouseMove at 2. rewrite Hact, Hmode. simpl.
    rewrite (getStroke_lookup k l s Hl).
    rewrite (IH _ (addPoint (screenToWorld (ink_app k) r e) s)); simpl; try done.
    + rewrite insert_insert_eq, <- app_assoc. done.
    + apply lookup_insert_eq.
Qed.

(** X23.  In draw mode a press of the left button on the drawing layer
    starts a new stroke, appended to the strokes, with the current color
    and size and the next value of [crypto.randomUUID] as its id, and
    empties the redo stack of strokes (so that the redo key then adds no
    stroke).  The stroke holds the world points of the press and of the
    pointer moves that follow, in their order; no other stroke changes.
    After the button is released, pointer moves add no point. *)
Theorem X23_stroke_capture (E : Env) (r : ViewRect) (e0 eu : Mouse) (es : list Mouse)
    (els : list DomNode) (k : Ink) :
  inMode ModeDraw (ink_app k) = true →
  let k1 := drawLayerMouseDown E 0 r e0 k in
  let k2 := foldl (λ k e, drawLayerMouseMove r e k) k1 es in
  let k3 := inkWindowMouseUp eu els k2 in
  ∃ l, strokeHeap k !! l = None
       ∧ strokes k2 = strokes k ++ [l]
       ∧ getStroke k2 l
         = mkStroke (randomUUID E (uuidCalls (ink_app k))) (drawColor k) (drawSize k)
                    (map (screenToWorld (ink_app k) r) (e0 :: es))
       ∧ (∀ d, d ≠ l → strokeHeap k2 !! d = strokeHeap k !! d)
       ∧ strokeRedo k2 = [] ∧ strokes (inkDrawRedo k2) = strokes k2
       ∧ strokes k3 = strokes k2 ∧ strokeHeap k3 = strokeHeap k2
       ∧ (∀ e, drawLayerMouseMove r e k3 = k3).
Proof.
  intros Hmode k1 k2 k3.
  set (l := fresh (dom (strokeHeap k))).
  set (s0 := mkStroke (randomUUID E (uuidCalls (ink_app k))) (drawColor k) (drawSize k)
               [screenToWorld (ink_app k) r e0]).
  assert (strokeHeap k !! l = None) as Hfresh by (apply not_elem_of_dom, is_fresh).
  assert (k1 = set_strokeRedo [] (set_drawUndo (drawUndo k ++ [l])
                (set_strokes (strokes k ++ [l]) (set_activeDraw (Some l)
                   (set_strokeHeap (<[l := s0]> (strokeHeap k))
                      (onApp (set_uuidCalls (S (uuidCalls (ink_app k)))) k)))))) as Hk1.
  { subst k1. unfold drawLayerMouseDown. by rewrite Hmode. }
  clearbody k1.
  assert (k2 = set_strokeHeap
                 (<[l := mkStroke (s_id s0) (s_color s0) (s_size s0)
                           (s_points s0 ++ map (screenToWorld (ink_app k1) r) es)]>
                    (strokeHeap k1)) k1) as Hk2.
  { subst k2. apply strokeMoves; rewrite Hk1; simpl; try done. apply lookup_insert_eq. }
  clearbody k2.
  exists l. subst k3. rewrite Hk2, Hk1. simpl. split_and!; try done.
  - unfold getStroke. simpl. by rewrite lookup_total_insert_eq.
  - intros d Hd. by rewrite !lookup_insert_ne.
Qed.

Lemma X23_stroke_capture_witness :
  let k := onApp drawToggle initialInk in
  ∃ l, strokes (foldl (λ k e, drawLayerMouseMove exRect e k)
                  (drawLayerMouseDown exEnv 0 exRect exMouse k) [exMouse])
       = strokes k ++ [l].
Proof.
  intros k.
  destruct (X23_stroke_capture exEnv exRect exMouse exMouse [exMouse] [] k eq_refl)
    as (l & _ & Hl & _).
  by exists l.
Defined.

(** ** Erasing a stroke *)

Lemma filter_ne_delete {A} `{EqDecision A} (l : list A) (i : nat) (x : A) :
  NoDup l → l !! i = Some x → filter (λ y, y ≠ x) l = delete i l.
Proof.
  revert i. induction l as [| a l IH]; intros i Hnd Hi; [done |].
  apply NoDup_cons in Hnd as [Ha Hnd]. destruct i as [| i]; simpl in *.
  - injection Hi as ->. rewrite filter_cons_False by (intros H; by apply H).
    apply filter_all. apply Forall_forall. intros y Hy ->. done.
  - rewrite filter_cons_True.
    + f_equal. by apply IH.
    + intros ->. apply Ha. by eapply list_elem_of_lookup_2.
Qed.

(** X24.  A right click on the drawing layer changes nothing outside draw
    mode, when no stroke has a point nearer than 8 to the pointer, or when
    the user declines.  Otherwise it removes the first stroke that has such
    a point, and only this stroke; the strokes themselves and the redo
    stack of strokes are untouched, so the removal cannot be undone with
    the keys. *)
Theorem X24_right_click_erases (answer : bool) (r : ViewRect) (e : Mouse) (k : Ink) :
  let k' := drawLayerContextMenu answer r e k in
  let p := screenToWorld (ink_app k) r e in
  strokeHeap k' = strokeHeap k ∧ strokeRedo k' = strokeRedo k ∧ texts k' = texts k
  ∧ (inMode ModeDraw (ink_app k) = false ∨ answer = false
     ∨ (∀ d, d ∈ strokes k → strokeHit p (getStroke k d) = false) → k' = k)
  ∧ (inMode ModeDraw (ink_app k) = true → answer = true →
     ∀ i hit, strokes k !! i = Some hit → strokeHit p (getStroke k hit) = true →
       (∀ j d, (j < i)%nat → strokes k !! j = Some d → strokeHit p (getStroke k d) = false) →
       strokes k' = filter (λ d, d ≠ hit) (strokes k) ∧ (hit ∉ strokes k')
       ∧ (NoDup (strokes k) → strokes k' = delete i (strokes k))
       ∧ isDirty (ink_app k') = true).
Proof.
  intros k' p. subst k'. unfold drawLayerContextMenu. fold p.
  destruct (inMode ModeDraw (ink_app k)) eqn:Hmode; simpl.
  2: { split_and!; try done. }
  destruct (list_find (λ d, strokeHit p (getStroke k d) = true) (strokes k))
    as [[i0 hit0] |] eqn:Hfind.
  - apply list_find_Some in Hfind as (Hi0 & Hhit0 & Hfirst).
    destruct answer.
    + split_and!; try done.
      * intros [? | [? | Hnone]]; try done.
        rewrite Hnone in Hhit0; [done |]. by eapply list_elem_of_lookup_2.
      * intros _ _ i hit Hi Hhit Hbefore.
        assert (i = i0) as ->.
        { destruct (Nat.lt_trichotomy i i0) as [Hlt | [-> | Hgt]]; [| done |].
          - destruct (Hfirst i hit Hi Hlt). done.
          - rewrite (Hbefore i0 hit0 Hgt Hi0) in Hhit0. done. }
        assert (hit = hit0) as -> by congruence.
        simpl. split_and!; try done.
        -- intros [Hne _]%list_elem_of_filter. by apply Hne.
        -- intros Hnd. by apply filter_ne_delete.
    + split_and!; try done.
  - split_and!; try done. intros _ _ i hit Hi Hhit _.
    apply list_find_None in Hfind.
    apply (proj1 (Forall_forall _ _) Hfind hit) in Hhit; [done |].
    by eapply list_elem_of_lookup_2.
Qed.

(** ** Placing a text note *)

Lemma placementMoves_spec (r : ViewRect) (e : Mouse) (ts : list loc) (k : Ink) :
  let k' := foldl (placementMove r e) k ts in
  ink_app k' = ink_app k ∧ texts k' = texts k ∧ placing k' = placing k
  ∧ strokes k' = strokes k ∧ strokeHeap k' = strokeHeap k
  ∧ (∀ t, t ∈ ts → getText k' t = moveText (screenToWorld (ink_app k) r e) (getText k t))
  ∧ (∀ t, t ∉ ts → getText k' t = getText k t).
Proof.
  revert k. induction ts as [| a ts IH]; intros k; simpl.
  { split_and!; try done. intros t Ht. by apply elem_of_nil in Ht. }
  destruct (IH (placementMove r e k a)) as (H1 & H2 & H3 & H4 & H5 & H6 & H7).
  simpl in *. split_and!; try done.
  - intros t Ht. destruct (decide (t ∈ ts)) as [Hin | Hnin].
    + rewrite (H6 t Hin). unfold getText. simpl.
      destruct (decide (a = t)) as [-> | Hne].
      * rewrite lookup_total_insert_eq. by unfold getText, moveText.
      * by rewrite lookup_total_insert_ne.
    + apply elem_of_cons in Ht as [-> | Ht]; [| done].
      rewrite (H7 a Hnin). unfold getText. simpl. by rewrite lookup_total_insert_eq.
  - intros t Ht. apply not_elem_of_cons in Ht as [Hne Hnin].
    rewrite (H7 t Hnin). unfold getText. simpl. by rewrite lookup_total_insert_ne.
Qed.

(** X25.  In text mode a press of the left button on the drawing layer
    appends a new text note with an empty text, the current text size and
    color and the world point of the press as its position, schedules a
    save and starts the placement of the note; no stroke is started.
    While placements are pending, every pointer move puts each note that
    is being placed at the world point of the pointer and leaves the other
    notes where they are. *)
Theorem X25_text_placement (E : Env) (r : ViewRect) (e0 e : Mouse) (k : Ink) :
  (inMode ModeText (ink_app k) = true →
   let k1 := drawLayerMouseDown E 0 r e0 k in
   ∃ t, textHeap k !! t = None
        ∧ texts k1 = texts k ++ [t] ∧ placing k1 = placing k ++ [t]
        ∧ getText k1 t
          = mkText (randomUUID E (uuidCalls (ink_app k)))
                   (screenToWorld (ink_app k) r e0).1 (screenToWorld (ink_app k) r e0).2
                   "" (textSize k) (textColor k)
        ∧ (∀ x, x ≠ t → textHeap k1 !! x = textHeap k !! x)
        ∧ isDirty (ink_app k1) = true
        ∧ strokes k1 = strokes k ∧ activeDraw k1 = activeDraw k)
  ∧ (let k2 := inkWindowMouseMove r e k in
     texts k2 = texts k ∧ placing k2 = placing k
     ∧ (∀ t, t ∈ placing k →
          getText k2 t = moveText (screenToWorld (ink_app k2) r e) (getText k t))
     ∧ (∀ t, t ∉ placing k → getText k2 t = getText k t)).
Proof.
  split.
  - intros Hmode k1.
    assert (inMode ModeDraw (ink_app k) = false) as Hd.
    { unfold inMode in *. apply bool_decide_eq_true in Hmode.
      apply bool_decide_eq_false. congruence. }
    subst k1. unfold drawLayerMouseDown. rewrite Hd, Hmode. simpl.
    exists (fresh (dom (textHeap k))). split_and!; try done.
    + apply not_elem_of_dom, is_fresh.
    + unfold getText. simpl. by rewrite lookup_total_insert_eq.
    + intros x Hx. by rewrite lookup_insert_ne.
  - intros k2. subst k2. unfold inkWindowMouseMove.
    set (k1 := onApp (windowMouseMove e) k).
    destruct (placementMoves_spec r e (placing k1) k1) as (H1 & H2 & H3 & H4 & H5 & H6 & H7).
    rewrite H1, H2, H3. split_and!; try done.
Qed.

Lemma X25_text_placement_witness :
  let k := onApp textToggle initialInk in
  ∃ t, texts (drawLayerMouseDown exEnv 0 exRect exMouse k) = texts k ++ [t].
Proof.
  intros k.
  destruct (proj1 (X25_text_placement exEnv exRect exMouse exMouse k) eq_refl)
    as (t & _ & Ht & _).
  by exists t.
Defined.

(** X26.  The key listener of a pending placement: Escape removes the
    note that is being placed; Enter with an input that is empty after
    trimming removes it too; Enter with any other input keeps the notes and
    sets the text of the note to the trimmed input.  Either key ends the
    placement and schedules a save; any other key changes nothing.  A
    removal takes the notes that carry the id of the placed note and no
    other note. *)
Theorem X26_text_placement_keys (key trimmed : string) (t : loc) (k : Ink) :
  let k' := placementKey key trimmed t k in
  (key = "Escape" → (t ∉ texts k') ∧ (t ∉ placing k') ∧ isDirty (ink_app k') = true)
  ∧ (key = "Enter" → trimmed = "" →
     (t ∉ texts k') ∧ (t ∉ placing k') ∧ isDirty (ink_app k') = true)
  ∧ (key = "Enter" → trimmed ≠ "" →
     texts k' = texts k ∧ getText k' t = setText trimmed (getText k t)
     ∧ (t ∉ placing k') ∧ isDirty (ink_app k') = true)
  ∧ (key ≠ "Enter" → key ≠ "Escape" → k' = k)
  ∧ (∀ x, x ∈ texts k → t_id (getText k x) ≠ t_id (getText k t) → x ∈ texts k')
  ∧ strokes k' = strokes k ∧ strokeHeap k' = strokeHeap k.
Proof.
  intros k'. subst k'. unfold placementKey.
  destruct (decide (key = "Escape")) as [-> | Hesc].
  - rewrite (bool_decide_eq_false_2 ("Escape" = "Enter")) by done.
    rewrite (bool_decide_eq_true_2 ("Escape" = "Escape")) by done.
    unfold placementCleanup, removeTextsById. simpl. split_and!; try done.
    + intros _. split_and!; try done.
      * intros [Hne _]%list_elem_of_filter. by apply Hne.
      * intros [Hne _]%list_elem_of_filter. by apply Hne.
    + intros x Hx Hid. by apply list_elem_of_filter.
  - rewrite (bool_decide_eq_false_2 (key = "Escape")) by done.
    destruct (decide (key = "Enter")) as [-> | Hent].
    + rewrite (bool_decide_eq_true_2 ("Enter" = "Enter")) by done.
      set (k1 := set_textHeap (<[t := setText trimmed (getText k t)]> (textHeap k)) k).
      assert (getText k1 t = setText trimmed (getText k t)) as Ht1.
      { unfold getText. simpl. by rewrite lookup_total_insert_eq. }
      assert (∀ x, t_id (getText k1 x) = t_id (getText k x)) as Hids.
      { intros x. unfold getText. simpl. destruct (decide (t = x)) as [-> | Hne].
        - by rewrite lookup_total_insert_eq.
        - by rewrite lookup_total_insert_ne. }
      destruct (decide (trimmed = "")) as [-> | Hne].
      * simpl. unfold placementCleanup, removeTextsById. simpl. split_and!; try done.
        -- intros _ _. split_and!; try done.
           ++ intros [Hn _]%list_elem_of_filter. by apply Hn.
           ++ intros [Hn _]%list_elem_of_filter. by apply Hn.
        -- intros x Hx Hid. apply list_elem_of_filter. split; [| done].
           by rewrite !Hids.
      * assert (truthy_str trimmed = true) as ->.
        { unfold truthy_str. by rewrite bool_decide_eq_false_2. }
        simpl. unfold placementCleanup. simpl. split_and!; try done.
        intros _ _. split_and!; try done.
        intros [Hn _]%list_elem_of_filter. by apply Hn.
    + rewrite (bool_decide_eq_false_2 (key = "Enter")) by done.
      split_and!; try done.
Qed.

(** X27.  A right click on a rendered text note changes nothing outside
    text mode or when the user declines.  Otherwise it removes from the
    text notes the first note that carries the id of the clicked note, and
    no other, and schedules a save; if no note carries the id, the notes
    stay as they are. *)
Theorem X27_text_right_click (answer : bool) (t : loc) (k : Ink) :
  let k' := textContextMenu answer t k in
  (inMode ModeText (ink_app k) = false ∨ answer = false → k' = k)
  ∧ (inMode ModeText (ink_app k) = true → answer = true →
     isDirty (ink_app k') = true ∧ textHeap k' = textHeap k
     ∧ (∀ i x, texts k !! i = Some x → t_id (getText k x) = t_id (getText k t) →
          (∀ j y, (j < i)%nat → texts k !! j = Some y →
                  t_id (getText k y) ≠ t_id (getText k t)) →
          texts k' = delete i (texts k))
     ∧ ((∀ x, x ∈ texts k → t_id (getText k x) ≠ t_id (getText k t)) →
        texts k' = texts k)).
Proof.
  intros k'. subst k'. unfold textContextMenu. split.
  - intros [-> | ->]; [done |]. by destruct (inMode ModeText (ink_app k)).
  - intros -> ->. simpl.
    destruct (list_find (λ x, t_id (getText k x) = t_id (getText k t)) (texts k))
      as [[i0 x0] |] eqn:Hfind.
    + apply list_find_Some in Hfind as (Hi0 & Hid0 & Hfirst). simpl.
      split_and!; try done.
      * intros i x Hi Hid Hbefore.
        destruct (Nat.lt_trichotomy i i0) as [Hlt | [-> | Hgt]]; [| done |].
        -- destruct (Hfirst i x Hi Hlt). done.
        -- destruct (Hbefore i0 x0 Hgt Hi0). done.
      * intros Hnone. destruct (Hnone x0); [by eapply list_elem_of_lookup_2 | done].
    + apply list_find_None in Hfind. simpl. split_and!; try done.
      intros i x Hi Hid _.
      apply (proj1 (Forall_forall _ _) Hfind x) in Hid; [done |].
      by eapply list_elem_of_lookup_2.
Qed.

(** ** The clipboard as a snapshot *)

Lemma deepCopyList_fresh_data (ls : list loc) (σ σ' : Store) (cs : list loc) :
  deepCopyList σ ls = (σ', cs) →
  Forall (λ c, dataHeap σ !! n_data (getNode σ' c) = None) cs.
Proof.
  revert σ σ' cs. induction ls as [| l rest IH]; intros σ σ' cs; cbn [deepCopyList].
  - intros [= <- <-]. constructor.
  - destruct (deepCopy σ l) as [σ1 c] eqn:Hcopy.
    apply deepCopy_spec in Hcopy as (Hn & Hd & Hext1 & Hc & Hview).
    destruct (deepCopyList σ1 rest) as [σ2 cs'] eqn:Hrec.
    pose proof (IH _ _ _ Hrec) as Hrest.
    apply deepCopyList_spec in Hrec as (Hext2 & _).
    intros [= <- <-]. constructor.
    + rewrite (extends_getNode σ1 σ2); [done | done |].
      destruct Hc as (n & Hlook & _). eauto.
    + eapply Forall_impl; [exact Hrest |]. simpl. intros c' Hc'.
      destruct Hext1 as [_ Hed].
      destruct (dataHeap σ !! n_data (getNode σ2 c')) eqn:Hlook; [| done].
      eapply lookup_weaken in Hlook; [| done]. congruence.
Qed.

Lemma deepCopyList_length (ls : list loc) (σ σ' : Store) (cs : list loc) :
  deepCopyList σ ls = (σ', cs) → length cs = length ls.
Proof.
  revert σ σ' cs. induction ls as [| l rest IH]; intros σ σ' cs; cbn [deepCopyList].
  - by intros [= <- <-].
  - destruct (deepCopy σ l) as [σ1 c]. destruct (deepCopyList σ1 rest) as [σ2 cs'] eqn:Hrec.
    intros [= <- <-]. simpl. f_equal. by eapply IH.
Qed.

Lemma dragMoveIds_notin (starts : gmap string (Qc * Qc)) (dx dy : Qc) (ns : list loc)
    (ids : list string) (σ : Store) (c : loc) :
  c ∉ ns →
  getNode (dragMoveIds starts dx dy ns ids σ) c = getNode σ c
  ∧ dataHeap (dragMoveIds starts dx dy ns ids σ) = dataHeap σ.
Proof.
  intros Hc. revert σ. induction ids as [| i rest IH]; intros σ; simpl; [done |].
  destruct (findNode σ ns i) as [n |] eqn:Hfind; [| apply IH].
  destruct (starts !! i) as [s |]; [| done].
  apply findNode_Some in Hfind as [Hn _].
  destruct (IH (putNode n (setPos (getNode σ n) (s.1 + dx) (s.2 + dy)) σ)) as [-> ->].
  split; [| done]. unfold getNode. simpl. rewrite lookup_total_insert_ne; [done |].
  intros ->. done.
Qed.

Lemma listenerMoves_notin (e : Mouse) (ls : list Listener) (st : AppState) (c : loc) :
  c ∉ nodes st → c ∉ resizeRefs ls →
  getNode (store (foldl (listenerMove e) st ls)) c = getNode (store st) c
  ∧ dataHeap (store (foldl (listenerMove e) st ls)) = dataHeap (store st).
Proof.
  revert st. induction ls as [| l ls IH]; intros st Hn Hr; simpl; [done |].
  assert (nodes (listenerMove e st l) = nodes st) as Hnodes by (by destruct l).
  assert (c ∉ resizeRefs ls) as Hr'.
  { destruct l; simpl in Hr; try done. by apply not_elem_of_cons in Hr as [_ ?]. }
  destruct (IH (listenerMove e st l)) as [-> ->]; [by rewrite Hnodes | done |].
  destruct l as [| d | d]; simpl; [done | by apply dragMoveIds_notin |].
  split; [| done]. unfold getNode. simpl. rewrite lookup_total_insert_ne; [done |].
  simpl in Hr. by apply not_elem_of_cons in Hr as [? _].
Qed.

(** X28.  The clipboard is a snapshot.  When Ctrl+Alt+C copies nodes of a
    well-formed state, the clipboard then holds, in the same order, what
    these nodes hold, and the nodes of the canvas are as they were.  What
    the clipboard holds does not change when afterwards a field of a node
    of the canvas is edited, or when nodes are moved or resized by the
    pointer. *)
Theorem X28_clipboard_snapshot (st : AppState) (srcs : list loc) :
  wf st → copySources st = Some srcs →
  let st1 := keyCopy st in
  ∃ clip, clipboard st1 = Some clip
    ∧ map (viewNode (store st1)) (clipLocs clip) = map (viewNode (store st)) srcs
    ∧ nodes st1 = nodes st ∧ map (viewNode (store st1)) (nodes st) = map (viewNode (store st)) (nodes st)
    ∧ (∀ l k v, l ∈ nodes st →
         map (viewNode (store (fieldInput l k v st1))) (clipLocs clip)
         = map (viewNode (store st1)) (clipLocs clip))
    ∧ (∀ e, map (viewNode (store (windowMouseMove e st1))) (clipLocs clip)
            = map (viewNode (store st1)) (clipLocs clip)).
Proof.
  intros Hwf Hsrc st1.
  assert (Forall (allocated (store st)) srcs) as Hsrcs.
  { unfold copySources in Hsrc. destruct Hwf as (Hn & _).
    destruct (bool_decide (1 ≤ length (selectedIds st))%nat).
    - injection Hsrc as <-. by apply Forall_filter_sub.
    - destruct (truthy_id (focusedId st)); [| done].
      destruct (findNode _ _ _) as [n |] eqn:Hfind; [| done]. injection Hsrc as <-.
      apply findNode_Some in Hfind as [Hin _]. constructor; [| constructor].
      by eapply (proj1 (Forall_forall _ _) Hn). }
  assert (∃ σ' cs,
            deepCopyList (store st) srcs = (σ', cs)
            ∧ st1 = set_clipboard (Some (if bool_decide (1 ≤ length (selectedIds st))%nat
                                         then ClipMulti cs
                                         else ClipSingle (default 1%positive (head cs))))
                      (set_store σ' st)
            ∧ length cs = length srcs
            ∧ (bool_decide (1 ≤ length (selectedIds st))%nat = false → length cs = 1%nat))
    as (σ' & cs & Hcopy & Hst1 & Hlen & Hone).
  { subst st1. unfold keyCopy. unfold copySources in Hsrc.
    destruct (bool_decide (1 ≤ length (selectedIds st))%nat) eqn:Hsel.
    - injection Hsrc as <-.
      destruct (deepCopyList _ _) as [σ' cs] eqn:Hcopy. exists σ', cs.
      split_and!; try done. by eapply deepCopyList_length.
    - destruct (truthy_id (focusedId st)); [| done].
      destruct (findNode _ _ _) as [n |] eqn:Hfind; [| done]. injection Hsrc as <-.
      cbn [deepCopyList]. destruct (deepCopy (store st) n) as [σ' c] eqn:Hcopy.
      exists σ', [c]. split_and!; done. }
  clearbody st1.
  pose proof (deepCopyList_fresh_data _ _ _ _ Hcopy) as Hfd.
  apply deepCopyList_spec in Hcopy as (Hext & Hall & Hfn & Hviews).
  set (clip := if bool_decide (1 ≤ length (selectedIds st))%nat
               then ClipMulti cs else ClipSingle (default 1%positive (head cs))) in *.
  assert (clipLocs clip = cs) as Hlocs.
  { subst clip. destruct (bool_decide (1 ≤ length (selectedIds st))%nat); [done |].
    specialize (Hone eq_refl). destruct cs as [| c [| ? ?]]; done. }
  assert (∀ c, c ∈ cs → (c ∉ nodes st) ∧ (c ∉ resizeRefs (listeners st))) as Hsep.
  { intros c Hc. apply (proj1 (Forall_forall _ _) Hfn) in Hc.
    destruct Hwf as (Hn & _ & _ & _ & Hl).
    split; intros Hin.
    - apply (proj1 (Forall_forall _ _) Hn) in Hin as (n & Hlook & _). congruence.
    - apply (proj1 (Forall_forall _ _) Hl) in Hin as (n & Hlook & _). congruence. }
  exists clip. rewrite Hlocs, Hst1. simpl. split_and!; try done.
  - by apply Hviews.
  - apply list_eq. intros i. rewrite !list_lookup_fmap.
    destruct (nodes st !! i) as [l |] eqn:Hl; [| done]. simpl. f_equal.
    apply extends_viewNode; [done |].
    destruct Hwf as (Hn & _). exact (Forall_lookup_1 _ _ _ _ Hn Hl).
  - intros l k v Hl. apply list_eq. intros i. rewrite !list_lookup_fmap.
    destruct (cs !! i) as [c |] eqn:Hc; [| done]. simpl. f_equal.
    unfold fieldInput, viewNode. simpl.
    assert (getNode (putData (n_data (getNode σ' l))
                       (<[k:=v]> (getData σ' (n_data (getNode σ' l)))) σ') c
            = getNode σ' c) as -> by done.
    f_equal. unfold getData. simpl. rewrite lookup_total_insert_ne; [done |].
    intros Heq.
    assert (allocated (store st) l) as (n & Hn & [d Hd]).
    { destruct Hwf as (Hn & _). by eapply (proj1 (Forall_forall _ _) Hn). }
    rewrite (extends_getNode (store st) σ' l Hext (ex_intro _ n Hn)) in Heq.
    rewrite (getNode_lookup (store st) l n Hn) in Heq.
    pose proof (Forall_lookup_1 _ _ _ _ Hfd Hc) as Hfresh. simpl in Hfresh.
    rewrite <- Heq in Hfresh. congruence.
  - intros e. apply list_eq. intros i. rewrite !list_lookup_fmap.
    destruct (cs !! i) as [c |] eqn:Hc; [| done]. simpl. f_equal.
    destruct (Hsep c) as [Hcn Hcr]; [by eapply list_elem_of_lookup_2 |].
    set (s1 := set_clipboard (Some clip) (set_store σ' st)).
    unfold windowMouseMove.
    set (s0 := if panning s1 then _ else s1).
    assert (nodes s0 = nodes st ∧ listeners s0 = listeners st ∧ store s0 = σ')
      as (Hn0 & Hl0 & Hσ0) by (subst s0 s1; by destruct (panning _)).
    clearbody s0.
    destruct (listenerMoves_notin e (listeners s0) s0 c) as [Hg Hdh].
    + by rewrite Hn0.
    + by rewrite Hl0.
    + unfold viewNode, getData. by rewrite Hg, Hdh, Hσ0.
Qed.

Lemma X28_clipboard_snapshot_witness :
  ∃ clip, clipboard (keyCopy exSpawned) = Some clip
          ∧ map (viewNode (store (keyCopy exSpawned))) (clipLocs clip)
            = map (viewNode (store exSpawned)) [1%positive].
Proof.
  assert (wf exSpawned) as Hwf.
  { apply (reachable_wf exEnv).
    apply (reach_step exEnv initialState (Spawn Thost exRect)); [apply reach_init | exact I]. }
  assert (copySources exSpawned = Some [1%positive]) as Hsrc by (by vm_compute).
  destruct (X28_clipboard_snapshot exSpawned [1%positive] Hwf Hsrc) as (clip & H1 & H2 & _).
  by exists clip.
Defined.

(** ** Strokes by reference and by value *)

Lemma removelast_map {A B} (f : A → B) (l : list A) :
  removelast (map f l) = map f (removelast l).
Proof.
  induction l as [| a l IH]; [done |]. simpl. destruct l as [| b l]; [done |].
  simpl in *. by rewrite IH.
Qed.

(** The undo and redo of strokes on the references agree with those on
    the stroke values. *)
Lemma inkDrawUndo_view (k : Ink) : inkView (inkDrawUndo k) = keyDrawUndo (inkView k).
Proof.
  unfold inkDrawUndo, keyDrawUndo, inkView. simpl.
  change (last (map (getStroke k) (strokes k))) with (last (getStroke k <$> strokes k)).
  rewrite fmap_last. destruct (last (strokes k)) as [d |]; simpl.
  - rewrite removelast_map. by destruct (ink_app k).
  - by destruct (ink_app k).
Qed.

Lemma inkDrawRedo_view (k : Ink) : inkView (inkDrawRedo k) = keyDrawRedo (inkView k).
Proof.
  unfold inkDrawRedo. destruct (strokeRedo k) as [| d rest] eqn:Hr;
    unfold keyDrawRedo, inkView; simpl; rewrite Hr; simpl.
  - by destruct (ink_app k).
  - rewrite map_app. by destruct (ink_app k).
Qed.

(** ** Stroke sizes *)

(** X29.  Every size of the size slider is drawn as it is: the table holds
    odd sizes only, which [renderDrawings] does not change.  An even size
    is drawn one wider: the size 2 that [drawSize] holds before the slider
    is read is drawn as 3, and a size of 0 as 1. *)
Theorem X29_slider_sizes_drawn_unchanged (idx : nat) (s : Qc) :
  (DRAW_SIZES !! idx = Some s → strokeWidth s = s)
  ∧ strokeWidth (drawSize initialInk) = num 3 1
  ∧ strokeWidth 0 = num 1 1
  ∧ (∀ n : Z, strokeWidth (num (2 * n) 1) = num (2 * n + 1) 1).
Proof.
  split_and!.
  - intros Hs. unfold DRAW_SIZES in Hs.
    repeat (destruct idx as [| idx]; [injection Hs as <-; by vm_compute |]).
    done.
  - by vm_compute.
  - by vm_compute.
  - intros n. unfold strokeWidth.
    assert (∀ a b : Z, num a 1 = num b 1 → a = b) as Hinj.
    { intros a b H. apply (f_equal this) in H. unfold num in H. simpl in H.
      assert (Qred (a # 1) == Qred (b # 1))%Q as Heq by (by rewrite H).
      rewrite !Qred_correct in Heq. unfold Qeq in Heq. simpl in Heq. lia. }
    assert (num (2 * n) 1 = num 2 1 * num n 1) as Hn.
    { apply Qc_is_canon. unfold num. simpl. rewrite !Qred_correct.
      unfold Qeq. simpl. lia. }
    assert (Q2Qc (inject_Z (Qc_trunc (num n 1))) = num n 1) as Htr.
    { apply Qc_is_canon. unfold num, Qc_trunc. simpl. rewrite Qred_correct.
      unfold inject_Z, Qeq. simpl.
      pose proof (Qred_correct (n # 1)) as Hred. unfold Qeq in Hred. simpl in Hred.
      pose proof (Z.quot_mul (Qnum (Qred (n # 1)) * 1) (Z.pos (Qden (Qred (n # 1))))) as Hq.
      rewrite Z.mul_1_r in Hred.
      rewrite Hred. rewrite Z.mul_comm, Z.quot_mul by lia. lia. }
    assert (js_rem (if bool_decide (num (2 * n) 1 = 0) then num 2 1 else num (2 * n) 1)
              (num 2 1) = 0) as ->.
    { destruct (decide (n = 0%Z)) as [-> | Hnz]; [by vm_compute |].
      rewrite (bool_decide_eq_false_2 (num (2 * n) 1 = 0)).
      2: { intros H. apply (Hinj (2 * n)%Z 0%Z) in H. lia. }
      unfold js_rem. rewrite Hn.
      assert (num 2 1 * num n 1 / num 2 1 = num n 1) as -> by (field; done).
      rewrite Htr. ring. }
    rewrite bool_decide_eq_true_2 by done.
    apply Qc_is_canon. unfold num. simpl. rewrite !Qred_correct.
    unfold Qeq. simpl. lia.
Qed.

Lemma X29_slider_sizes_drawn_unchanged_witness : strokeWidth (num 5 1) = num 5 1.
Proof. exact (proj1 (X29_slider_sizes_drawn_unchanged 2 (num 5 1)) eq_refl). Defined.
